(** * Data measurements: vocabulary statistics and the nPMI cache orchestrator

    A shallow embedding of [data_measurements/dataset_statistics.py]:
    the vocabulary counter ([count_vocab_frequencies], [calc_p_word],
    [filter_vocab]), the load-or-prepare operations of
    [DatasetStatisticsCacheClass] and the pair orchestration of
    [nPMIStatisticsCacheClass].

    Conventions of the embedding.
    - A Python call that can raise returns a [res]; methods that read or
      write [self] or the cache directory run in the state-and-error monad
      [M], whose state survives an exception as the Python object does.
    - A pandas [DataFrame] is an index name, a list of column names and a
      list of rows (index label, cells).  Python integers are [Z] (the
      64-bit range of numpy is not modelled), floats are exact rationals
      extended with the infinities and NaN, so rounding is left out.
    - Text is ASCII: [lower] maps A-Z to a-z and a word character is a
      letter, a digit or the underscore.
    - The cache directory is a finite map from paths to file contents;
      directories are not modelled, and writing a table and reading it
      back returns its cells unchanged. *)

From Stdlib Require Import ZArith QArith List String Ascii Lia Bool.
From stdpp Require Import gmap strings.
Import ListNotations.
Open Scope string_scope.
Open Scope list_scope.
Open Scope nat_scope.

(** ** Python results and exceptions *)

Inductive exn : Type :=
| TypeError | UnboundLocalError | KeyError | ValueError
| IndexError | AttributeError | FileNotFoundError.

Inductive res (A : Type) : Type :=
| Ok (a : A)
| Err (e : exn).
Arguments Ok {A} a.
Arguments Err {A} e.

Definition rbind {A B} (r : res A) (f : A -> res B) : res B :=
  match r with
  | Ok a => f a
  | Err e => Err e
  end.

Declare Scope res_scope.
Delimit Scope res_scope with res.
Notation "x <- c1 ;; c2" := (rbind c1 (fun x => c2))
  (at level 100, c1 at next level, right associativity) : res_scope.

Definition raises {A} (r : res A) : Prop := exists e, r = Err e.

Fixpoint mapM {A B} (f : A -> res B) (l : list A) : res (list B) :=
  match l with
  | [] => Ok []
  | x :: l' =>
      (y <- f x ;; ys <- mapM f l' ;; Ok (y :: ys))%res
  end.

(** ** Strings *)

Definition is_upper (c : ascii) : bool :=
  let n := nat_of_ascii c in ((65 <=? n) && (n <=? 90))%nat.
Definition is_lower (c : ascii) : bool :=
  let n := nat_of_ascii c in ((97 <=? n) && (n <=? 122))%nat.
Definition is_digit (c : ascii) : bool :=
  let n := nat_of_ascii c in ((48 <=? n) && (n <=? 57))%nat.

(** [\w] of the token pattern, on ASCII. *)
Definition is_word_char (c : ascii) : bool :=
  is_upper c || is_lower c || is_digit c || (nat_of_ascii c =? 95)%nat.

Definition lower_char (c : ascii) : ascii :=
  if is_upper c then ascii_of_nat (nat_of_ascii c + 32) else c.

(** [str.lower()] *)
Fixpoint lower (s : string) : string :=
  match s with
  | EmptyString => EmptyString
  | String c s' => String (lower_char c) (lower s')
  end.

Definition str_is_empty (s : string) : bool :=
  match s with EmptyString => true | _ => false end.

(** [sorted(l)] on strings: insertion into an ordered list, by code point. *)
Fixpoint insert_sorted (x : string) (l : list string) : list string :=
  match l with
  | [] => [x]
  | y :: l' => if String.leb x y then x :: l else y :: insert_sorted x l'
  end.

Definition sorted (l : list string) : list string :=
  fold_right insert_sorted [] l.

Definition str_in (x : string) (l : list string) : bool :=
  existsb (String.eqb x) l.

(** [str(i)] for the small naturals of [range(0, 21)]. *)
Definition digit_char (n : nat) : ascii := ascii_of_nat (48 + n).
Definition str_of_small (n : nat) : string :=
  if (n <? 10)%nat then String (digit_char n) EmptyString
  else String (digit_char (n / 10)) (String (digit_char (n mod 10)) EmptyString).

(** [os.path.join(dir, name)] *)
Definition pjoin (dir name : string) : string := dir +:+ "/" +:+ name.

(** ** Numbers *)

(** A float: a finite value, an infinity ([Inf true] is the negative one)
    or NaN. *)
Inductive pyfloat : Type :=
| Fin (q : Q)
| Inf (neg : bool)
| NaN.

(** [x - y] on floats. *)
Definition fsub (x y : pyfloat) : pyfloat :=
  match x, y with
  | NaN, _ | _, NaN => NaN
  | Fin a, Fin b => Fin (a - b)%Q
  | Fin _, Inf n => Inf (negb n)
  | Inf n, Fin _ => Inf n
  | Inf n, Inf n' => if Bool.eqb n n' then NaN else Inf n
  end.

(** [x + y] on floats. *)
Definition fadd (x y : pyfloat) : pyfloat :=
  match x, y with
  | NaN, _ | _, NaN => NaN
  | Fin a, Fin b => Fin (a + b)%Q
  | Fin _, Inf n => Inf n
  | Inf n, Fin _ => Inf n
  | Inf n, Inf n' => if Bool.eqb n n' then Inf n else NaN
  end.

Definition fneg (x : pyfloat) : pyfloat :=
  match x with
  | Fin a => Fin (- a)%Q
  | Inf n => Inf (negb n)
  | NaN => NaN
  end.

(** Equality of floats as [==] reads it: NaN differs from everything. *)
Definition feq (x y : pyfloat) : Prop :=
  match x, y with
  | Fin a, Fin b => (a == b)%Q
  | Inf n, Inf n' => n = n'
  | _, _ => False
  end.

(** ** Data frames *)

Inductive cell : Type :=
| CStr (s : string)
| CInt (z : Z)
| CFlt (x : pyfloat).

Definition cell_nan : cell := CFlt NaN.

(** [isna], with [pd.set_option("use_inf_as_na", True)] in force. *)
Definition isna (c : cell) : bool :=
  match c with
  | CFlt NaN | CFlt (Inf _) => true
  | _ => false
  end.

Definition Q_eq_dec (a b : Q) : {a = b} + {a <> b}.
Proof. decide equality; [apply Pos.eq_dec | apply Z.eq_dec]. Defined.

Definition pyfloat_eq_dec (a b : pyfloat) : {a = b} + {a <> b}.
Proof. decide equality; [apply Q_eq_dec | apply Bool.bool_dec]. Defined.

Definition cell_eq_dec (a b : cell) : {a = b} + {a <> b}.
Proof.
  decide equality; [apply String.string_dec | apply Z.eq_dec | apply pyfloat_eq_dec].
Defined.

Definition cell_eqb (a b : cell) : bool :=
  if cell_eq_dec a b then true else false.

Record DataFrame : Type := mkDF {
  index_name : option string;
  columns : list string;
  rows : list (cell * list cell)
}.

Record Series : Type := mkSeries {
  s_index_name : option string;
  items : list (cell * cell)
}.

Definition df_index (df : DataFrame) : list cell := map fst (rows df).
Definition s_index (s : Series) : list cell := map fst (items s).
Definition s_values (s : Series) : list cell := map snd (items s).

(** [pd.DataFrame()] *)
Definition empty_frame : DataFrame := mkDF None [] [].

(** Position of the first column called [c]. *)
Fixpoint find_col (cs : list string) (c : string) : option nat :=
  match cs with
  | [] => None
  | c' :: cs' =>
      if String.eqb c' c then Some O
      else option_map S (find_col cs' c)
  end.

Definition cell_at (j : nat) (r : list cell) : cell := nth j r cell_nan.

(** [df[c]] *)
Definition col (df : DataFrame) (c : string) : res Series :=
  match find_col (columns df) c with
  | None => Err KeyError
  | Some j =>
      Ok (mkSeries (index_name df)
            (map (fun r => (fst r, cell_at j (snd r))) (rows df)))
  end.

Fixpoint set_nth (j : nat) (v : cell) (r : list cell) : list cell :=
  match j, r with
  | O, _ :: r' => v :: r'
  | O, [] => [v]
  | S j', x :: r' => x :: set_nth j' v r'
  | S j', [] => cell_nan :: set_nth j' v []
  end.

Fixpoint remove_nth {A} (j : nat) (r : list A) : list A :=
  match j, r with
  | _, [] => []
  | O, _ :: r' => r'
  | S j', x :: r' => x :: remove_nth j' r'
  end.

(** Store the values [vs], one per row, under the column name [c]:
    in place when the column exists, as a new last column otherwise. *)
Definition put_column (df : DataFrame) (c : string) (vs : list cell) : DataFrame :=
  match find_col (columns df) c with
  | Some j =>
      mkDF (index_name df) (columns df)
        (map (fun rv => (fst (fst rv), set_nth j (snd rv) (snd (fst rv))))
             (combine (rows df) vs))
  | None =>
      mkDF (index_name df) (columns df ++ [c])
        (map (fun rv => (fst (fst rv), snd (fst rv) ++ [snd rv]))
             (combine (rows df) vs))
  end.

Fixpoint lookup_label (l : cell) (its : list (cell * cell)) : option cell :=
  match its with
  | [] => None
  | (l', v) :: its' => if cell_eqb l' l then Some v else lookup_label l its'
  end.

Fixpoint has_dup (ls : list cell) : bool :=
  match ls with
  | [] => false
  | l :: ls' => existsb (cell_eqb l) ls' || has_dup ls'
  end.

Definition same_labels (a b : list cell) : bool :=
  if List.list_eq_dec cell_eq_dec a b then true else false.

(** [df[c] = s]: an empty frame takes over the index of a non-empty
    series; otherwise the series is aligned on the frame's index, by
    position when the two indexes are equal and by label when they differ
    (labels the series lacks give NaN; a series with repeated labels
    cannot be reindexed). *)
Definition assign (df : DataFrame) (c : string) (s : Series) : res DataFrame :=
  match rows df, items s with
  | [], _ :: _ =>
      let nm := match index_name df with
                | Some n => Some n
                | None => s_index_name s
                end in
      let blank := map (fun _ => cell_nan) (columns df) in
      Ok (put_column
            (mkDF nm (columns df) (map (fun it => (fst it, blank)) (items s)))
            c (s_values s))
  | _, _ =>
      if same_labels (s_index s) (df_index df) then
        Ok (put_column df c (s_values s))
      else if has_dup (s_index s) then Err TypeError
      else
        Ok (put_column df c
              (map (fun l => match lookup_label l (items s) with
                             | Some v => v
                             | None => cell_nan
                             end) (df_index df)))
  end.

(** [df.dropna()] *)
Definition dropna (df : DataFrame) : DataFrame :=
  mkDF (index_name df) (columns df)
    (List.filter (fun r => forallb (fun c => negb (isna c)) (snd r)) (rows df)).

(** [df.drop(labels, errors="ignore")]: rows whose label is one of the
    given strings go; labels that match no row are passed over. *)
Definition drop_labels (df : DataFrame) (labels : list string) : DataFrame :=
  mkDF (index_name df) (columns df)
    (List.filter (fun r => match fst r with
                      | CStr w => negb (str_in w labels)
                      | _ => true
                      end) (rows df)).

(** [df.set_index(c)] *)
Definition set_index (df : DataFrame) (c : string) : res DataFrame :=
  match find_col (columns df) c with
  | None => Err KeyError
  | Some j =>
      Ok (mkDF (Some c) (remove_nth j (columns df))
            (map (fun r => (cell_at j (snd r), remove_nth j (snd r))) (rows df)))
  end.

(** [df.columns = names] *)
Definition set_columns (df : DataFrame) (names : list string) : res DataFrame :=
  if length names =? length (columns df)
  then Ok (mkDF (index_name df) names (rows df))
  else Err ValueError.

(** [df[cols]] with a list of column names. *)
Definition select (df : DataFrame) (cols : list string) : res DataFrame :=
  (js <- mapM (fun c => match find_col (columns df) c with
                        | Some j => Ok j
                        | None => Err KeyError
                        end) cols ;;
   Ok (mkDF (index_name df) cols
         (map (fun r => (fst r, map (fun j => cell_at j (snd r)) js)) (rows df))))%res.

(** [df[c] = values] for a plain array of values (an [Index]): no
    alignment, the lengths have to agree. *)
Definition assign_values (df : DataFrame) (c : string) (vs : list cell) : res DataFrame :=
  if length vs =? length (rows df) then Ok (put_column df c vs)
  else Err ValueError.

(** *** Sorting *)

Fixpoint insert_by {A} (le : A -> A -> bool) (x : A) (l : list A) : list A :=
  match l with
  | [] => [x]
  | y :: l' => if le x y then x :: l else y :: insert_by le x l'
  end.

Definition sort_by {A} (le : A -> A -> bool) (l : list A) : list A :=
  fold_right (insert_by le) [] l.

Definition Qleb (a b : Q) : bool := Qle_bool a b.

Inductive sort_key : Type :=
| KNum (q : Q)
| KStr (s : string)
| KNa.

Definition key_of_cell (c : cell) : sort_key :=
  match c with
  | CStr s => KStr s
  | CInt z => KNum (inject_Z z)
  | CFlt (Fin q) => KNum q
  | CFlt _ => KNa
  end.

(** Whether a column can be ordered: numbers only or strings only. *)
Definition all_numeric (ks : list sort_key) : bool :=
  forallb (fun k => match k with KStr _ => false | _ => true end) ks.
Definition all_strings (ks : list sort_key) : bool :=
  forallb (fun k => match k with KNum _ => false | _ => true end) ks.

(** Order on keys: missing values come last whatever the direction. *)
Definition key_leb (ascending : bool) (a b : sort_key) : bool :=
  match a, b with
  | KNa, KNa => true
  | KNa, _ => false
  | _, KNa => true
  | KNum x, KNum y => if ascending then Qleb x y else Qleb y x
  | KStr x, KStr y => if ascending then String.leb x y else String.leb y x
  | KNum _, KStr _ => true
  | KStr _, KNum _ => false
  end.

(** [df.sort_values(by=c, ascending=...)].  The order pandas gives to
    rows with equal keys is not specified; this model keeps them in their
    original order. *)
Definition sort_values (df : DataFrame) (c : string) (ascending : bool) : res DataFrame :=
  match find_col (columns df) c with
  | None => Err KeyError
  | Some j =>
      let key := fun r : cell * list cell => key_of_cell (cell_at j (snd r)) in
      let ks := map key (rows df) in
      if all_numeric ks || all_strings ks then
        Ok (mkDF (index_name df) (columns df)
              (sort_by (fun r1 r2 => key_leb ascending (key r1) (key r2)) (rows df)))
      else Err TypeError
  end.

(** *** Arithmetic on columns *)

Definition fdiv (x y : pyfloat) : pyfloat :=
  match x, y with
  | NaN, _ | _, NaN => NaN
  | Fin a, Fin b =>
      if Qeq_bool b 0 then
        (if Qeq_bool a 0 then NaN else Inf (negb (Qleb 0 a)))
      else Fin (a / b)%Q
  | Fin _, Inf _ => Fin 0
  | Inf n, Fin b => Inf (xorb n (negb (Qleb 0 b)))
  | Inf _, Inf _ => NaN
  end.

Definition float_of_Z (z : Z) : pyfloat := Fin (inject_Z z).

(** The number in a cell, for arithmetic; text is a [TypeError]. *)
Definition num_of_cell (c : cell) : res pyfloat :=
  match c with
  | CInt z => Ok (float_of_Z z)
  | CFlt x => Ok x
  | CStr _ => Err TypeError
  end.

(** One step of Python's [sum]: integers stay integers. *)
Definition cell_add (a b : cell) : res cell :=
  match a, b with
  | CInt x, CInt y => Ok (CInt (x + y))
  | CStr _, _ | _, CStr _ => Err TypeError
  | _, _ => (x <- num_of_cell a ;; y <- num_of_cell b ;; Ok (CFlt (fadd x y)))%res
  end.

(** The builtin [sum(series)], starting from the integer 0. *)
Definition py_sum (vs : list cell) : res cell :=
  fold_left (fun acc v => (a <- acc ;; cell_add a v)%res) vs (Ok (CInt 0)).

(** [float(x)] *)
Definition py_float (c : cell) : res pyfloat :=
  match c with
  | CInt z => Ok (float_of_Z z)
  | CFlt x => Ok x
  | CStr _ => Err ValueError
  end.

Definition map_series (f : cell -> res cell) (s : Series) : res Series :=
  (its <- mapM (fun it => (v <- f (snd it) ;; Ok (fst it, v))%res) (items s) ;;
   Ok (mkSeries (s_index_name s) its))%res.

(** [series / d] for a float [d]. *)
Definition series_div (s : Series) (d : pyfloat) : res Series :=
  map_series (fun c => (x <- num_of_cell c ;; Ok (CFlt (fdiv x d)))%res) s.

(** [series.astype(float)] *)
Definition astype_float (s : Series) : res Series :=
  map_series (fun c => match c with
                       | CInt z => Ok (CFlt (float_of_Z z))
                       | CFlt x => Ok (CFlt x)
                       | CStr _ => Err ValueError
                       end) s.

(** [series.astype(int)]: truncation towards zero; a missing value
    cannot be cast. *)
Definition astype_int (s : Series) : res Series :=
  map_series (fun c => match c with
                       | CInt z => Ok (CInt z)
                       | CFlt (Fin q) => Ok (CInt (Z.quot (Qnum q) (Zpos (Qden q))))
                       | CFlt _ => Err ValueError
                       | CStr _ => Err ValueError
                       end) s.

(** *** Files of the cache directory *)

(** A tokenized table: one row per document, with the text, its tokens
    and their number. *)
Record tok_row : Type := mkTok {
  our_text_field : string;
  tokenized_field : list string;
  length_field : nat
}.

Inductive file : Type :=
| FCsv (header : list string) (lines : list (list cell))
| FJson (obj : list (string * list string))
| FFeather (df : DataFrame)
| FTokenized (t : list tok_row)
| FTextDset (texts : list string).

(** [df.to_csv(f)]: the index goes out as the first column, under its
    name, or under an empty header when it has none. *)
Definition to_csv (df : DataFrame) : file :=
  FCsv ((match index_name df with Some n => n | None => "" end) :: columns df)
       (map (fun r => fst r :: snd r) (rows df)).

Fixpoint number_from {A} (i : Z) (l : list A) : list (cell * A) :=
  match l with
  | [] => []
  | x :: l' => (CInt i, x) :: number_from (i + 1) l'
  end.

Fixpoint name_unnamed (i : nat) (hs : list string) : list string :=
  match hs with
  | [] => []
  | h :: hs' =>
      (if str_is_empty h then "Unnamed: " +:+ str_of_small i else h)
        :: name_unnamed (S i) hs'
  end.

(** [pd.read_csv(f)]: every column of the file is a data column, the
    rows are numbered, and a column without a header is called
    ["Unnamed: i"]. *)
Definition read_csv (f : file) : res DataFrame :=
  match f with
  | FCsv header lines =>
      Ok (mkDF None (name_unnamed 0 header) (number_from 0%Z lines))
  | _ => Err ValueError
  end.

(** ** The state-and-error monad *)

Definition M (S A : Type) : Type := S -> res A * S.

Definition ret {S A} (a : A) : M S A := fun s => (Ok a, s).
Definition raise {S A} (e : exn) : M S A := fun s => (Err e, s).
Definition bind {S A B} (m : M S A) (f : A -> M S B) : M S B :=
  fun s => match m s with
           | (Ok a, s') => f a s'
           | (Err e, s') => (Err e, s')
           end.
Definition lift {S A} (r : res A) : M S A := fun s => (r, s).
Definition gets {S A} (f : S -> A) : M S A := fun s => (Ok (f s), s).
Definition modify {S} (f : S -> S) : M S unit := fun s => (Ok tt, f s).

Declare Scope monad_scope.
Delimit Scope monad_scope with M.
Notation "x <- c1 ;; c2" := (bind c1 (fun x => c2))
  (at level 100, c1 at next level, right associativity) : monad_scope.
Notation "c1 ;;; c2" := (bind c1 (fun _ => c2))
  (at level 100, right associativity) : monad_scope.

(** [if b: body] *)
Definition when {S} (b : bool) (m : M S unit) : M S unit :=
  if b then m else ret tt.

(** [for x in l: body] *)
Fixpoint for_each {S A} (l : list A) (body : A -> M S unit) : M S unit :=
  match l with
  | [] => ret tt
  | x :: l' => (body x ;;; for_each l' body)%M
  end.

(** ** Constants of the module *)

(** Modelled from the spec: the column names of [utils.dataset_utils]
    (that module is not among the sources); the spec names the columns of
    the vocabulary table count and proportion and indexes the tables by
    word. *)
Definition CNT : string := "count".
Definition PROP : string := "proportion".
Definition WORD : string := "word".
Definition VOCAB : string := "vocab".

Definition _IDENTITY_TERMS : list string :=
  [ "man"; "woman"; "non-binary"; "gay"; "lesbian"; "queer"; "trans";
    "straight"; "cis"; "she"; "her"; "hers"; "he"; "him"; "his"; "they";
    "them"; "their"; "theirs"; "himself"; "herself" ].

Definition MIN_VOCAB_COUNT : Z := 10.
Definition _NUM_VOCAB_BATCHES : nat := 2000.

(** ** Tokenization *)

Definition flush (cur : string) : list string :=
  if str_is_empty cur then [] else [cur].

(** [re.findall] of the token pattern [\b\w+\b]: the maximal runs of word
    characters, from left to right; [cur] is the run being read. *)
Fixpoint tokens_from (cur : string) (s : string) : list string :=
  match s with
  | EmptyString => flush cur
  | String c s' =>
      if is_word_char c then tokens_from (cur +:+ String c EmptyString) s'
      else flush cur ++ tokens_from EmptyString s'
  end.

(** [self.cvec.build_tokenizer()] *)
Definition sent_tokenizer (text : string) : list string :=
  tokens_from EmptyString text.

(** [tokenize_batch], row by row. *)
Definition tokenize_batch (examples : list string) : list tok_row :=
  map (fun text =>
         let toks := sent_tokenizer (lower text) in
         mkTok text toks (length toks)) examples.

(** ** Counting the vocabulary *)

(** [cvec.fit]: the vocabulary is the set of tokens, in sorted order; an
    empty one is an error of the vectorizer. *)
Definition fit (docs : list (list string)) : res (list string) :=
  match sorted (nodup String.string_dec (concat docs)) with
  | [] => Err ValueError
  | v => Ok v
  end.

Definition count_token (w : string) (doc : list string) : Z :=
  Z.of_nat (count_occ String.string_dec doc w).

(** [cvec.transform]: one row per document, one count per feature. *)
Definition transform (features : list string) (docs : list (list string)) : list (list Z) :=
  map (fun doc => map (fun w => count_token w doc) features) docs.

(** [np.linspace(0, stop, num).astype(int)] *)
Definition linspace_int (stop : nat) (num : nat) : list nat :=
  map (fun i => (i * stop) / (num - 1)) (seq 0 num).

Fixpoint vadd (a b : list Z) : list Z :=
  match a, b with
  | x :: a', y :: b' => (x + y)%Z :: vadd a' b'
  | _, _ => []
  end.

(** [np.sum(m, axis=0)] for a matrix with [width] columns. *)
Definition sum_axis0 (width : nat) (m : list (list Z)) : list Z :=
  fold_right vadd (repeat 0%Z width) m.

(** [m[a:b]] *)
Definition slice {A} (m : list A) (a b : nat) : list A :=
  firstn (b - a) (skipn a m).

(** The [while] loop over consecutive batch bounds:
    [tf.append(np.sum(document_matrix[batches[i]:batches[i+1]], axis=0))]. *)
Fixpoint batch_sums (width : nat) (m : list (list Z)) (batches : list nat) : list (list Z) :=
  match batches with
  | b0 :: ((b1 :: _) as rest) =>
      sum_axis0 width (slice m b0 b1) :: batch_sums width m rest
  | _ => []
  end.

(** The table [count_vocab_frequencies] builds: indexed by word, one
    column of counts. *)
Definition word_count_frame (l : list (string * Z)) : DataFrame :=
  mkDF (Some WORD) [CNT] (map (fun wc => (CStr (fst wc), [CInt (snd wc)])) l).

(** [count_vocab_frequencies] with the number of batch bounds as a
    parameter.  With fewer than two bounds the loop does not run and
    [np.sum([], axis=0)] is the scalar 0.0, which makes a one-row table
    only when there is a single feature. *)
Definition count_vocab_frequencies_batched (num_batches : nat)
    (tokenized_df : list tok_row) : res DataFrame :=
  let docs := map tokenized_field tokenized_df in
  (features <- fit docs ;;
   let document_matrix := transform features docs in
   let batches := linspace_int (length tokenized_df) num_batches in
   let tf := batch_sums (length features) document_matrix batches in
   match tf with
   | [] =>
       match features with
       | [w] => Ok (mkDF (Some WORD) [CNT] [(CStr w, [CFlt (Fin 0)])])
       | _ => Err ValueError
       end
   | _ =>
       Ok (word_count_frame (combine features (sum_axis0 (length features) tf)))
   end)%res.

Definition count_vocab_frequencies (tokenized_df : list tok_row) : res DataFrame :=
  count_vocab_frequencies_batched _NUM_VOCAB_BATCHES tokenized_df.

(** [calc_p_word] *)
Definition calc_p_word (word_count_df : DataFrame) : res DataFrame :=
  (cnt <- col word_count_df CNT ;;
   total <- py_sum (s_values cnt) ;;
   denom <- py_float total ;;
   prop <- series_div cnt denom ;;
   word_count_df <- assign word_count_df PROP prop ;;
   vocab_counts_df <- sort_values word_count_df CNT false ;;
   assign_values vocab_counts_df VOCAB (df_index vocab_counts_df))%res.

Section Statistics.

(** [stopwords.words("english")] of NLTK, a word list that is data of
    that library. *)
Variable english_stopwords : list string.

Definition _CLOSED_CLASS : list string :=
  english_stopwords
  ++ [ "t"; "n"; "ll"; "d"; "wasn"; "weren"; "won"; "aren"; "wouldn";
       "shouldn"; "didn"; "don"; "hasn"; "ain"; "couldn"; "doesn"; "hadn";
       "haven"; "isn"; "mightn"; "mustn"; "needn"; "shan"; "would";
       "could"; "dont"; "u" ]
  ++ map str_of_small (seq 0 21).

(** [filter_vocab] *)
Definition filter_vocab (vocab_counts_df : DataFrame) : res DataFrame :=
  let filtered_vocab_counts_df := drop_labels vocab_counts_df _CLOSED_CLASS in
  (filtered_count <- col filtered_vocab_counts_df CNT ;;
   cnt <- col filtered_vocab_counts_df CNT ;;
   total <- py_sum (s_values cnt) ;;
   filtered_count_denom <- py_float total ;;
   prop <- series_div filtered_count filtered_count_denom ;;
   assign filtered_vocab_counts_df PROP prop)%res.

(** ** The statistics object and its cache directory *)

Record DStats : Type := mkDStats {
  dataset_cache_dir : string;
  use_cache : bool;
  save : bool;
  text_dset : option (list string);
  tokenized_df : option (list tok_row);
  vocab_counts_df : option DataFrame;
  vocab_counts_filtered_df : option DataFrame;
  min_vocab_count : Z
}.

(** A [DatasetStatisticsCacheClass] object together with the files under
    its cache directory. *)
Record World : Type := mkWorld {
  dstats : DStats;
  disk : gmap string file
}.

Definition tokenized_df_fid (d : DStats) : string :=
  pjoin (dataset_cache_dir d) "tokenized_df.feather".
Definition text_dset_fid (d : DStats) : string :=
  pjoin (dataset_cache_dir d) "text_dset".
Definition vocab_counts_df_fid (d : DStats) : string :=
  pjoin (dataset_cache_dir d) "vocab_counts.feather".

Definition set_text_dset (v : option (list string)) (w : World) : World :=
  let d := dstats w in
  mkWorld (mkDStats (dataset_cache_dir d) (use_cache d) (save d) v
             (tokenized_df d) (vocab_counts_df d) (vocab_counts_filtered_df d)
             (min_vocab_count d)) (disk w).
Definition set_tokenized_df (v : option (list tok_row)) (w : World) : World :=
  let d := dstats w in
  mkWorld (mkDStats (dataset_cache_dir d) (use_cache d) (save d) (text_dset d)
             v (vocab_counts_df d) (vocab_counts_filtered_df d)
             (min_vocab_count d)) (disk w).
Definition set_vocab_counts_df (v : option DataFrame) (w : World) : World :=
  let d := dstats w in
  mkWorld (mkDStats (dataset_cache_dir d) (use_cache d) (save d) (text_dset d)
             (tokenized_df d) v (vocab_counts_filtered_df d)
             (min_vocab_count d)) (disk w).
Definition set_vocab_counts_filtered_df (v : option DataFrame) (w : World) : World :=
  let d := dstats w in
  mkWorld (mkDStats (dataset_cache_dir d) (use_cache d) (save d) (text_dset d)
             (tokenized_df d) (vocab_counts_df d) v
             (min_vocab_count d)) (disk w).
Definition write_file (fid : string) (f : file) (w : World) : World :=
  mkWorld (dstats w) (<[fid := f]> (disk w)).

(** [os.path.exists] *)
Definition exists_ (d : gmap string file) (fid : string) : bool :=
  match d !! fid with Some _ => true | None => false end.

(** [open(fid)] for reading. *)
Definition open_ (d : gmap string file) (fid : string) : res file :=
  match d !! fid with Some f => Ok f | None => Err FileNotFoundError end.

(** Modelled from the spec: [ds_utils.read_df] and [ds_utils.write_df]
    ([utils/dataset_utils.py] is not among the sources); a persisted table
    is loaded as it was stored. *)
Definition read_df (f : file) : res DataFrame :=
  match f with FFeather df => Ok df | _ => Err ValueError end.
Definition write_df (df : DataFrame) : file := FFeather df.

(** [prepare_text_dset]: its first statement calls
    [self.get_base_dataset()], a method that the class does not define. *)
Definition prepare_text_dset : M World unit := raise AttributeError.

(** [load_or_prepare_text_dset] *)
Definition load_or_prepare_text_dset (load_only : bool) : M World unit :=
  fun w =>
    let d := dstats w in
    if use_cache d && exists_ (disk w) (text_dset_fid d) then
      match disk w !! text_dset_fid d with
      | Some (FTextDset texts) => (Ok tt, set_text_dset (Some texts) w)
      | _ => (Err ValueError, w)
      end
    else if negb load_only then
      (prepare_text_dset ;;;
       sv <- gets (fun w => save (dstats w)) ;;
       when sv (fun w =>
         match text_dset (dstats w) with
         | Some texts => (Ok tt, write_file (text_dset_fid d) (FTextDset texts) w)
         | None => (Err AttributeError, w)
         end))%M w
    else (Ok tt, w).

(** [do_tokenization] *)
Definition do_tokenization : M World (list tok_row) :=
  (td <- gets (fun w => text_dset (dstats w)) ;;
   when (match td with None => true | Some _ => false end)
        (load_or_prepare_text_dset false) ;;;
   td <- gets (fun w => text_dset (dstats w)) ;;
   match td with
   | None => raise AttributeError
   | Some texts => ret (tokenize_batch texts)
   end)%M.

(** [load_or_prepare_tokenized_df] *)
Definition load_or_prepare_tokenized_df (load_only : bool) : M World unit :=
  fun w =>
    let d := dstats w in
    if use_cache d && exists_ (disk w) (tokenized_df_fid d) then
      match disk w !! tokenized_df_fid d with
      | Some (FTokenized t) => (Ok tt, set_tokenized_df (Some t) w)
      | _ => (Err ValueError, w)
      end
    else if negb load_only then
      (t <- do_tokenization ;;
       modify (set_tokenized_df (Some t)) ;;;
       sv <- gets (fun w => save (dstats w)) ;;
       when sv (modify (write_file (tokenized_df_fid d) (FTokenized t))))%M w
    else (Ok tt, w).

(** [_set_idx_col_names] *)
Definition _set_idx_col_names (input_vocab_df : DataFrame) : res DataFrame :=
  if negb (bool_decide (index_name input_vocab_df = Some VOCAB))
     && str_in VOCAB (columns input_vocab_df)
  then
    (input_vocab_df <- set_index input_vocab_df VOCAB ;;
     assign_values input_vocab_df VOCAB (df_index input_vocab_df))%res
  else Ok input_vocab_df.

(** [load_vocab] *)
Definition load_vocab : M World unit :=
  fun w =>
    match (f <- open_ (disk w) (vocab_counts_df_fid (dstats w)) ;;
           df <- read_df f ;;
           _set_idx_col_names df)%res with
    | Ok df => (Ok tt, set_vocab_counts_df (Some df) w)
    | Err e => (Err e, w)
    end.

(** [load_or_prepare_vocab] *)
Definition load_or_prepare_vocab (load_only : bool) : M World unit :=
  fun w =>
    let d := dstats w in
    if use_cache d && exists_ (disk w) (vocab_counts_df_fid d) then
      (load_vocab ;;;
       v <- gets (fun w => vocab_counts_df (dstats w)) ;;
       match v with
       | None => raise AttributeError
       | Some v =>
           f <- lift (filter_vocab v) ;;
           modify (set_vocab_counts_filtered_df (Some f))
       end)%M w
    else if negb load_only then
      (load_or_prepare_tokenized_df false ;;;
       t <- gets (fun w => tokenized_df (dstats w)) ;;
       match t with
       | None => raise TypeError
       | Some t =>
           word_count_df <- lift (count_vocab_frequencies t) ;;
           v <- lift (calc_p_word word_count_df) ;;
           modify (set_vocab_counts_df (Some v)) ;;;
           f <- lift (filter_vocab v) ;;
           modify (set_vocab_counts_filtered_df (Some f)) ;;;
           sv <- gets (fun w => save (dstats w)) ;;
           when sv (modify (write_file (vocab_counts_df_fid d) (write_df v)))
       end)%M w
    else (Ok tt, w).

(** ** The nPMI cache object *)

(** [fmt % arg] for one string argument: the format needs exactly one
    [%s]; an argument that no conversion consumes is a [TypeError]. *)
Fixpoint py_percent_from (fmt : string) (arg : option string) : res string :=
  match fmt with
  | EmptyString =>
      match arg with
      | None => Ok EmptyString
      | Some _ => Err TypeError
      end
  | String c rest =>
      if Ascii.eqb c "%" then
        match rest with
        | String c' rest' =>
            if Ascii.eqb c' "s" then
              match arg with
              | Some a => (r <- py_percent_from rest' None ;; Ok (a +:+ r))%res
              | None => Err TypeError
              end
            else Err ValueError
        | EmptyString => Err ValueError
        end
      else (r <- py_percent_from rest arg ;; Ok (String c r))%res
  end.

Definition py_percent (fmt arg : string) : res string :=
  py_percent_from fmt (Some arg).

Record NpmiStats : Type := mkNpmi {
  n_world : World;
  pmi_dataset_cache_dir : string;
  termlist : list string;
  available_terms : list string;
  n_use_cache : bool;
  n_load_only : bool;
  n_min_vocab_count : Z;
  npmi_terms_fid : string
}.

(** [nPMIStatisticsCacheClass.__init__] *)
Definition nPMIStatisticsCacheClass (dataset_stats : World)
    (load_only use_cache : bool) : NpmiStats :=
  mkNpmi dataset_stats
    (pjoin (dataset_cache_dir (dstats dataset_stats)) "pmi_files")
    _IDENTITY_TERMS _IDENTITY_TERMS use_cache load_only
    (min_vocab_count (dstats dataset_stats))
    (pjoin (dataset_cache_dir (dstats dataset_stats)) "npmi_terms.json").

Definition set_available_terms (ts : list string) (st : NpmiStats) : NpmiStats :=
  mkNpmi (n_world st) (pmi_dataset_cache_dir st) (termlist st) ts
    (n_use_cache st) (n_load_only st) (n_min_vocab_count st) (npmi_terms_fid st).
Definition n_write_file (fid : string) (f : file) (st : NpmiStats) : NpmiStats :=
  mkNpmi (write_file fid f (n_world st)) (pmi_dataset_cache_dir st) (termlist st)
    (available_terms st) (n_use_cache st) (n_load_only st)
    (n_min_vocab_count st) (npmi_terms_fid st).
Definition n_disk (st : NpmiStats) : gmap string file := disk (n_world st).

Fixpoint assoc {A} (k : string) (l : list (string * A)) : option A :=
  match l with
  | [] => None
  | (k', v) :: l' => if String.eqb k' k then Some v else assoc k l'
  end.

(** [json.load(open(fid))["available terms"]] *)
Definition json_available_terms (d : gmap string file) (fid : string) : res (list string) :=
  (f <- open_ d fid ;;
   match f with
   | FJson obj =>
       match assoc "available terms" obj with
       | Some l => Ok l
       | None => Err KeyError
       end
   | _ => Err ValueError
   end)%res.

(** [label in df.index] *)
Definition in_index (df : DataFrame) (label : cell) : bool :=
  existsb (cell_eqb label) (df_index df).

(** [df.loc[label, c]]: the cells of column [c] in the rows labelled
    [label]; one cell is a scalar, several are a series. *)
Definition loc (df : DataFrame) (label : cell) (c : string) : res (list cell) :=
  match find_col (columns df) c with
  | None => Err KeyError
  | Some j =>
      match List.filter (fun r => cell_eqb (fst r) label) (rows df) with
      | [] => Err KeyError
      | rs => Ok (map (fun r => cell_at j (snd r)) rs)
      end
  end.

(** [c >= m] for an integer [m]. *)
Definition cell_ge (c : cell) (m : Z) : res bool :=
  match c with
  | CInt z => Ok (m <=? z)%Z
  | CFlt (Fin q) => Ok (Qleb (inject_Z m) q)
  | CFlt (Inf neg) => Ok (negb neg)
  | CFlt NaN => Ok false
  | CStr _ => Err TypeError
  end.

(** The truth value of a comparison result in [if y]: that of a scalar,
    ambiguous for a series. *)
Definition truth (y : list bool) : res bool :=
  match y with
  | [b] => Ok b
  | _ => Err ValueError
  end.

Fixpoint keep_where {A} (l : list A) (ys : list bool) : list A :=
  match l, ys with
  | x :: l', y :: ys' => if y then x :: keep_where l' ys' else keep_where l' ys'
  | _, _ => []
  end.

(** The scan of the vocabulary in [load_or_prepare_npmi_terms]: its four
    list comprehensions. *)
Definition scan_available_terms (vocab : option DataFrame)
    (terms : list string) (minimum : Z) : res (list string) :=
  (true_false <- mapM (fun term =>
       match vocab with
       | None => Err AttributeError
       | Some v => Ok (in_index v (CStr term))
       end) terms ;;
   let word_list_tmp := keep_where terms true_false in
   true_false_counts <- mapM (fun word =>
       match vocab with
       | None => Err AttributeError
       | Some v =>
           vs <- loc v (CStr word) CNT ;;
           mapM (fun c => cell_ge c minimum) vs
       end) word_list_tmp ;;
   ys <- mapM truth true_false_counts ;;
   Ok (keep_where word_list_tmp ys))%res.

(** [load_or_prepare_npmi_terms] after its first statement. *)
Definition load_or_prepare_npmi_terms_body : M NpmiStats (list string) :=
  fun st =>
    let fid := npmi_terms_fid st in
    let finish := fun (ts : list string) (st : NpmiStats) =>
                    (Ok ts, set_available_terms ts st) in
    let otherwise := fun st : NpmiStats =>
      if negb (n_load_only st) then
        match scan_available_terms (vocab_counts_df (dstats (n_world st)))
                (termlist st) (n_min_vocab_count st) with
        | Err e => (Err e, st)
        | Ok ts =>
            finish ts (n_write_file fid (FJson [("available terms", ts)]) st)
        end
      else (Err UnboundLocalError, st) in
    if n_use_cache st && exists_ (n_disk st) fid then
      match json_available_terms (n_disk st) fid with
      | Err e => (Err e, st)
      | Ok [] => otherwise st
      | Ok ts => finish ts st
      end
    else otherwise st.

(** [load_or_prepare_npmi_terms]: the method opens with
    [logs.info("Looking for cached terms in " % self.npmi_terms_fid)]. *)
Definition load_or_prepare_npmi_terms : M NpmiStats (list string) :=
  (msg <- (fun st => (py_percent "Looking for cached terms in " (npmi_terms_fid st), st)) ;;
   load_or_prepare_npmi_terms_body)%M.


(** ** Pair tables: loading, preparing, caching *)

Definition with_index_name (n : option string) (df : DataFrame) : DataFrame :=
  mkDF n (columns df) (rows df).

(** The truth value of an optional string argument: [None] and the empty
    string are false. *)
Definition truthy (s : option string) : bool :=
  match s with
  | Some s => negb (str_is_empty s)
  | None => false
  end.

Definition str_or_empty (s : option string) : string :=
  match s with Some s => s | None => EmptyString end.

(** [_set_idx_cols_from_cache] *)
Definition _set_idx_cols_from_cache (csv_df : DataFrame)
    (subgroup calc_str : option string) : res DataFrame :=
  (csv_df <-
     (if str_in "Unnamed: 0" (columns csv_df) then
        (d <- set_index csv_df "Unnamed: 0" ;; Ok (with_index_name (Some WORD) d))
      else if str_in WORD (columns csv_df) then
        (d <- set_index csv_df WORD ;; Ok (with_index_name (Some WORD) d))
      else if str_in VOCAB (columns csv_df) then
        (d <- set_index csv_df VOCAB ;; Ok (with_index_name (Some WORD) d))
      else Ok csv_df) ;;
   if truthy subgroup && truthy calc_str then
     set_columns csv_df [str_or_empty subgroup +:+ "-" +:+ str_or_empty calc_str]
   else if truthy subgroup then
     set_columns csv_df [str_or_empty subgroup]
   else if truthy calc_str then
     set_columns csv_df [str_or_empty calc_str]
   else Ok csv_df)%res.

(** [load_joint_npmi_df] *)
Definition load_joint_npmi_df (d : gmap string file) (joint_npmi_fid : string) : res DataFrame :=
  (f <- open_ d joint_npmi_fid ;;
   joint_npmi_df <- read_csv f ;;
   joint_npmi_df <- _set_idx_cols_from_cache joint_npmi_df None None ;;
   Ok (dropna joint_npmi_df))%res.

(** [define_subgroup_files]: for each term the files of its nPMI, PMI
    and co-occurrence tables, in that order. *)
Definition define_subgroup_files (subgroup_list : list string)
    (pmi_dataset_cache_dir : string) : gmap string (string * string * string) :=
  fold_left
    (fun subgroup_files subgroup =>
       <[subgroup := (pjoin pmi_dataset_cache_dir (subgroup +:+ "_npmi.csv"),
                      pjoin pmi_dataset_cache_dir (subgroup +:+ "_pmi.csv"),
                      pjoin pmi_dataset_cache_dir (subgroup +:+ "_vocab_cooc.csv"))]>
         subgroup_files)
    subgroup_list ∅.

(** [load_or_fail_cached_npmi_scores]: [None] stands for the [False] it
    returns when one of the three files is missing. *)
Definition load_or_fail_cached_npmi_scores (d : gmap string file)
    (subgroup : string) (subgroup_fids : string * string * string)
    : res (option (DataFrame * DataFrame * DataFrame)) :=
  let '(subgroup_npmi_fid, subgroup_pmi_fid, subgroup_cooc_fid) := subgroup_fids in
  if exists_ d subgroup_npmi_fid && exists_ d subgroup_pmi_fid
     && exists_ d subgroup_cooc_fid
  then
    (f <- open_ d subgroup_cooc_fid ;;
     subgroup_cooc_df <- read_csv f ;;
     f <- open_ d subgroup_pmi_fid ;;
     subgroup_pmi_df <- read_csv f ;;
     f <- open_ d subgroup_npmi_fid ;;
     subgroup_npmi_df <- read_csv f ;;
     subgroup_cooc_df <- _set_idx_cols_from_cache subgroup_cooc_df (Some subgroup) (Some "count") ;;
     subgroup_pmi_df <- _set_idx_cols_from_cache subgroup_pmi_df (Some subgroup) (Some "pmi") ;;
     subgroup_npmi_df <- _set_idx_cols_from_cache subgroup_npmi_df (Some subgroup) (Some "npmi") ;;
     Ok (Some (subgroup_cooc_df, subgroup_pmi_df, subgroup_npmi_df)))%res
  else Ok None.

(** [nPMI.calc_metrics] belongs to [data_measurements/npmi/npmi.py], which
    is not among the sources.  Its three tables for a term
    (co-occurrence counts, PMI, nPMI), each a mapping from vocabulary word
    to value as in the spec's data model, are a parameter of the
    development; the arguments are the vocabulary and the tokenized
    corpus the nPMI object is built from. *)
Variable calc_metrics_tables :
  option DataFrame -> option (list tok_row) -> string ->
  res (list (string * Z) * list (string * pyfloat) * list (string * pyfloat)).

(** Modelled from the spec: the frame of one table of [calc_metrics]
    ([npmi.py] is not among the sources), indexed by word, with a single
    column named after the term and the measure, which is the name under
    which [make_npmi_fig] and the cache loader look it up. *)
Definition metric_frame (subgroup calc_str : string) (t : list (string * cell)) : DataFrame :=
  mkDF (Some WORD) [subgroup +:+ "-" +:+ calc_str]
    (map (fun wv => (CStr (fst wv), [snd wv])) t).

Definition calc_metrics (npmi_obj : option DataFrame * option (list tok_row))
    (subgroup : string) : res (DataFrame * DataFrame * DataFrame) :=
  (t <- calc_metrics_tables (fst npmi_obj) (snd npmi_obj) subgroup ;;
   let '(cooc, pmi, npmi) := t in
   Ok (metric_frame subgroup "count" (map (fun wv => (fst wv, CInt (snd wv))) cooc),
       metric_frame subgroup "pmi" (map (fun wv => (fst wv, CFlt (snd wv))) pmi),
       metric_frame subgroup "npmi" (map (fun wv => (fst wv, CFlt (snd wv))) npmi)))%res.

(** The dictionary [calc_paired_metrics] returns. *)
Record PairedResults : Type := mkPaired {
  npmi_bias : option Series;
  pr_npmi : DataFrame;
  pr_count : DataFrame
}.

(** [a.join(b, how="inner")]: the rows of [a] whose label [b] has too. *)
Definition inner_join (a b : DataFrame) : DataFrame :=
  mkDF (index_name a) (columns a ++ columns b)
    (flat_map (fun r =>
                 match List.find (fun rb => cell_eqb (fst rb) (fst r)) (rows b) with
                 | Some rb => [(fst r, snd r ++ snd rb)]
                 | None => []
                 end) (rows a)).

Fixpoint zip_sub (a b : list (cell * cell)) : res (list (cell * cell)) :=
  match a, b with
  | (l, x) :: a', (_, y) :: b' =>
      (x' <- num_of_cell x ;; y' <- num_of_cell y ;;
       rest <- zip_sub a' b' ;; Ok ((l, CFlt (fsub x' y')) :: rest))%res
  | _, _ => Ok []
  end.

(** [a - b] for two columns of one frame. *)
Definition series_sub (a b : Series) : res Series :=
  (its <- zip_sub (items a) (items b) ;; Ok (mkSeries (s_index_name a) its))%res.

Definition dict_get {A} (d : gmap string A) (k : string) : res A :=
  match d !! k with Some v => Ok v | None => Err KeyError end.

(** Modelled from the spec: [nPMI.calc_paired_metrics] ([npmi.py] is not
    among the sources).  The pair is put in sorted order, the two terms'
    nPMI tables and their count tables are joined on the words they share
    (inner join), and the bias of a word is the nPMI of the first term
    minus that of the second. *)
Definition calc_paired_metrics (subgroup_pair : list string)
    (subgroup_dict : gmap string (DataFrame * DataFrame * DataFrame)) : res PairedResults :=
  match sorted subgroup_pair with
  | [subgroup1; subgroup2] =>
      (t1 <- dict_get subgroup_dict subgroup1 ;;
       t2 <- dict_get subgroup_dict subgroup2 ;;
       let '(vocab_cooc_df1, _, npmi_df1) := t1 in
       let '(vocab_cooc_df2, _, npmi_df2) := t2 in
       let shared_npmi_df := inner_join npmi_df1 npmi_df2 in
       let shared_vocab_cooc_df := inner_join vocab_cooc_df1 vocab_cooc_df2 in
       a <- col shared_npmi_df (subgroup1 +:+ "-npmi") ;;
       b <- col shared_npmi_df (subgroup2 +:+ "-npmi") ;;
       bias <- series_sub a b ;;
       Ok (mkPaired (Some bias) shared_npmi_df shared_vocab_cooc_df))%res
  | _ => Err ValueError
  end.

(** [make_npmi_fig] *)
Definition make_npmi_fig (paired_results : PairedResults)
    (subgroup_pair : list string) : res DataFrame :=
  match subgroup_pair with
  | [subgroup1; subgroup2] =>
      (let UI_results := empty_frame in
       UI_results <-
         match npmi_bias paired_results with
         | Some b => (s <- astype_float b ;; assign UI_results "npmi-bias" s)
         | None => Ok UI_results
         end ;;
       c <- col (pr_npmi paired_results) (subgroup1 +:+ "-npmi") ;;
       s <- astype_float c ;;
       UI_results <- assign UI_results (subgroup1 +:+ "-npmi") s ;;
       c <- col (pr_count paired_results) (subgroup1 +:+ "-count") ;;
       s <- astype_int c ;;
       UI_results <- assign UI_results (subgroup1 +:+ "-count") s ;;
       UI_results <-
         (if negb (String.eqb subgroup1 subgroup2) then
            c <- col (pr_npmi paired_results) (subgroup2 +:+ "-npmi") ;;
            s <- astype_float c ;;
            UI_results <- assign UI_results (subgroup2 +:+ "-npmi") s ;;
            c <- col (pr_count paired_results) (subgroup2 +:+ "-count") ;;
            s <- astype_int c ;;
            assign UI_results (subgroup2 +:+ "-count") s
          else Ok UI_results) ;;
       sort_values UI_results "npmi-bias" true)%res
  | _ => Err ValueError
  end.

Fixpoint foldM {A B} (f : B -> A -> res B) (l : list A) (b : B) : res B :=
  match l with
  | [] => Ok b
  | x :: l' => (b' <- f b x ;; foldM f l' b')%res
  end.

(** [set_npmi_obj]: the nPMI object is built from the vocabulary and the
    tokenized corpus of the statistics object. *)
Definition set_npmi_obj (st : NpmiStats) : option DataFrame * option (list tok_row) :=
  (vocab_counts_df (dstats (n_world st)), tokenized_df (dstats (n_world st))).

(** [do_npmi] *)
Definition do_npmi (st : NpmiStats) (subgroup_pair : list string)
    (subgroup_dict : gmap string (DataFrame * DataFrame * DataFrame))
    : res (DataFrame * gmap string (DataFrame * DataFrame * DataFrame)) :=
  let npmi_obj := set_npmi_obj st in
  let subgroup_pair := sorted subgroup_pair in
  (subgroup_dict <-
     foldM (fun subgroup_dict subgroup =>
              match subgroup_dict !! subgroup with
              | Some _ => Ok subgroup_dict
              | None =>
                  msg <- py_percent "Calculating npmi statistics for %s" subgroup ;;
                  t <- calc_metrics npmi_obj subgroup ;;
                  Ok (<[subgroup := t]> subgroup_dict)
              end) subgroup_pair subgroup_dict ;;
   paired_results <- calc_paired_metrics subgroup_pair subgroup_dict ;;
   UI_results <- make_npmi_fig paired_results subgroup_pair ;;
   Ok (UI_results, subgroup_dict))%res.

(** [prepare_joint_npmi_df] *)
Definition prepare_joint_npmi_df (st : NpmiStats) (subgroup_pair : list string)
    (subgroup_files : gmap string (string * string * string))
    : res (DataFrame * gmap string (DataFrame * DataFrame * DataFrame)) :=
  (subgroup_dict <-
     foldM (fun subgroup_dict subgroup =>
              fids <- dict_get subgroup_files subgroup ;;
              cached_results <- load_or_fail_cached_npmi_scores (n_disk st) subgroup fids ;;
              match cached_results with
              | Some t => Ok (<[subgroup := t]> subgroup_dict)
              | None => Ok subgroup_dict
              end) subgroup_pair ∅ ;;
   r <- do_npmi st subgroup_pair subgroup_dict ;;
   Ok (dropna (fst r), snd r))%res.

(** [write_subgroup_npmi_data] *)
Definition write_subgroup_npmi_data (subgroup : string)
    (subgroup_dict : gmap string (DataFrame * DataFrame * DataFrame))
    (subgroup_files : gmap string (string * string * string)) : M NpmiStats unit :=
  (subgroup_fids <- lift (dict_get subgroup_files subgroup) ;;
   let '(subgroup_npmi_fid, subgroup_pmi_fid, subgroup_cooc_fid) := subgroup_fids in
   subgroup_dfs <- lift (dict_get subgroup_dict subgroup) ;;
   let '(subgroup_cooc_df, subgroup_pmi_df, subgroup_npmi_df) := subgroup_dfs in
   modify (n_write_file subgroup_npmi_fid (to_csv subgroup_npmi_df)) ;;;
   modify (n_write_file subgroup_pmi_fid (to_csv subgroup_pmi_df)) ;;;
   modify (n_write_file subgroup_cooc_fid (to_csv subgroup_cooc_df)))%M.

(** [l[i]] *)
Definition py_index (l : list string) (i : nat) : res string :=
  match nth_error l i with Some x => Ok x | None => Err IndexError end.

(** [load_or_prepare_joint_npmi] *)
Definition load_or_prepare_joint_npmi (subgroup_pair : list string) : M NpmiStats DataFrame :=
  let subgroup_pair := sorted subgroup_pair in
  (subgroup1 <- lift (py_index subgroup_pair 0) ;;
   subgroup2 <- lift (py_index subgroup_pair 1) ;;
   let subgroups_str := String.concat "-" subgroup_pair in
   dir <- gets pmi_dataset_cache_dir ;;
   let joint_npmi_fid := pjoin dir (subgroups_str +:+ "_npmi.csv") in
   let subgroup_files := define_subgroup_files subgroup_pair dir in
   cached <- gets (fun st => n_use_cache st && exists_ (n_disk st) joint_npmi_fid) ;;
   if (cached : bool) then
     joint_npmi_df <- (fun st => (load_joint_npmi_df (n_disk st) joint_npmi_fid, st)) ;;
     let npmi_display_cols :=
       [ "npmi-bias"; subgroup1 +:+ "-npmi"; subgroup2 +:+ "-npmi";
         subgroup1 +:+ "-count"; subgroup2 +:+ "-count" ] in
     lift (select joint_npmi_df npmi_display_cols)
   else
     r <- (fun st => (prepare_joint_npmi_df st subgroup_pair subgroup_files, st)) ;;
     let '(joint_npmi_df, subgroup_dict) := r in
     for_each subgroup_pair
       (fun subgroup => write_subgroup_npmi_data subgroup subgroup_dict subgroup_files) ;;;
     modify (n_write_file joint_npmi_fid (to_csv joint_npmi_df)) ;;;
     ret joint_npmi_df)%M.

End Statistics.

(** ** Statements of the specification and example inputs *)

(** The type of the parameter that stands for [nPMI.calc_metrics]. *)
Definition metrics_engine : Type :=
  option DataFrame -> option (list tok_row) -> string ->
  res (list (string * Z) * list (string * pyfloat) * list (string * pyfloat)).

(** The cell of a table at a row label and a column name. *)
Definition cell_of (df : DataFrame) (label : cell) (c : string) : option cell :=
  match find_col (columns df) c,
        List.find (fun r => cell_eqb (fst r) label) (rows df) with
  | Some j, Some r => Some (cell_at j (snd r))
  | _, _ => None
  end.

(** The pair-symmetry property as the specification words it: the tables
    for (A,B) and (B,A) have the same words, and the bias of a word in one
    is the negation of its bias in the other. *)
Definition pair_symmetry (t_ab t_ba : DataFrame) : Prop :=
  df_index t_ab = df_index t_ba /\
  forall w x y,
    cell_of t_ab w "npmi-bias" = Some (CFlt x) ->
    cell_of t_ba w "npmi-bias" = Some (CFlt y) ->
    feq x (fneg y).

(** The rejection of unavailable terms as the specification words it. *)
Definition rejects_unavailable
    (run : list string -> M NpmiStats DataFrame)
    (st : NpmiStats) (subgroup_pair : list string) : Prop :=
  (exists t, In t subgroup_pair /\ ~ In t (available_terms st)) ->
  raises (fst (run subgroup_pair st)).

(** Tables of an example corpus for the identity terms he and she and for
    the word nurse, standing for the results of [calc_metrics]. *)
Definition example_tables : metrics_engine := fun _ _ term =>
  if String.eqb term "he" then
    Ok ([("ran", 3%Z); ("sat", 1%Z)],
        [("ran", Fin (1 # 2)); ("sat", Fin (1 # 3))],
        [("ran", Fin (1 # 2)); ("sat", Fin (1 # 4))])
  else if String.eqb term "she" then
    Ok ([("ran", 2%Z); ("sat", 5%Z)],
        [("ran", Fin (1 # 5)); ("sat", Fin (1 # 3))],
        [("ran", Fin (1 # 4)); ("sat", Fin (3 # 4))])
  else if String.eqb term "nurse" then
    Ok ([("ran", 1%Z)], [("ran", Fin (1 # 6))], [("ran", Fin (1 # 8))])
  else Err KeyError.

Definition example_dstats : DStats :=
  mkDStats "cache" true true None None None None MIN_VOCAB_COUNT.

Definition example_world : World := mkWorld example_dstats ∅.

(** A fresh nPMI object over an empty cache directory, with caching on. *)
Definition example_npmi : NpmiStats :=
  nPMIStatisticsCacheClass example_world false true.

(** A computation that neither reads nor writes [available_terms]:
    replacing the list by [ts] beforehand changes nothing else. *)
Definition ignores_terms (ts : list string) {A} (m : M NpmiStats A) : Prop :=
  forall st, m (set_available_terms ts st)
             = (fst (m st), set_available_terms ts (snd (m st))).

(** An nPMI object asked to load only, over an empty cache directory. *)
Definition load_only_npmi : NpmiStats :=
  nPMIStatisticsCacheClass example_world true true.

(** The number of occurrences of a word in the whole corpus. *)
Definition token_total (docs : list (list string)) (w : string) : Z :=
  count_token w (concat docs).

(** Batch bounds that never step back. *)
Fixpoint nondecreasing (l : list nat) : Prop :=
  match l with
  | a :: ((b :: _) as t) => a <= b /\ nondecreasing t
  | _ => True
  end.

(** The sum of the counts of a word-count table. *)
Definition total_count (l : list (string * Z)) : Z :=
  fold_right Z.add 0%Z (map snd l).

(** The vocabulary table [calc_p_word] builds: indexed by word, with the
    count, the proportion and the word again. *)
Definition vocab_counts_frame (l : list (string * Z * pyfloat)) : DataFrame :=
  mkDF (Some WORD) [CNT; PROP; VOCAB]
    (map (fun x => (CStr (fst (fst x)),
                    [CInt (snd (fst x)); CFlt (snd x); CStr (fst (fst x))])) l).

(** Each count divided by the total, as floats divide. *)
Definition with_proportions (total : Z) (l : list (string * Z)) : list (string * Z * pyfloat) :=
  map (fun wc => (fst wc, snd wc, fdiv (float_of_Z (snd wc)) (float_of_Z total))) l.

(** Rows by decreasing count. *)
Definition by_count_desc (l : list (string * Z * pyfloat)) : list (string * Z * pyfloat) :=
  sort_by (fun a b => (snd (fst b) <=? snd (fst a))%Z) l.

(** [calc_p_word] failing on a table, as the specification has it for a
    total count of zero. *)
Definition rejects_zero_total (l : list (string * Z)) : Prop :=
  total_count l = 0%Z -> raises (calc_p_word (word_count_frame l)).

(** The word and count of each vocabulary row. *)
Definition counts_of (l : list (string * Z * pyfloat)) : list (string * Z) :=
  map fst l.

(** The rows that [filter_vocab] keeps. *)
Definition open_class (closed : list string) (l : list (string * Z * pyfloat))
    : list (string * Z * pyfloat) :=
  List.filter (fun x => negb (str_in (fst (fst x)) closed)) l.



(** A float that is not a number: NaN or an infinity. *)
Definition not_finite (x : pyfloat) : Prop :=
  match x with Fin _ => False | _ => True end.

(** A statistics object whose text has been extracted, over an empty
    cache directory. *)
Definition example_text_world : World :=
  set_text_dset (Some ["The Cat sat"; "a cat"]) example_world.

(** The count of a word in a vocabulary, if the word is there. *)
Fixpoint count_in (V : list (string * Z * pyfloat)) (w : string) : option Z :=
  match V with
  | [] => None
  | x :: V' => if String.eqb (fst (fst x)) w then Some (snd (fst x)) else count_in V' w
  end.

(** The terms the specification calls available: those of the list that
    are in the vocabulary with a count of at least the minimum. *)
Definition available (V : list (string * Z * pyfloat)) (terms : list string)
    (minimum : Z) : list string :=
  List.filter (fun t => match count_in V t with
                        | Some c => (minimum <=? c)%Z
                        | None => false
                        end) terms.

(** The same nPMI object over another content of the cache directory. *)
Definition n_set_disk (d : gmap string file) (st : NpmiStats) : NpmiStats :=
  mkNpmi (mkWorld (dstats (n_world st)) d) (pmi_dataset_cache_dir st) (termlist st)
    (available_terms st) (n_use_cache st) (n_load_only st)
    (n_min_vocab_count st) (npmi_terms_fid st).

(** The three files of a term, as [define_subgroup_files] names them. *)
Definition subgroup_fids (dir subgroup : string) : string * string * string :=
  (pjoin dir (subgroup +:+ "_npmi.csv"),
   pjoin dir (subgroup +:+ "_pmi.csv"),
   pjoin dir (subgroup +:+ "_vocab_cooc.csv")).


(** A term is not cached: one of its three files is missing. *)
Definition not_cached (d : gmap string file) (dir subgroup : string) : Prop :=
  let '(npmi_fid, pmi_fid, cooc_fid) := subgroup_fids dir subgroup in
  exists_ d npmi_fid && exists_ d pmi_fid && exists_ d cooc_fid = false.

(** The last character of a string, [d] for the empty string. *)
Fixpoint str_last (s : string) (d : ascii) : ascii :=
  match s with
  | EmptyString => d
  | String c s' => str_last s' c
  end.

(** The tables of the term he in the example corpus, as frames. *)
Definition he_tables : DataFrame * DataFrame * DataFrame :=
  (metric_frame "he" "count" [("ran", CInt 3); ("sat", CInt 1)],
   metric_frame "he" "pmi" [("ran", CFlt (Fin (1 # 2))); ("sat", CFlt (Fin (1 # 3)))],
   metric_frame "he" "npmi" [("ran", CFlt (Fin (1 # 2))); ("sat", CFlt (Fin (1 # 4)))]).

(** A cache directory that holds the three tables of he and nothing else. *)
Definition he_cached_disk : gmap string file :=
  <["cache/pmi_files/he_vocab_cooc.csv" := to_csv (fst (fst he_tables))]>
    (<["cache/pmi_files/he_pmi.csv" := to_csv (snd (fst he_tables))]>
       (<["cache/pmi_files/he_npmi.csv" := to_csv (snd he_tables)]> ∅)).


(** The columns after [df[c] = ...]. *)
Definition add_col (cs : list string) (c : string) : list string :=
  match find_col cs c with
  | Some _ => cs
  | None => cs ++ [c]
  end.


(** The columns of a pair table. *)
Definition npmi_display_cols (subgroup1 subgroup2 : string) : list string :=
  [ "npmi-bias"; subgroup1 +:+ "-npmi"; subgroup2 +:+ "-npmi";
    subgroup1 +:+ "-count"; subgroup2 +:+ "-count" ].




(** The file of the pair table. *)
Definition joint_npmi_fid (st : NpmiStats) (subgroup_pair : list string) : string :=
  pjoin (pmi_dataset_cache_dir st)
    (String.concat "-" (sorted subgroup_pair) +:+ "_npmi.csv").

(** ** Further statements: tokens, order, cache files *)

(** A string made of word characters only. *)
Fixpoint word_chars (s : string) : bool :=
  match s with
  | EmptyString => true
  | String c s' => is_word_char c && word_chars s'
  end.

(** What the token pattern matches: a non-empty run of word characters. *)
Definition is_token (s : string) : bool :=
  negb (str_is_empty s) && word_chars s.

(** A list in which every element is followed by one that is not before
    it in the order [le]. *)
Fixpoint ordered {A} (le : A -> A -> bool) (l : list A) : Prop :=
  match l with
  | a :: ((b :: _) as t) => le a b = true /\ ordered le t
  | _ => True
  end.

(** The three files of a term, as a list. *)
Definition fids_list (fids : string * string * string) : list string :=
  let '(npmi_fid, pmi_fid, cooc_fid) := fids in [npmi_fid; pmi_fid; cooc_fid].




(** Whether the three files of a term are all there. *)
Definition tables_present (d : gmap string file) (dir subgroup : string) : bool :=
  let '(npmi_fid, pmi_fid, cooc_fid) := subgroup_fids dir subgroup in
  exists_ d npmi_fid && exists_ d pmi_fid && exists_ d cooc_fid.

(** An engine that has no tables for the term he, and those of the
    example for the other terms. *)
Definition example_tables_without_he : metrics_engine := fun v t term =>
  if String.eqb term "he" then Err KeyError else example_tables v t term.

(** The order of two cells of a column sorted in ascending order: numbers
    by value, strings by code point, missing values after the others. *)
Definition cell_leb (a b : cell) : bool :=
  key_leb true (key_of_cell a) (key_of_cell b).

(** A table in which every row has one cell for each column. *)
Definition rectangular (df : DataFrame) : Prop :=
  forall r, In r (rows df) -> length (snd r) = length (columns df).

(** A table without gaps: it is rectangular and none of its cells is a
    missing value. *)
Definition complete (df : DataFrame) : Prop :=
  forall r, In r (rows df) ->
    length (snd r) = length (columns df)
    /\ forall c, In c (snd r) -> isna c = false.

(** A CSV file whose lines all have as many fields as the header. *)
Definition well_formed_csv (f : file) : Prop :=
  match f with
  | FCsv header lines => Forall (fun l => length l = length header) lines
  | _ => True
  end.

(** The filtered vocabulary of a statistics object is its vocabulary
    filtered. *)
Definition vocab_consistent (stopwords : list string) (d : DStats) : Prop :=
  forall v, vocab_counts_df d = Some v ->
    exists f, vocab_counts_filtered_df d = Some f /\ filter_vocab stopwords v = Ok f.


(** ** Text lengths and general statistics *)

(** [df[LENGTH_FIELD] = df[TOKENIZED_FIELD].apply(len)] *)
Definition set_lengths (t : list tok_row) : list tok_row :=
  map (fun r => mkTok (our_text_field r) (tokenized_field r)
                  (length (tokenized_field r))) t.

(** A row of the table of text lengths: the label the row has in the
    tokenized table (its position), the length, the text. *)
Definition length_row : Type := nat * nat * string.

Definition row_label (x : length_row) : nat := fst (fst x).
Definition row_length (x : length_row) : nat := snd (fst x).
Definition row_text (x : length_row) : string := snd x.

(** [df[[LENGTH_FIELD, OUR_TEXT_FIELD]]] of a tokenized table. *)
Definition length_columns (t : list tok_row) : list length_row :=
  map (fun ir => (fst ir, length_field (snd ir), our_text_field (snd ir)))
      (combine (seq 0 (length t)) t).

(** [prepare_length_df]: the length column is set in the tokenized table
    of the object, and the table of lengths, which the method keeps in
    [self.length_df], is the value returned here.  Without a tokenized
    table, subscripting [None] is a [TypeError]. *)
Definition prepare_length_df : M World (list length_row) :=
  (t <- gets (fun w => tokenized_df (dstats w)) ;;
   match t with
   | None => raise TypeError
   | Some t =>
       modify (set_tokenized_df (Some (set_lengths t))) ;;;
       t <- gets (fun w => tokenized_df (dstats w)) ;;
       match t with
       | None => raise TypeError
       | Some t =>
           ret (sort_by (fun a b => row_length a <=? row_length b) (length_columns t))
       end
   end)%M.





Section GeneralStatistics.

Variable english_stopwords : list string.


End GeneralStatistics.

(** * Properties *)

(** ** Canonical ordering of a pair *)

Lemma sorted_two (a b : string) :
  sorted [a; b] = if String.leb a b then [a; b] else [b; a].
Proof. reflexivity. Qed.

Lemma sorted_swap (a b : string) : sorted [a; b] = sorted [b; a].
Proof.
  rewrite !sorted_two.
  destruct (String.leb a b) eqn:Hab, (String.leb b a) eqn:Hba; try reflexivity.
  - rewrite (String.leb_antisym _ _ Hab Hba). reflexivity.
  - destruct (String.leb_total a b); congruence.
Qed.

(** C1 (as the code has it): the pair is put in sorted order before
    anything else, so the call for (A,B) and the call for (B,A) are the
    same computation: same table, same words, and for every word the same
    bias, with the same sign; the cache directory ends in the same state
    too. *)
Theorem joint_npmi_pair_order_irrelevant
    (eng : metrics_engine)
    (st : NpmiStats) (A B : string) :
  load_or_prepare_joint_npmi eng [A; B] st
  = load_or_prepare_joint_npmi eng [B; A] st.
Proof.
  unfold load_or_prepare_joint_npmi. rewrite (sorted_swap A B). reflexivity.
Qed.

(** C1 as stated fails: with he and she both available, the tables for
    (he, she) and (she, he) are the same table, whose bias for the word
    ran is 1/4 in both, not 1/4 and -1/4. *)
Lemma pair_symmetry_fails :
  In "he" (available_terms example_npmi) /\
  In "she" (available_terms example_npmi) /\
  exists t_ab t_ba,
    fst (load_or_prepare_joint_npmi example_tables ["he"; "she"] example_npmi) = Ok t_ab /\
    fst (load_or_prepare_joint_npmi example_tables ["she"; "he"] example_npmi) = Ok t_ba /\
    ~ pair_symmetry t_ab t_ba.
Proof.
  split; [vm_compute; tauto|]. split; [vm_compute; tauto|].
  eexists. eexists. split; [vm_compute; reflexivity|].
  split; [vm_compute; reflexivity|].
  intros [_ H].
  specialize (H (CStr "ran") (Fin (2 # 8)) (Fin (2 # 8)) eq_refl eq_refl).
  vm_compute in H. discriminate H.
Qed.

(** ** No availability check in the pair operation *)

Section AvailableTerms.

Variable ts : list string.

Lemma ignores_bind {A B} (m : M NpmiStats A) (f : A -> M NpmiStats B) :
  ignores_terms ts m -> (forall a, ignores_terms ts (f a)) ->
  ignores_terms ts (bind m f).
Proof.
  intros Hm Hf st. unfold bind. rewrite Hm.
  destruct (m st) as [[a|e] st']; simpl; [apply Hf | reflexivity].
Qed.

Lemma ignores_lift {A} (r : res A) : ignores_terms ts (lift r).
Proof. intros st. reflexivity. Qed.

Lemma ignores_ret {A} (a : A) : ignores_terms ts (ret a).
Proof. intros st. reflexivity. Qed.

Lemma ignores_write (fid : string) (f : file) :
  ignores_terms ts (modify (n_write_file fid f)).
Proof. intros st. reflexivity. Qed.

Lemma ignores_for_each {A} (l : list A) (body : A -> M NpmiStats unit) :
  (forall x, ignores_terms ts (body x)) -> ignores_terms ts (for_each l body).
Proof.
  intros Hb. induction l as [|x l IH]; simpl.
  - apply ignores_ret.
  - apply ignores_bind; [apply Hb | intros _; exact IH].
Qed.

Lemma ignores_write_subgroup (subgroup : string)
    (subgroup_dict : gmap string (DataFrame * DataFrame * DataFrame))
    (subgroup_files : gmap string (string * string * string)) :
  ignores_terms ts (write_subgroup_npmi_data subgroup subgroup_dict subgroup_files).
Proof.
  unfold write_subgroup_npmi_data.
  apply ignores_bind; [apply ignores_lift|]. intros [[f1 f2] f3].
  apply ignores_bind; [apply ignores_lift|]. intros [[d1 d2] d3].
  repeat (apply ignores_bind; [apply ignores_write | intros _]).
  apply ignores_write.
Qed.

Lemma ignores_joint_npmi (eng : metrics_engine) (subgroup_pair : list string) :
  ignores_terms ts (load_or_prepare_joint_npmi eng subgroup_pair).
Proof.
  unfold load_or_prepare_joint_npmi.
  apply ignores_bind; [apply ignores_lift|]. intros subgroup1.
  apply ignores_bind; [apply ignores_lift|]. intros subgroup2.
  apply ignores_bind; [intros st; reflexivity|]. intros dir.
  apply ignores_bind; [intros st; reflexivity|]. intros [|].
  - apply ignores_bind; [intros st; reflexivity|]. intros df.
    apply ignores_lift.
  - apply ignores_bind; [intros st; reflexivity|]. intros [df d].
    apply ignores_bind.
    + apply ignores_for_each. intros x. apply ignores_write_subgroup.
    + intros _. apply ignores_bind; [apply ignores_write|].
      intros _. apply ignores_ret.
Qed.

End AvailableTerms.

(** C2 (as the code has it): [load_or_prepare_joint_npmi] never consults
    the available terms.  Whatever list of available terms the object
    holds, the call runs the same way: same result (a table or the same
    exception) and same files written; no pair is rejected for containing
    an unavailable term. *)
Theorem joint_npmi_ignores_available_terms
    (eng : metrics_engine)
    (subgroup_pair ts : list string) (st : NpmiStats) :
  load_or_prepare_joint_npmi eng subgroup_pair (set_available_terms ts st)
  = (fst (load_or_prepare_joint_npmi eng subgroup_pair st),
     set_available_terms ts (snd (load_or_prepare_joint_npmi eng subgroup_pair st))).
Proof. apply ignores_joint_npmi. Qed.

(** C2 as stated fails: nurse is not an available term, yet the pair
    (he, nurse) is not rejected: the call computes and returns its table. *)
Lemma unavailable_pair_not_rejected :
  ~ rejects_unavailable (load_or_prepare_joint_npmi example_tables)
      example_npmi ["he"; "nurse"].
Proof.
  intros H.
  destruct H as [e He].
  - exists "nurse". split; [simpl; tauto|].
    vm_compute. intros H; repeat (destruct H as [H|H]; [discriminate H|]); exact H.
  - vm_compute in He. discriminate He.
Qed.

(** ** The available terms *)

(** C5: the first statement of [load_or_prepare_npmi_terms] formats its
    log message with [%] and a format that has no conversion for the
    argument, so every call ends there with a [TypeError], whatever the
    vocabulary, the flags and the cache hold; no list of terms is returned
    and the object is left as it was. *)
Theorem load_or_prepare_npmi_terms_raises (st : NpmiStats) :
  load_or_prepare_npmi_terms st = (Err TypeError, st).
Proof. reflexivity. Qed.


(** C6: asked to load only, with nothing cached, the vocabulary operation
    returns and leaves its artifact unset, while the available-terms
    operation raises: a [TypeError] at its log statement and, past that
    statement, an [UnboundLocalError] because neither branch has bound
    [available_terms]. *)
Theorem load_only_without_cache :
  load_or_prepare_vocab [] true example_world = (Ok tt, example_world)
  /\ vocab_counts_df (dstats example_world) = None
  /\ load_or_prepare_npmi_terms load_only_npmi = (Err TypeError, load_only_npmi)
  /\ load_or_prepare_npmi_terms_body load_only_npmi
     = (Err UnboundLocalError, load_only_npmi).
Proof. repeat split; reflexivity. Qed.

(** ** Counting in batches *)

Lemma repeat_zero_map {A} (F : list A) :
  repeat 0%Z (length F) = map (fun _ => 0%Z) F.
Proof. induction F; simpl; congruence. Qed.

Lemma vadd_map {A} (g h : A -> Z) (F : list A) :
  vadd (map g F) (map h F) = map (fun w => (g w + h w)%Z) F.
Proof. induction F; simpl; congruence. Qed.

Lemma count_token_app (w : string) (d1 d2 : list string) :
  count_token w (d1 ++ d2) = (count_token w d1 + count_token w d2)%Z.
Proof. unfold count_token. rewrite count_occ_app. lia. Qed.

Lemma sum_axis0_transform (F : list string) (ds : list (list string)) :
  sum_axis0 (length F) (transform F ds)
  = map (fun w => count_token w (concat ds)) F.
Proof.
  induction ds as [|d ds IH].
  - simpl. rewrite repeat_zero_map. apply map_ext. intros w. reflexivity.
  - change (transform F (d :: ds))
      with (map (fun w => count_token w d) F :: transform F ds).
    change (sum_axis0 (length F) (?x :: ?t))
      with (vadd x (sum_axis0 (length F) t)).
    rewrite IH, vadd_map.
    apply map_ext. intros w. symmetry. apply count_token_app.
Qed.

Lemma slice_transform (F : list string) (ds : list (list string)) (a b : nat) :
  slice (transform F ds) a b = transform F (slice ds a b).
Proof. unfold slice, transform. rewrite skipn_map, firstn_map. reflexivity. Qed.

Lemma firstn_plus {A} (x y : nat) (l : list A) :
  firstn x l ++ firstn y (skipn x l) = firstn (x + y) l.
Proof.
  revert l. induction x as [|x IH]; intros l; simpl; [reflexivity|].
  destruct l as [|h l]; simpl.
  - rewrite firstn_nil. reflexivity.
  - rewrite IH. reflexivity.
Qed.

Lemma slice_app {A} (l : list A) (a b c : nat) :
  a <= b -> b <= c -> slice l a b ++ slice l b c = slice l a c.
Proof.
  intros Hab Hbc. unfold slice.
  replace (skipn b l) with (skipn (b - a) (skipn a l)).
  - rewrite firstn_plus. f_equal. lia.
  - rewrite skipn_skipn. f_equal. lia.
Qed.

Lemma last_cons_default {A} (x d d' : A) (l : list A) :
  List.last (x :: l) d = List.last (x :: l) d'.
Proof.
  revert x. induction l as [|y l IH]; intros x; [reflexivity|].
  change (List.last (y :: l) d = List.last (y :: l) d'). apply IH.
Qed.

Lemma nondecreasing_last (b0 : nat) (rest : list nat) :
  nondecreasing (b0 :: rest) -> b0 <= List.last (b0 :: rest) b0.
Proof.
  revert b0. induction rest as [|b1 rest IH]; intros b0 H; simpl; [lia|].
  destruct H as [H01 H]. specialize (IH b1 H).
  change (b0 <= List.last (b1 :: rest) b0).
  rewrite (last_cons_default b1 b0 b1). lia.
Qed.

(** The batches add up to the whole, for any bounds that do not step
    back: the sum of the batch sums is the column sum of the rows between
    the first bound and the last. *)
Lemma batch_sums_telescope (F : list string) (docs : list (list string))
    (b0 : nat) (rest : list nat) :
  nondecreasing (b0 :: rest) ->
  sum_axis0 (length F) (batch_sums (length F) (transform F docs) (b0 :: rest))
  = map (fun w => count_token w (concat (slice docs b0 (List.last (b0 :: rest) b0)))) F.
Proof.
  revert b0. induction rest as [|b1 rest IH]; intros b0 H.
  - simpl. rewrite repeat_zero_map. apply map_ext. intros w.
    unfold slice. rewrite Nat.sub_diag. reflexivity.
  - destruct H as [H01 H].
    change (batch_sums (length F) (transform F docs) (b0 :: b1 :: rest))
      with (sum_axis0 (length F) (slice (transform F docs) b0 b1)
              :: batch_sums (length F) (transform F docs) (b1 :: rest)).
    change (sum_axis0 (length F) (?x :: ?t))
      with (vadd x (sum_axis0 (length F) t)).
    rewrite (IH b1 H), slice_transform, sum_axis0_transform, vadd_map.
    apply map_ext. intros w.
    rewrite <- count_token_app, <- concat_app.
    change (List.last (b0 :: b1 :: rest) b0) with (List.last (b1 :: rest) b0).
    rewrite (last_cons_default b1 b0 b1).
    rewrite slice_app; [reflexivity | exact H01 | apply nondecreasing_last; exact H].
Qed.

Lemma nondecreasing_map_seq (f : nat -> nat) (a len : nat) :
  (forall i, f i <= f (S i)) -> nondecreasing (map f (seq a len)).
Proof.
  intros Hf. revert a. induction len as [|len IH]; intros a; simpl; [exact I|].
  destruct len as [|len]; simpl; [exact I|].
  split; [apply Hf | apply (IH (S a))].
Qed.

Lemma linspace_nondecreasing (stop num : nat) :
  nondecreasing (linspace_int stop num).
Proof.
  apply nondecreasing_map_seq. intros i.
  apply Nat.Div0.div_le_mono. lia.
Qed.

Lemma linspace_shape (stop num : nat) :
  2 <= num ->
  exists rest, linspace_int stop num = 0 :: rest
               /\ rest <> []
               /\ List.last (0 :: rest) 0 = stop.
Proof.
  intros Hn. unfold linspace_int.
  destruct num as [|[|k]]; try lia.
  exists (map (fun i => i * stop / (S (S k) - 1)) (seq 1 (S k))).
  split; [|split].
  - simpl. reflexivity.
  - simpl. discriminate.
  - change (0 :: map (fun i => i * stop / (S (S k) - 1)) (seq 1 (S k)))
      with (map (fun i => i * stop / (S (S k) - 1)) (seq 0 (S (S k)))).
    rewrite seq_S, map_app. cbn [map]. rewrite last_last.
    replace (S (S k) - 1) with (S k) by lia.
    replace ((0 + S k) * stop) with (stop * S k) by lia.
    apply Nat.div_mul. lia.
Qed.

Lemma combine_map_r {A B} (f : A -> B) (l : list A) :
  combine l (map f l) = map (fun x => (x, f x)) l.
Proof. induction l; simpl; congruence. Qed.

Lemma slice_all {A} (l : list A) : slice l 0 (length l) = l.
Proof. unfold slice. rewrite Nat.sub_0_r. simpl. apply firstn_all. Qed.

(** With at least two batch bounds, the table holds for each word of the
    vocabulary the number of its occurrences in the whole corpus. *)
Lemma count_vocab_frequencies_batched_totals
    (num_batches : nat) (tokenized_df : list tok_row) :
  2 <= num_batches ->
  count_vocab_frequencies_batched num_batches tokenized_df
  = (features <- fit (map tokenized_field tokenized_df) ;;
     Ok (word_count_frame
           (map (fun w => (w, token_total (map tokenized_field tokenized_df) w))
                features)))%res.
Proof.
  intros Hn2. set (docs := map tokenized_field tokenized_df).
  unfold count_vocab_frequencies_batched. fold docs.
  destruct (fit docs) as [F|e]; simpl; [|reflexivity].
  destruct (linspace_shape (length tokenized_df) num_batches Hn2)
    as (rest & Hl & Hne & Hlast).
  pose proof (linspace_nondecreasing (length tokenized_df) num_batches) as Hmono.
  rewrite Hl in *.
  pose proof (batch_sums_telescope F docs 0 rest Hmono) as Htel.
  rewrite Hlast in Htel.
  replace (length tokenized_df) with (length docs) in Htel
    by (unfold docs; apply length_map).
  rewrite slice_all in Htel.
  destruct rest as [|b1 rest]; [congruence|].
  destruct (batch_sums (length F) (transform F docs) (0 :: b1 :: rest)) eqn:Hbs.
  - simpl in Hbs. discriminate Hbs.
  - rewrite Htel, combine_map_r. reflexivity.
Qed.

Lemma count_vocab_frequencies_totals (tokenized_df : list tok_row) :
  count_vocab_frequencies tokenized_df
  = (features <- fit (map tokenized_field tokenized_df) ;;
     Ok (word_count_frame
           (map (fun w => (w, token_total (map tokenized_field tokenized_df) w))
                features)))%res.
Proof.
  apply count_vocab_frequencies_batched_totals. unfold _NUM_VOCAB_BATCHES. lia.
Qed.

(** C9: the counts do not depend on the number of batches.  For every
    tokenized corpus and every number of batch bounds of at least two
    (2000 in the code), each word of the vocabulary gets the number of its
    occurrences in the whole corpus, which is what one summation over all
    documents gives; and a corpus without tokens is the same error for
    every number of batches. *)
Theorem count_vocab_frequencies_batch_independent
    (num_batches : nat) (tokenized_df : list tok_row) :
  2 <= num_batches ->
  let docs := map tokenized_field tokenized_df in
  count_vocab_frequencies_batched num_batches tokenized_df
  = (features <- fit docs ;;
     Ok (word_count_frame (map (fun w => (w, token_total docs w)) features)))%res
  /\ count_vocab_frequencies_batched num_batches tokenized_df
     = count_vocab_frequencies tokenized_df.
Proof.
  intros Hn docs. split.
  - apply count_vocab_frequencies_batched_totals. exact Hn.
  - rewrite count_vocab_frequencies_totals.
    apply count_vocab_frequencies_batched_totals. exact Hn.
Qed.

Lemma count_vocab_frequencies_batch_independent_witness :
  2 <= 3 /\
  count_vocab_frequencies_batched 3
    (tokenize_batch ["the cat sat"; "the dog sat"; "cat and dog play"])
  = count_vocab_frequencies
      (tokenize_batch ["the cat sat"; "the dog sat"; "cat and dog play"]).
Proof.
  split; [lia|].
  apply (count_vocab_frequencies_batch_independent 3
           (tokenize_batch ["the cat sat"; "the dog sat"; "cat and dog play"])).
  lia.
Defined.

(** ** Frames built from lists *)

Lemma mapM_map {A B C} (f : B -> res C) (g : A -> B) (h : A -> C) (l : list A) :
  (forall x, f (g x) = Ok (h x)) -> mapM f (map g l) = Ok (map h l).
Proof.
  intros H. induction l as [|x l IH]; simpl; [reflexivity|].
  rewrite H. simpl. rewrite IH. reflexivity.
Qed.

Lemma combine_map2 {A B C} (f : A -> B) (g : A -> C) (l : list A) :
  combine (map f l) (map g l) = map (fun x => (f x, g x)) l.
Proof. induction l; simpl; congruence. Qed.

Lemma assign_aligned (df : DataFrame) (c : string) (s : Series) :
  s_index s = df_index df ->
  assign df c s = Ok (put_column df c (s_values s)).
Proof.
  intros H. unfold assign.
  assert (same_labels (s_index s) (df_index df) = true) as Hs.
  { unfold same_labels. destruct (List.list_eq_dec _ _ _); congruence. }
  rewrite Hs.
  destruct (rows df) eqn:Hr; [|reflexivity].
  destruct (items s) eqn:Hi; [reflexivity|].
  unfold s_index, df_index in H. rewrite Hr, Hi in H. discriminate H.
Qed.

Lemma py_sum_ints_from (acc : Z) (cs : list Z) :
  fold_left (fun acc v => (a <- acc ;; cell_add a v)%res) (map CInt cs) (Ok (CInt acc))
  = Ok (CInt (acc + fold_right Z.add 0%Z cs)).
Proof.
  revert acc. induction cs as [|c cs IH]; intros acc; simpl.
  - rewrite Z.add_0_r. reflexivity.
  - rewrite IH. do 2 f_equal. lia.
Qed.

Lemma py_sum_ints (cs : list Z) :
  py_sum (map CInt cs) = Ok (CInt (fold_right Z.add 0%Z cs)).
Proof. unfold py_sum. rewrite py_sum_ints_from. reflexivity. Qed.

Lemma insert_by_map {A B} (f : A -> B) (leA : A -> A -> bool) (leB : B -> B -> bool)
    (x : A) (l : list A) :
  (forall a b, leB (f a) (f b) = leA a b) ->
  insert_by leB (f x) (map f l) = map f (insert_by leA x l).
Proof.
  intros H. induction l as [|y l IH]; simpl; [reflexivity|].
  rewrite H. destruct (leA x y); simpl; [reflexivity|]. rewrite IH. reflexivity.
Qed.

Lemma sort_by_map {A B} (f : A -> B) (leA : A -> A -> bool) (leB : B -> B -> bool)
    (l : list A) :
  (forall a b, leB (f a) (f b) = leA a b) ->
  sort_by leB (map f l) = map f (sort_by leA l).
Proof.
  intros H. induction l as [|x l IH]; simpl; [reflexivity|].
  unfold sort_by in *. simpl. rewrite IH. apply insert_by_map. exact H.
Qed.

Lemma Qleb_inject_Z (a b : Z) : Qleb (inject_Z a) (inject_Z b) = (a <=? b)%Z.
Proof. unfold Qleb, Qle_bool. simpl. rewrite !Z.mul_1_r. reflexivity. Qed.

Lemma forallb_map_true {A B} (f : A -> B) (p : B -> bool) (l : list A) :
  (forall x, p (f x) = true) -> forallb p (map f l) = true.
Proof. intros H. induction l; simpl; [reflexivity|]. rewrite H. exact IHl. Qed.

(** ** Proportions *)

(** [calc_p_word] on any word-count table: it returns, with each count
    divided by the total as floats divide, and the rows by decreasing
    count. *)
Lemma calc_p_word_frame (l : list (string * Z)) :
  calc_p_word (word_count_frame l)
  = Ok (vocab_counts_frame (by_count_desc (with_proportions (total_count l) l))).
Proof.
  unfold calc_p_word.
  change (col (word_count_frame l) CNT)
    with (Ok (mkSeries (Some WORD)
                (map (fun r => (fst r, cell_at 0 (snd r)))
                     (map (fun wc : string * Z => (CStr (fst wc), [CInt (snd wc)])) l)))).
  cbn [rbind]. unfold s_values. cbn [items].
  rewrite !map_map. cbn [fst snd cell_at nth].
  rewrite <- (map_map snd CInt), py_sum_ints. cbn [rbind py_float].
  fold (total_count l).
  unfold series_div, map_series. cbn [items s_index_name].
  rewrite (mapM_map _ _
             (fun wc : string * Z =>
                (CStr (fst wc), CFlt (fdiv (float_of_Z (snd wc)) (float_of_Z (total_count l))))));
    [|intros x; reflexivity].
  cbn [rbind].
  rewrite assign_aligned
    by (unfold s_index, df_index, word_count_frame; cbn [items rows];
        rewrite !map_map; reflexivity).
  cbn [rbind].
  unfold put_column, word_count_frame. cbn [columns index_name rows].
  change (find_col [CNT] PROP) with (@None nat). cbn iota.
  unfold s_values. cbn [items]. rewrite map_map. cbn [snd].
  rewrite combine_map2, map_map. cbn [fst snd app].
  unfold sort_values. cbn [columns rows index_name].
  change (find_col [CNT; PROP] CNT) with (Some 0). cbn iota.
  rewrite map_map. cbn [snd cell_at nth key_of_cell].
  assert (all_numeric (map (fun x : string * Z => KNum (inject_Z (snd x))) l) = true) as ->
    by (apply forallb_map_true; reflexivity).
  cbn [orb rbind].
  rewrite <- (map_map
                (fun wc : string * Z =>
                   (fst wc, snd wc, fdiv (float_of_Z (snd wc)) (float_of_Z (total_count l))))
                (fun x : string * Z * pyfloat =>
                   (CStr (fst (fst x)), [CInt (snd (fst x)); CFlt (snd x)]))).
  fold (with_proportions (total_count l) l).
  rewrite (sort_by_map _ (fun a b : string * Z * pyfloat => (snd (fst b) <=? snd (fst a))%Z))
    by (intros a b; cbn [snd cell_at nth key_of_cell key_leb]; apply Qleb_inject_Z).
  fold (by_count_desc (with_proportions (total_count l) l)).
  unfold assign_values, df_index. cbn [rows].
  rewrite !length_map, Nat.eqb_refl.
  unfold put_column. cbn [columns index_name rows].
  change (find_col [CNT; PROP] VOCAB) with (@None nat). cbn iota.
  rewrite map_map, combine_map2, map_map. cbn [fst snd app].
  reflexivity.
Qed.

Lemma in_insert_by {A} (le : A -> A -> bool) (x y : A) (l : list A) :
  In y (insert_by le x l) <-> y = x \/ In y l.
Proof.
  induction l as [|z l IH]; simpl.
  - intuition congruence.
  - destruct (le x z); simpl; [intuition congruence|].
    rewrite IH. intuition congruence.
Qed.

Lemma in_sort_by {A} (le : A -> A -> bool) (y : A) (l : list A) :
  In y (sort_by le l) <-> In y l.
Proof.
  induction l as [|x l IH]; simpl; [tauto|].
  unfold sort_by in *. simpl. rewrite in_insert_by, IH. intuition congruence.
Qed.

Lemma Qeq_bool_inject_Z_0 (t : Z) : Qeq_bool (inject_Z t) 0 = (t =? 0)%Z.
Proof.
  unfold Qeq_bool. cbn [Qnum Qden inject_Z]. rewrite Z.mul_1_r. reflexivity.
Qed.

Lemma fdiv_nonzero (c t : Z) :
  t <> 0%Z ->
  fdiv (float_of_Z c) (float_of_Z t) = Fin (inject_Z c / inject_Z t)%Q.
Proof.
  intros H. unfold fdiv, float_of_Z. rewrite Qeq_bool_inject_Z_0.
  destruct (Z.eqb_spec t 0); [contradiction|reflexivity].
Qed.

Lemma fdiv_zero (c : Z) : not_finite (fdiv (float_of_Z c) (float_of_Z 0)).
Proof.
  unfold fdiv, float_of_Z. rewrite !Qeq_bool_inject_Z_0. simpl.
  destruct (c =? 0)%Z; exact I.
Qed.

(** C7 (as the code has it): [calc_p_word] has no guard on the total and
    never fails.  For every word-count table it returns the table of the
    same words by decreasing count; when the total count is positive each
    word's proportion is its count divided by the total; when the total
    is zero each proportion is NaN or an infinity. *)
Theorem calc_p_word_always_returns (l : list (string * Z)) :
  let total := total_count l in
  let out := by_count_desc (with_proportions total l) in
  calc_p_word (word_count_frame l) = Ok (vocab_counts_frame out)
  /\ (forall w c, In (w, c) l <-> exists p, In (w, c, p) out)
  /\ ((0 < total)%Z ->
      forall w c p, In (w, c, p) out -> p = Fin (inject_Z c / inject_Z total)%Q)
  /\ (total = 0%Z -> forall w c p, In (w, c, p) out -> not_finite p).
Proof.
  intros total out.
  assert (forall w c p, In (w, c, p) out <->
            In (w, c) l /\ p = fdiv (float_of_Z c) (float_of_Z total)) as Hin.
  { intros w c p. unfold out, by_count_desc, with_proportions.
    rewrite in_sort_by, in_map_iff. split.
    - intros [[w' c'] [E H]]. simpl in E. inversion E; subst. auto.
    - intros [H ->]. exists (w, c). auto. }
  split; [apply calc_p_word_frame|]. split; [|split].
  - intros w c. split.
    + intros H. eexists. apply Hin. eauto.
    + intros [p H]. apply Hin in H. tauto.
  - intros Hpos w c p H. apply Hin in H as [_ ->].
    apply fdiv_nonzero. lia.
  - intros Hz w c p H. apply Hin in H as [_ ->]. rewrite Hz. apply fdiv_zero.
Qed.

Lemma calc_p_word_always_returns_witness :
  (0 < total_count [("the", 2%Z); ("cat", 1%Z)])%Z /\
  forall w c p,
    In (w, c, p)
       (by_count_desc (with_proportions 3 [("the", 2%Z); ("cat", 1%Z)])) ->
    p = Fin (inject_Z c / inject_Z 3)%Q.
Proof.
  split; [reflexivity|].
  apply (calc_p_word_always_returns [("the", 2%Z); ("cat", 1%Z)]).
  reflexivity.
Defined.

(** C7 as stated fails: on the empty word-count table, whose total is
    zero, [calc_p_word] returns (the empty vocabulary table) and does not
    fail. *)
Lemma zero_total_not_rejected : ~ rejects_zero_total [].
Proof.
  intros H. destruct (H eq_refl) as [e He].
  rewrite calc_p_word_frame in He. discriminate He.
Qed.

(** The same at a table with a word of count zero: the proportion is NaN. *)
Example calc_p_word_zero_count :
  calc_p_word (word_count_frame [("cat", 0%Z)])
  = Ok (vocab_counts_frame [("cat", 0%Z, NaN)]).
Proof. reflexivity. Qed.

(** An empty corpus does not reach [calc_p_word]: the vectorizer of
    [count_vocab_frequencies] rejects a corpus without tokens, and every
    table it does build has a positive total. *)
Lemma count_vocab_frequencies_no_tokens (tokenized_df : list tok_row) :
  concat (map tokenized_field tokenized_df) = [] ->
  count_vocab_frequencies tokenized_df = Err ValueError.
Proof.
  intros H. rewrite count_vocab_frequencies_totals. unfold fit. rewrite H. reflexivity.
Qed.

(** ** The closed-class filter *)

Lemma filter_map_commute {A B} (f : A -> B) (p : B -> bool) (l : list A) :
  List.filter p (map f l) = map f (List.filter (fun x => p (f x)) l).
Proof.
  induction l as [|x l IH]; simpl; [reflexivity|].
  destruct (p (f x)); simpl; rewrite IH; reflexivity.
Qed.

(** [filter_vocab] on any vocabulary table: the rows whose word is not
    closed-class, in their order, with each count divided by the total of
    the rows that remain. *)
Lemma filter_vocab_frame (sw : list string) (V : list (string * Z * pyfloat)) :
  let F := counts_of (open_class (_CLOSED_CLASS sw) V) in
  filter_vocab sw (vocab_counts_frame V)
  = Ok (vocab_counts_frame (with_proportions (total_count F) F)).
Proof.
  intros F. unfold filter_vocab.
  assert (drop_labels (vocab_counts_frame V) (_CLOSED_CLASS sw)
          = vocab_counts_frame (open_class (_CLOSED_CLASS sw) V)) as ->.
  { unfold drop_labels, vocab_counts_frame, open_class. cbn [index_name columns rows].
    rewrite filter_map_commute. reflexivity. }
  set (O := open_class (_CLOSED_CLASS sw) V) in *.
  change (col (vocab_counts_frame O) CNT)
    with (Ok (mkSeries (Some WORD)
                (map (fun r => (fst r, cell_at 0 (snd r)))
                     (map (fun x : string * Z * pyfloat =>
                             (CStr (fst (fst x)),
                              [CInt (snd (fst x)); CFlt (snd x); CStr (fst (fst x))])) O)))).
  cbn [rbind]. unfold s_values. cbn [items].
  rewrite !map_map. cbn [fst snd cell_at nth].
  rewrite <- (map_map (fun x : string * Z * pyfloat => snd (fst x)) CInt), py_sum_ints.
  cbn [rbind py_float].
  assert (map (fun x : string * Z * pyfloat => snd (fst x)) O = map snd F) as ->
    by (unfold F, counts_of; rewrite map_map; reflexivity).
  fold (total_count F).
  unfold series_div, map_series. cbn [items s_index_name].
  rewrite (mapM_map _ _
             (fun x : string * Z * pyfloat =>
                (CStr (fst (fst x)),
                 CFlt (fdiv (float_of_Z (snd (fst x))) (float_of_Z (total_count F))))));
    [|intros x; reflexivity].
  cbn [rbind].
  rewrite assign_aligned
    by (unfold s_index, df_index, vocab_counts_frame; cbn [items rows];
        rewrite !map_map; reflexivity).
  f_equal.
  unfold put_column, vocab_counts_frame. cbn [columns index_name rows].
  change (find_col [CNT; PROP; VOCAB] PROP) with (Some 1). cbn iota.
  unfold s_values. cbn [items]. rewrite map_map. cbn [snd].
  rewrite combine_map2, map_map. cbn [fst snd set_nth].
  unfold with_proportions, F, counts_of. rewrite !map_map. cbn [fst snd].
  reflexivity.
Qed.

Lemma str_in_iff (x : string) (l : list string) : str_in x l = true <-> In x l.
Proof.
  unfold str_in. rewrite existsb_exists. split.
  - intros [y [Hy E]]. apply String.eqb_eq in E. subst. exact Hy.
  - intros H. exists x. split; [exact H | apply String.eqb_refl].
Qed.






(** ** Lowercase vocabulary *)




(** A string that [lower] leaves unchanged has no uppercase letter. *)
Lemma lower_fixed_no_upper (s : string) :
  lower s = s -> Forall (fun c => is_upper c = false) (list_ascii_of_string s).
Proof.
  induction s as [|c s IH]; simpl; intros H; [constructor|].
  injection H as Hc Hs. constructor; [|apply IH; exact Hs].
  revert Hc. destruct c as [[] [] [] [] [] [] [] []]; vm_compute; congruence.
Qed.




Lemma in_insert_sorted (x y : string) (l : list string) :
  In y (insert_sorted x l) <-> y = x \/ In y l.
Proof.
  induction l as [|z l IH]; simpl.
  - intuition congruence.
  - destruct (String.leb x z); simpl; [intuition congruence|].
    rewrite IH. intuition congruence.
Qed.

Lemma in_sorted (y : string) (l : list string) : In y (sorted l) <-> In y l.
Proof.
  induction l as [|x l IH]; simpl; [tauto|].
  unfold sorted in *. simpl. rewrite in_insert_sorted, IH. intuition congruence.
Qed.

Lemma fit_features (docs : list (list string)) (F : list string) (w : string) :
  fit docs = Ok F -> (In w F <-> In w (concat docs)).
Proof.
  unfold fit. intros H.
  assert (F = sorted (nodup String.string_dec (concat docs))) as ->
    by (destruct (sorted _); congruence).
  rewrite in_sorted, nodup_In. tauto.
Qed.










(** ** The scan for available terms *)

Lemma keep_where_map_filter {A} (p : A -> bool) (l : list A) :
  keep_where l (map p l) = List.filter p l.
Proof. induction l as [|a l IH]; simpl; [reflexivity|]. rewrite IH. reflexivity. Qed.

Lemma cell_eqb_CStr (a b : string) : cell_eqb (CStr a) (CStr b) = String.eqb a b.
Proof.
  unfold cell_eqb. destruct (cell_eq_dec (CStr a) (CStr b)) as [E|N].
  - inversion E. symmetry. apply String.eqb_refl.
  - destruct (String.eqb_spec a b); [subst; contradiction | reflexivity].
Qed.

Lemma in_index_vocab (V : list (string * Z * pyfloat)) (w : string) :
  in_index (vocab_counts_frame V) (CStr w)
  = match count_in V w with Some _ => true | None => false end.
Proof.
  unfold in_index, df_index, vocab_counts_frame. cbn [rows]. rewrite map_map. cbn [fst].
  induction V as [|x V IH]; simpl; [reflexivity|].
  rewrite cell_eqb_CStr, String.eqb_sym.
  destruct (String.eqb (fst (fst x)) w); simpl; [reflexivity | exact IH].
Qed.

Lemma loc_vocab (V : list (string * Z * pyfloat)) (w : string) (c : Z) :
  List.NoDup (map (fun x => fst (fst x)) V) ->
  count_in V w = Some c ->
  loc (vocab_counts_frame V) (CStr w) CNT = Ok [CInt c].
Proof.
  intros Hnd Hc. unfold loc.
  change (find_col (columns (vocab_counts_frame V)) CNT) with (Some 0).
  unfold vocab_counts_frame. cbn [rows]. rewrite filter_map_commute. cbn [fst].
  assert (List.filter (fun x : string * Z * pyfloat => cell_eqb (CStr (fst (fst x))) (CStr w)) V
          = [(w, c, snd (nth 0 (List.filter (fun x : string * Z * pyfloat =>
                                  cell_eqb (CStr (fst (fst x))) (CStr w)) V)
                              (w, c, NaN)))]) as ->.
  { induction V as [|x V IH]; [discriminate Hc|].
    simpl in Hc. simpl. rewrite cell_eqb_CStr.
    inversion Hnd as [|? ? Hnotin Hnd']; subst.
    destruct (String.eqb_spec (fst (fst x)) w) as [E|N].
    - inversion Hc; subst. simpl.
      assert (List.filter (fun x0 : string * Z * pyfloat =>
                 cell_eqb (CStr (fst (fst x0))) (CStr (fst (fst x)))) V = []) as ->.
      { clear -Hnotin. induction V as [|y V IH]; simpl; [reflexivity|].
        rewrite cell_eqb_CStr.
        destruct (String.eqb_spec (fst (fst y)) (fst (fst x))) as [E|N].
        - exfalso. apply Hnotin. left. exact E.
        - apply IH. intros H. apply Hnotin. right. exact H. }
      destruct x as [[w' c'] p']. reflexivity.
    - apply IH; assumption. }
  reflexivity.
Qed.

(** Past the log statement, the scan of [load_or_prepare_npmi_terms] is
    the list the specification describes: over a vocabulary with unique
    words, it returns exactly the terms of the list that are in the
    vocabulary with a count of at least the minimum, in the order of the
    list, and the empty list when no term qualifies. *)
Lemma scan_available_terms_spec (V : list (string * Z * pyfloat))
    (terms : list string) (minimum : Z) :
  List.NoDup (map (fun x => fst (fst x)) V) ->
  scan_available_terms (Some (vocab_counts_frame V)) terms minimum
  = Ok (available V terms minimum).
Proof.
  intros Hnd. unfold scan_available_terms.
  rewrite <- (map_id terms) at 1.
  rewrite (mapM_map _ _ (fun term => in_index (vocab_counts_frame V) (CStr term)))
    by reflexivity.
  cbn [rbind]. rewrite keep_where_map_filter.
  set (wl := List.filter _ terms).
  assert (forall t, In t wl -> exists c, count_in V t = Some c) as Hwl.
  { intros t Ht. apply filter_In in Ht as [_ Ht]. rewrite in_index_vocab in Ht.
    destruct (count_in V t); [eauto | discriminate Ht]. }
  assert (mapM (fun word =>
                  (vs <- loc (vocab_counts_frame V) (CStr word) CNT ;;
                   mapM (fun c => cell_ge c minimum) vs)%res) wl
          = Ok (map (fun word => [match count_in V word with
                                  | Some c => (minimum <=? c)%Z
                                  | None => false
                                  end]) wl)) as ->.
  { clear -Hwl Hnd. induction wl as [|t wl IH]; [reflexivity|].
    cbn [mapM map]. destruct (Hwl t (or_introl eq_refl)) as [c Hc].
    rewrite (loc_vocab V t c Hnd Hc), Hc. cbn [rbind mapM cell_ge].
    rewrite IH by (intros t' Ht'; apply Hwl; right; exact Ht'). reflexivity. }
  cbn [rbind].
  rewrite (mapM_map truth _ (fun word => match count_in V word with
                                         | Some c => (minimum <=? c)%Z
                                         | None => false
                                         end)) by reflexivity.
  cbn [rbind]. rewrite keep_where_map_filter. f_equal.
  unfold wl, available. clear.
  induction terms as [|t terms IH]; [reflexivity|].
  cbn [List.filter]. rewrite in_index_vocab.
  destruct (count_in V t) as [c|] eqn:Hc; [|exact IH].
  cbn [List.filter]. rewrite Hc.
  destruct (minimum <=? c)%Z; rewrite IH; reflexivity.
Qed.

(** The three branches of [load_or_prepare_npmi_terms] past its log
    statement. *)
Lemma npmi_terms_body_cached (st : NpmiStats) (t : string) (ts : list string) :
  n_use_cache st = true ->
  n_disk st !! npmi_terms_fid st = Some (FJson [("available terms", t :: ts)]) ->
  load_or_prepare_npmi_terms_body st = (Ok (t :: ts), set_available_terms (t :: ts) st).
Proof.
  intros Hc Hf. unfold load_or_prepare_npmi_terms_body, json_available_terms, exists_, open_.
  rewrite Hc, Hf. reflexivity.
Qed.

Lemma npmi_terms_body_scan (st : NpmiStats) (V : list (string * Z * pyfloat)) :
  n_use_cache st = false -> n_load_only st = false ->
  vocab_counts_df (dstats (n_world st)) = Some (vocab_counts_frame V) ->
  List.NoDup (map (fun x => fst (fst x)) V) ->
  fst (load_or_prepare_npmi_terms_body st)
  = Ok (available V (termlist st) (n_min_vocab_count st)).
Proof.
  intros Hc Hl Hv Hnd. unfold load_or_prepare_npmi_terms_body.
  rewrite Hc, Hl, Hv. cbn [andb negb].
  rewrite scan_available_terms_spec by exact Hnd. reflexivity.
Qed.

Lemma npmi_terms_body_load_only (st : NpmiStats) :
  n_load_only st = true ->
  n_use_cache st && exists_ (n_disk st) (npmi_terms_fid st) = false ->
  load_or_prepare_npmi_terms_body st = (Err UnboundLocalError, st).
Proof.
  intros Hl Hc. unfold load_or_prepare_npmi_terms_body. rewrite Hc, Hl. reflexivity.
Qed.

(** The sibling load-or-prepare operations, asked to load only with
    nothing cached, return and change nothing. *)
Lemma load_only_vocab_absent (sw : list string) (w : World) :
  use_cache (dstats w) && exists_ (disk w) (vocab_counts_df_fid (dstats w)) = false ->
  load_or_prepare_vocab sw true w = (Ok tt, w).
Proof. intros H. unfold load_or_prepare_vocab. rewrite H. reflexivity. Qed.

Lemma load_only_tokenized_absent (w : World) :
  use_cache (dstats w) && exists_ (disk w) (tokenized_df_fid (dstats w)) = false ->
  load_or_prepare_tokenized_df true w = (Ok tt, w).
Proof. intros H. unfold load_or_prepare_tokenized_df. rewrite H. reflexivity. Qed.

Lemma load_only_text_dset_absent (w : World) :
  use_cache (dstats w) && exists_ (disk w) (text_dset_fid (dstats w)) = false ->
  load_or_prepare_text_dset true w = (Ok tt, w).
Proof. intros H. unfold load_or_prepare_text_dset. rewrite H. reflexivity. Qed.

(** ** Tables written to the cache and read back *)

Lemma str_last_app (a b : string) (d : ascii) :
  b <> EmptyString -> str_last (a +:+ b) d = str_last b d.
Proof.
  intros Hb. revert d. induction a as [|c a IH]; intros d; simpl.
  - reflexivity.
  - rewrite IH. destruct b; [contradiction | reflexivity].
Qed.

Lemma eqb_false_by_last (s a b : string) :
  b <> EmptyString -> str_last s "x" <> str_last b "x" ->
  String.eqb s (a +:+ b) = false.
Proof.
  intros Hb Hl. destruct (String.eqb_spec s (a +:+ b)) as [E|]; [|reflexivity].
  exfalso. apply Hl. rewrite E. apply str_last_app. exact Hb.
Qed.





Lemma exists_of_lookup (d : gmap string file) (fid : string) (f : file) :
  d !! fid = Some f -> exists_ d fid = true.
Proof. unfold exists_. intros ->. reflexivity. Qed.

Lemma open_of_lookup (d : gmap string file) (fid : string) (f : file) :
  d !! fid = Some f -> open_ d fid = Ok f.
Proof. unfold open_. intros ->. reflexivity. Qed.


Lemma load_uncached_tables (d : gmap string file) (dir subgroup : string) :
  not_cached d dir subgroup ->
  load_or_fail_cached_npmi_scores d subgroup (subgroup_fids dir subgroup) = Ok None.
Proof.
  unfold not_cached, load_or_fail_cached_npmi_scores, subgroup_fids. intros ->. reflexivity.
Qed.



(** ** Partial cache *)





(** ** Columns and index names through the frame operations *)

Lemma find_col_Some_In (cs : list string) (c : string) (j : nat) :
  find_col cs c = Some j -> In c cs.
Proof.
  revert j. induction cs as [|c' cs IH]; intros j H; [discriminate H|].
  simpl in H. destruct (String.eqb_spec c' c) as [->|N]; [left; reflexivity|].
  destruct (find_col cs c) as [k|]; [|discriminate H]. right. apply (IH k). reflexivity.
Qed.



Lemma in_add_col (cs : list string) (c c' : string) :
  In c' (add_col cs c) <-> In c' cs \/ c' = c.
Proof.
  unfold add_col. destruct (find_col cs c) as [j|] eqn:E.
  - apply find_col_Some_In in E. split; [tauto|]. intros [H| ->]; assumption.
  - rewrite in_app_iff. simpl. intuition congruence.
Qed.

Lemma put_column_columns (df : DataFrame) (c : string) (vs : list cell) :
  columns (put_column df c vs) = add_col (columns df) c
  /\ index_name (put_column df c vs) = index_name df.
Proof.
  unfold put_column, add_col. destruct (find_col (columns df) c); split; reflexivity.
Qed.

Lemma assign_shape (df df' : DataFrame) (c : string) (s : Series) :
  assign df c s = Ok df' ->
  columns df' = add_col (columns df) c
  /\ (index_name df' = index_name df
      \/ (index_name df = None /\ index_name df' = s_index_name s)).
Proof.
  unfold assign. intros H.
  assert (forall d vs, Ok (put_column d c vs) = Ok df' ->
            columns df' = add_col (columns d) c /\ index_name df' = index_name d) as Hput.
  { intros d vs E. inversion E. apply put_column_columns. }
  destruct (rows df) as [|r rs].
  - destruct (items s) as [|it its].
    + destruct (same_labels _ _).
      * apply Hput in H as [H1 H2]. auto.
      * destruct (has_dup _); [discriminate H|]. apply Hput in H as [H1 H2]. auto.
    + apply Hput in H as [H1 H2]. cbn [columns index_name] in *.
      split; [exact H1|]. destruct (index_name df) as [n|]; auto.
  - destruct (same_labels _ _).
    + apply Hput in H as [H1 H2]. auto.
    + destruct (has_dup _); [discriminate H|]. apply Hput in H as [H1 H2]. auto.
Qed.

Lemma sort_values_shape (df df' : DataFrame) (c : string) (asc : bool) :
  sort_values df c asc = Ok df' ->
  columns df' = columns df /\ index_name df' = index_name df /\ In c (columns df).
Proof.
  unfold sort_values. destruct (find_col (columns df) c) as [j|] eqn:E; [|discriminate].
  destruct (_ || _); [|discriminate]. intros H. inversion H. cbn [columns index_name].
  repeat split. apply (find_col_Some_In _ _ _ E).
Qed.







(** ** The columns of a pair table *)


(** ** Index names of the tables in the dictionary *)









Lemma length_insert_sorted (x : string) (l : list string) :
  length (insert_sorted x l) = S (length l).
Proof.
  induction l as [|y l IH]; simpl; [reflexivity|].
  destruct (String.leb x y); simpl; [reflexivity|]. rewrite IH. reflexivity.
Qed.

Lemma length_sorted (l : list string) : length (sorted l) = length l.
Proof.
  induction l as [|x l IH]; simpl; [reflexivity|].
  unfold sorted in *. simpl. rewrite length_insert_sorted, IH. reflexivity.
Qed.



(** ** A pair table written to the cache and loaded again *)









(** ** Calling twice *)



(** The branch of [load_or_prepare_joint_npmi] that loads the pair table:
    it does not involve [calc_metrics] and leaves the state as it is. *)
Lemma joint_cached_run (eng : metrics_engine) (subgroup_pair : list string)
    (st : NpmiStats) (s1 s2 : string) :
  py_index (sorted subgroup_pair) 0 = Ok s1 ->
  py_index (sorted subgroup_pair) 1 = Ok s2 ->
  n_use_cache st && exists_ (n_disk st) (joint_npmi_fid st subgroup_pair) = true ->
  load_or_prepare_joint_npmi eng subgroup_pair st
  = ((df <- load_joint_npmi_df (n_disk st) (joint_npmi_fid st subgroup_pair) ;;
      select df (npmi_display_cols s1 s2))%res, st).
Proof.
  intros H1 H2 H3. unfold load_or_prepare_joint_npmi, bind, lift, gets.
  rewrite H1, H2. unfold joint_npmi_fid in H3. rewrite H3.
  destruct (load_joint_npmi_df _ _); reflexivity.
Qed.

Lemma prepare_needs_two (eng : metrics_engine) (st : NpmiStats) (sp : list string)
    (files : gmap string (string * string * string))
    (r : DataFrame * gmap string (DataFrame * DataFrame * DataFrame)) :
  prepare_joint_npmi_df eng st sp files = Ok r -> exists x y, sorted sp = [x; y].
Proof.
  unfold prepare_joint_npmi_df. destruct (foldM _ sp ∅) as [d0|]; [|discriminate].
  cbn [rbind]. destruct (do_npmi eng st sp d0) as [r'|] eqn:E; [|discriminate].
  intros _. unfold do_npmi in E.
  destruct (foldM _ (sorted sp) d0) as [d1|]; [|discriminate E]. cbn [rbind] in E.
  destruct (calc_paired_metrics (sorted sp) d1) as [pr|]; [|discriminate E].
  cbn [rbind] in E.
  destruct (make_npmi_fig pr (sorted sp)) as [UI|] eqn:Em; [|discriminate E].
  unfold make_npmi_fig in Em.
  destruct (sorted sp) as [|x [|y [|? ?]]]; try discriminate Em. eauto.
Qed.



(** In the example the first call computes the table and the second one
    loads it: the two tables have the same values, and the loaded one
    lists its columns in the order of display. *)
Example second_call_column_order :
  exists r1 st1 r2,
    load_or_prepare_joint_npmi example_tables ["she"; "he"] example_npmi = (Ok r1, st1)
    /\ load_or_prepare_joint_npmi example_tables ["she"; "he"] st1 = (Ok r2, st1)
    /\ columns r1 = ["npmi-bias"; "he-npmi"; "he-count"; "she-npmi"; "she-count"]
    /\ columns r2 = ["npmi-bias"; "he-npmi"; "she-npmi"; "he-count"; "she-count"].
Proof.
  do 3 eexists. split; [vm_compute; reflexivity|]. split; [vm_compute; reflexivity|].
  repeat split; reflexivity.
Qed.

(** * Further properties of the code *)

(** ** Tokens *)

Lemma str_app_cons (c : ascii) (a b : string) :
  String c a +:+ b = String c (a +:+ b).
Proof. reflexivity. Qed.

Lemma str_app_nil (b : string) : EmptyString +:+ b = b.
Proof. reflexivity. Qed.


Lemma str_app_empty_r (a : string) : a +:+ EmptyString = a.
Proof.
  induction a as [|c a IH]; [reflexivity|].
  rewrite str_app_cons, IH. reflexivity.
Qed.

Lemma str_app_assoc (a b c : string) : (a +:+ b) +:+ c = a +:+ (b +:+ c).
Proof.
  induction a as [|x a IH]; [reflexivity|].
  rewrite !str_app_cons, IH. reflexivity.
Qed.




Lemma tokens_from_run (t s cur : string) :
  word_chars t = true ->
  tokens_from cur (t +:+ s) = tokens_from (cur +:+ t) s.
Proof.
  revert cur. induction t as [|c t IH]; intros cur Hw; simpl.
  - rewrite str_app_empty_r. reflexivity.
  - simpl in Hw. apply andb_prop in Hw as [Hc Hw]. rewrite Hc.
    rewrite (IH _ Hw), str_app_assoc. reflexivity.
Qed.

Lemma flush_token (t : string) : is_token t = true -> flush t = [t].
Proof.
  unfold flush, is_token. intros H. apply andb_prop in H as [He _].
  apply negb_true_iff in He. rewrite He. reflexivity.
Qed.

Lemma tokens_from_last (t : string) :
  is_token t = true -> tokens_from EmptyString t = [t].
Proof.
  intros Ht. pose proof Ht as Ht'. apply andb_prop in Ht' as [_ Hw].
  rewrite <- (str_app_empty_r t) at 1. rewrite (tokens_from_run _ _ _ Hw).
  rewrite str_app_nil. simpl. apply flush_token. exact Ht.
Qed.

Lemma tokens_from_joined (ts : list string) (t : string) :
  Forall (fun t => is_token t = true) ts ->
  is_token t = true ->
  tokens_from EmptyString (String.concat " " (t :: ts)) = t :: ts.
Proof.
  intros Hts. revert t. induction Hts as [|t' ts Ht' Hts IH]; intros t Ht.
  - apply tokens_from_last. exact Ht.
  - pose proof Ht as Hw. apply andb_prop in Hw as [_ Hw].
    change (String.concat " " (t :: t' :: ts))
      with (t +:+ String " " (String.concat " " (t' :: ts))).
    rewrite (tokens_from_run _ _ _ Hw), str_app_nil.
    change (tokens_from t (String " " (String.concat " " (t' :: ts))))
      with (flush t ++ tokens_from EmptyString (String.concat " " (t' :: ts))).
    rewrite (flush_token _ Ht), (IH _ Ht'). reflexivity.
Qed.

(** X2: the tokenizer gives back the tokens of a text that was made by
    joining tokens with single spaces. *)
Theorem sent_tokenizer_join (ts : list string) :
  Forall (fun t => is_token t = true) ts ->
  sent_tokenizer (String.concat " " ts) = ts.
Proof.
  intros Hts. destruct Hts as [|t ts Ht Hts]; [reflexivity|].
  apply tokens_from_joined; assumption.
Qed.

Lemma sent_tokenizer_join_witness :
  Forall (fun t => is_token t = true) ["the"; "cat_2"; "sat"]
  /\ sent_tokenizer "the cat_2 sat" = ["the"; "cat_2"; "sat"].
Proof.
  split.
  - repeat constructor.
  - apply (sent_tokenizer_join ["the"; "cat_2"; "sat"]). repeat constructor.
Defined.

(** ** Order and totals of the vocabulary *)

Lemma ordered_tail {A} (le : A -> A -> bool) (a : A) (l : list A) :
  ordered le (a :: l) -> ordered le l.
Proof. destruct l as [|b l]; simpl; tauto. Qed.

Lemma insert_by_ordered {A} (le : A -> A -> bool) (x : A) (l : list A) :
  (forall a b, le a b = false -> le b a = true) ->
  ordered le l -> ordered le (insert_by le x l).
Proof.
  intros Htot. induction l as [|y l IH]; intros Hl; [exact I|].
  cbn [insert_by]. destruct (le x y) eqn:Hxy.
  - split; assumption.
  - specialize (IH (ordered_tail _ _ _ Hl)).
    destruct l as [|z l].
    + simpl. split; [apply Htot; exact Hxy|exact I].
    + cbn [insert_by] in IH |- *. destruct (le x z) eqn:Hxz.
      * split; [apply Htot; exact Hxy|exact IH].
      * split; [apply Hl|exact IH].
Qed.

Lemma sort_by_ordered {A} (le : A -> A -> bool) (l : list A) :
  (forall a b, le a b = false -> le b a = true) ->
  ordered le (sort_by le l).
Proof.
  intros Htot. induction l as [|x l IH]; [exact I|].
  apply insert_by_ordered; assumption.
Qed.

Lemma ordered_map {A B} (f : A -> B) (leA : A -> A -> bool) (leB : B -> B -> bool)
    (l : list A) :
  (forall a b, leB (f a) (f b) = leA a b) ->
  ordered leA l -> ordered leB (map f l).
Proof.
  intros Hf. induction l as [|a l IH]; [exact (fun H => H)|].
  destruct l as [|b l]; [exact (fun H => H)|].
  intros [Hab Hl]. split; [rewrite Hf; exact Hab|apply IH; exact Hl].
Qed.

Lemma insert_by_perm {A} (le : A -> A -> bool) (x : A) (l : list A) :
  Permutation (insert_by le x l) (x :: l).
Proof.
  induction l as [|y l IH]; [reflexivity|].
  cbn [insert_by]. destruct (le x y); [reflexivity|].
  rewrite IH. apply perm_swap.
Qed.

Lemma sort_by_perm {A} (le : A -> A -> bool) (l : list A) :
  Permutation (sort_by le l) l.
Proof.
  induction l as [|x l IH]; [reflexivity|].
  unfold sort_by in *. cbn [fold_right]. rewrite insert_by_perm, IH. reflexivity.
Qed.

Lemma leb_total_false (a b : string) :
  String.leb a b = false -> String.leb b a = true.
Proof. destruct (String.leb_total a b) as [H|H]; congruence. Qed.

Lemma sorted_sort_by (l : list string) : sorted l = sort_by String.leb l.
Proof.
  assert (Hins : forall x m, insert_sorted x m = insert_by String.leb x m).
  { intros x m. induction m as [|y m IH]; [reflexivity|].
    simpl. rewrite IH. reflexivity. }
  induction l as [|x l IH]; [reflexivity|].
  unfold sorted, sort_by in *. cbn [fold_right]. rewrite IH. apply Hins.
Qed.

Lemma sorted_ordered (l : list string) : ordered String.leb (sorted l).
Proof. rewrite sorted_sort_by. apply sort_by_ordered, leb_total_false. Qed.

Lemma sorted_perm (l : list string) : Permutation (sorted l) l.
Proof. rewrite sorted_sort_by. apply sort_by_perm. Qed.

Lemma fit_sorted (docs : list (list string)) (F : list string) :
  fit docs = Ok F -> F = sorted (nodup String.string_dec (concat docs)).
Proof. unfold fit. destruct (sorted _); congruence. Qed.

Lemma fit_no_dup (docs : list (list string)) (F : list string) :
  fit docs = Ok F -> List.NoDup F.
Proof.
  intros H. rewrite (fit_sorted _ _ H).
  apply (Permutation_NoDup (l := nodup String.string_dec (concat docs)));
    [symmetry; apply sorted_perm | apply NoDup_nodup].
Qed.

Lemma fit_some_token (docs : list (list string)) :
  concat docs <> [] -> exists F, fit docs = Ok F.
Proof.
  intros Hne. unfold fit.
  destruct (sorted (nodup String.string_dec (concat docs))) as [|w F] eqn:Hs;
    [|eexists; reflexivity].
  exfalso. destruct (concat docs) as [|t ts] eqn:Hc; [congruence|].
  assert (Hin : In t (sorted (nodup String.string_dec (t :: ts)))).
  { apply in_sorted, nodup_In. left. reflexivity. }
  rewrite Hs in Hin. exact Hin.
Qed.

(** X3: the words of the table [count_vocab_frequencies] returns are
    exactly the tokens of the corpus, each once, in ascending order. *)
Theorem count_vocab_frequencies_words (tokenized_df : list tok_row) (df : DataFrame) :
  count_vocab_frequencies tokenized_df = Ok df ->
  exists ws,
    df_index df = map CStr ws
    /\ List.NoDup ws
    /\ ordered String.leb ws
    /\ forall w, In w ws <-> In w (concat (map tokenized_field tokenized_df)).
Proof.
  rewrite count_vocab_frequencies_totals.
  destruct (fit (map tokenized_field tokenized_df)) as [F|e] eqn:HF; simpl;
    [|discriminate].
  intros H. injection H as <-. exists F. split; [|split; [|split]].
  - unfold df_index, word_count_frame. cbn [rows]. rewrite !map_map. reflexivity.
  - apply (fit_no_dup _ _ HF).
  - rewrite (fit_sorted _ _ HF). apply sorted_ordered.
  - intros w. apply (fit_features _ _ _ HF).
Qed.

Lemma count_vocab_frequencies_words_witness :
  count_vocab_frequencies (tokenize_batch ["The Cat sat"; "a cat"])
  = Ok (word_count_frame [("a", 1%Z); ("cat", 2%Z); ("sat", 1%Z); ("the", 1%Z)])
  /\ exists ws,
    df_index (word_count_frame [("a", 1%Z); ("cat", 2%Z); ("sat", 1%Z); ("the", 1%Z)])
    = map CStr ws
    /\ List.NoDup ws
    /\ ordered String.leb ws
    /\ forall w, In w ws
         <-> In w (concat (map tokenized_field (tokenize_batch ["The Cat sat"; "a cat"]))).
Proof.
  split; [vm_compute; reflexivity|].
  apply (count_vocab_frequencies_words (tokenize_batch ["The Cat sat"; "a cat"])).
  vm_compute. reflexivity.
Defined.

Lemma count_token_cons (w x : string) (l : list string) :
  count_token w (x :: l)
  = ((if String.string_dec x w then 1 else 0) + count_token w l)%Z.
Proof.
  unfold count_token. cbn [count_occ].
  destruct (String.string_dec x w); lia.
Qed.

Lemma sum_indicator (x : string) (m : list string) :
  List.NoDup m ->
  fold_right Z.add 0%Z (map (fun w => if String.string_dec x w then 1 else 0)%Z m)
  = (if in_dec String.string_dec x m then 1 else 0)%Z.
Proof.
  induction 1 as [|y m Hy Hm IH]; [reflexivity|].
  cbn [map fold_right]. rewrite IH.
  destruct (String.string_dec x y) as [->|Hxy].
  - destruct (in_dec String.string_dec y m) as [Hin|_]; [contradiction|].
    destruct (in_dec String.string_dec y (y :: m)) as [_|Hn]; [lia|].
    exfalso. apply Hn. left. reflexivity.
  - destruct (in_dec String.string_dec x m) as [Hin|Hn];
      destruct (in_dec String.string_dec x (y :: m)) as [Hin'|Hn']; try lia.
    + exfalso. apply Hn'. right. exact Hin.
    + exfalso. destruct Hin' as [->|Hin']; [apply Hxy; reflexivity|contradiction].
Qed.

Lemma sum_map_add {A} (f g : A -> Z) (m : list A) :
  fold_right Z.add 0%Z (map (fun w => (f w + g w)%Z) m)
  = (fold_right Z.add 0%Z (map f m) + fold_right Z.add 0%Z (map g m))%Z.
Proof. induction m as [|x m IH]; cbn [map fold_right]; lia. Qed.

(** Counting each word of a duplicate-free list that covers [l] counts
    every element of [l] once. *)
Lemma sum_count_tokens (m l : list string) :
  List.NoDup m -> (forall x, In x l -> In x m) ->
  fold_right Z.add 0%Z (map (fun w => count_token w l) m) = Z.of_nat (length l).
Proof.
  intros Hm. induction l as [|x l IH]; intros Hl.
  - induction m as [|y m IHm]; [reflexivity|].
    cbn [map fold_right].
    rewrite IHm; [reflexivity | inversion Hm; assumption | intros ? []].
  - rewrite (map_ext _ (fun w => ((if String.string_dec x w then 1 else 0)
                                  + count_token w l)%Z))
      by (intros w; apply count_token_cons).
    rewrite sum_map_add, (sum_indicator _ _ Hm).
    rewrite IH by (intros y Hy; apply Hl; right; exact Hy).
    destruct (in_dec String.string_dec x m) as [_|Hn].
    + cbn [length]. lia.
    + exfalso. apply Hn, Hl. left. reflexivity.
Qed.

Lemma count_token_pos (w : string) (l : list string) :
  In w l -> (1 <= count_token w l)%Z.
Proof.
  intros H. unfold count_token.
  apply (count_occ_In String.string_dec) in H. lia.
Qed.

(** X4: in the table [count_vocab_frequencies] returns every word has the
    number of its occurrences in the corpus, which is at least one, and
    the counts add up to the number of tokens of the corpus. *)
Theorem count_vocab_frequencies_counts (tokenized_df : list tok_row) (df : DataFrame) :
  count_vocab_frequencies tokenized_df = Ok df ->
  exists l,
    df = word_count_frame l
    /\ (forall w c, In (w, c) l ->
          c = token_total (map tokenized_field tokenized_df) w /\ (1 <= c)%Z)
    /\ total_count l
       = Z.of_nat (length (concat (map tokenized_field tokenized_df))).
Proof.
  rewrite count_vocab_frequencies_totals.
  destruct (fit (map tokenized_field tokenized_df)) as [F|e] eqn:HF; simpl;
    [|discriminate].
  intros H. injection H as <-. eexists. split; [reflexivity|]. split.
  - intros w c Hin. apply in_map_iff in Hin as [w' [Heq Hin]].
    injection Heq as -> <-. split; [reflexivity|].
    apply count_token_pos, (fit_features _ _ _ HF). exact Hin.
  - unfold total_count. rewrite map_map. cbn [snd]. unfold token_total.
    apply sum_count_tokens; [apply (fit_no_dup _ _ HF)|].
    intros x Hx. apply (fit_features _ _ _ HF). exact Hx.
Qed.

Lemma count_vocab_frequencies_counts_witness :
  count_vocab_frequencies (tokenize_batch ["The Cat sat"; "a cat"])
  = Ok (word_count_frame [("a", 1%Z); ("cat", 2%Z); ("sat", 1%Z); ("the", 1%Z)])
  /\ exists l,
    word_count_frame [("a", 1%Z); ("cat", 2%Z); ("sat", 1%Z); ("the", 1%Z)]
    = word_count_frame l
    /\ (forall w c, In (w, c) l ->
          c = token_total (map tokenized_field (tokenize_batch ["The Cat sat"; "a cat"])) w
          /\ (1 <= c)%Z)
    /\ total_count l
       = Z.of_nat (length (concat (map tokenized_field
                                     (tokenize_batch ["The Cat sat"; "a cat"])))).
Proof.
  split; [vm_compute; reflexivity|].
  apply (count_vocab_frequencies_counts (tokenize_batch ["The Cat sat"; "a cat"])).
  vm_compute. reflexivity.
Defined.

(** ** The vocabulary pipeline *)


Lemma sum_perm (l l' : list Z) :
  Permutation l l' -> fold_right Z.add 0%Z l = fold_right Z.add 0%Z l'.
Proof. induction 1; cbn [fold_right]; lia. Qed.

(** X5: [calc_p_word] only rearranges the rows it is given, and returns
    them by non-increasing count. *)
Theorem calc_p_word_sorted (l : list (string * Z)) :
  exists out,
    calc_p_word (word_count_frame l) = Ok (vocab_counts_frame out)
    /\ Permutation out (with_proportions (total_count l) l)
    /\ ordered (fun a b => (snd (fst b) <=? snd (fst a))%Z) out.
Proof.
  exists (by_count_desc (with_proportions (total_count l) l)).
  split; [apply calc_p_word_frame|]. split.
  - apply sort_by_perm.
  - apply sort_by_ordered. intros a b H. apply Z.leb_gt in H. apply Z.leb_le. lia.
Qed.


Lemma with_proportions_counts (t : Z) (l : list (string * Z)) :
  map (fun x => snd (fst x)) (with_proportions t l) = map snd l.
Proof. unfold with_proportions. rewrite map_map. reflexivity. Qed.

Lemma vocabulary_frame (tokenized_df : list tok_row) (wc v : DataFrame) :
  count_vocab_frequencies tokenized_df = Ok wc ->
  calc_p_word wc = Ok v ->
  let docs := map tokenized_field tokenized_df in
  let n := Z.of_nat (length (concat docs)) in
  exists out,
    v = vocab_counts_frame out
    /\ (0 < n)%Z
    /\ fold_right Z.add 0%Z (map (fun x => snd (fst x)) out) = n
    /\ List.NoDup (map (fun x => fst (fst x)) out)
    /\ (forall w, In w (concat docs) -> In w (map (fun x => fst (fst x)) out))
    /\ forall x, In x out ->
         snd (fst x) = token_total docs (fst (fst x))
         /\ In (fst (fst x)) (concat docs)
         /\ snd x = Fin (inject_Z (snd (fst x)) / inject_Z n)%Q.
Proof.
  intros Hwc Hv docs n.
  rewrite count_vocab_frequencies_totals in Hwc. fold docs in Hwc.
  destruct (fit docs) as [F|e] eqn:HF; simpl in Hwc; [|discriminate].
  injection Hwc as <-.
  set (l := map (fun w => (w, token_total docs w)) F) in *.
  assert (Htot : total_count l = n).
  { unfold total_count, l. rewrite map_map. cbn [snd]. unfold token_total.
    apply sum_count_tokens; [apply (fit_no_dup _ _ HF)|].
    intros x Hx. apply (fit_features _ _ _ HF). exact Hx. }
  assert (Hfst : map fst l = F).
  { unfold l. rewrite map_map. cbn [fst]. apply map_id. }
  assert (Hn : (0 < n)%Z).
  { unfold n. destruct (concat docs) as [|t ts] eqn:Hc; [|cbn [length]; lia].
    exfalso. unfold fit in HF. rewrite Hc in HF. discriminate HF. }
  rewrite calc_p_word_frame in Hv. injection Hv as <-.
  exists (by_count_desc (with_proportions (total_count l) l)).
  assert (Hwords : Permutation
            (map (fun x : string * Z * pyfloat => fst (fst x))
                 (by_count_desc (with_proportions (total_count l) l))) F).
  { etransitivity; [apply Permutation_map, sort_by_perm|].
    unfold with_proportions. rewrite map_map. cbn [fst]. rewrite <- Hfst.
    reflexivity. }
  split; [reflexivity|]. split; [exact Hn|]. split; [|split; [|split]].
  - rewrite <- Htot. unfold total_count at 2.
    rewrite <- (with_proportions_counts (total_count l) l).
    apply sum_perm, Permutation_map, sort_by_perm.
  - apply (Permutation_NoDup (l := F));
      [symmetry; exact Hwords | apply (fit_no_dup _ _ HF)].
  - intros w Hw. apply (Permutation_in (l := F)); [symmetry; exact Hwords|].
    apply (fit_features _ _ _ HF). exact Hw.
  - intros x Hx. apply in_sort_by in Hx. unfold with_proportions in Hx.
    apply in_map_iff in Hx as [[w c] [<- Hin]]. cbn [fst snd].
    unfold l in Hin. apply in_map_iff in Hin as [w' [Heq Hw]].
    injection Heq as -> <-. split; [reflexivity|]. split.
    + apply (fit_features _ _ _ HF). exact Hw.
    + rewrite Htot. apply fdiv_nonzero. lia.
Qed.

(** X6: on a corpus without tokens [count_vocab_frequencies] raises the
    vectorizer's ValueError; on every other corpus counting, [calc_p_word]
    and [filter_vocab] all return. *)
Theorem vocabulary_pipeline_returns (sw : list string) (tokenized_df : list tok_row) :
  match concat (map tokenized_field tokenized_df) with
  | [] => count_vocab_frequencies tokenized_df = Err ValueError
  | _ :: _ =>
      exists wc v f,
        count_vocab_frequencies tokenized_df = Ok wc
        /\ calc_p_word wc = Ok v
        /\ filter_vocab sw v = Ok f
  end.
Proof.
  destruct (concat (map tokenized_field tokenized_df)) as [|t ts] eqn:Hc.
  - apply count_vocab_frequencies_no_tokens. exact Hc.
  - destruct (fit_some_token (map tokenized_field tokenized_df)) as [F HF];
      [congruence|].
    rewrite count_vocab_frequencies_totals, HF. cbn [rbind].
    eexists. eexists. eexists. split; [reflexivity|].
    split; [apply calc_p_word_frame|]. apply filter_vocab_frame.
Qed.



(** ** Filtering again, and the index of a loaded vocabulary *)

Lemma counts_of_with_proportions (t : Z) (l : list (string * Z)) :
  counts_of (with_proportions t l) = l.
Proof.
  unfold counts_of, with_proportions. rewrite map_map. cbn [fst].
  rewrite <- (map_id l) at 2. apply map_ext. intros [w c]. reflexivity.
Qed.

Lemma filter_all {A} (p : A -> bool) (l : list A) :
  (forall x, In x l -> p x = true) -> List.filter p l = l.
Proof.
  induction l as [|x l IH]; intros H; [reflexivity|].
  cbn [List.filter]. rewrite (H x (or_introl eq_refl)), IH; [reflexivity|].
  intros y Hy. apply H. right. exact Hy.
Qed.

Lemma open_class_again (closed : list string) (t : Z) (V : list (string * Z * pyfloat)) :
  open_class closed (with_proportions t (counts_of (open_class closed V)))
  = with_proportions t (counts_of (open_class closed V)).
Proof.
  unfold open_class at 1. apply filter_all. intros x Hx.
  unfold with_proportions in Hx. apply in_map_iff in Hx as [wc [<- Hwc]].
  cbn [fst]. unfold counts_of in Hwc. apply in_map_iff in Hwc as [y [<- Hy]].
  unfold open_class in Hy. apply filter_In in Hy as [_ Hy]. exact Hy.
Qed.

(** X8: filtering a filtered vocabulary changes nothing: [filter_vocab]
    applied to its own result returns that result. *)
Theorem filter_vocab_idempotent (sw : list string) (V : list (string * Z * pyfloat)) :
  (f <- filter_vocab sw (vocab_counts_frame V) ;; filter_vocab sw f)%res
  = filter_vocab sw (vocab_counts_frame V).
Proof.
  rewrite (filter_vocab_frame sw V). cbv zeta. cbn [rbind].
  rewrite filter_vocab_frame. cbv zeta.
  rewrite open_class_again, counts_of_with_proportions. reflexivity.
Qed.

Lemma put_column_index_name (df : DataFrame) (c : string) (vs : list cell) :
  index_name (put_column df c vs) = index_name df.
Proof. unfold put_column. destruct (find_col (columns df) c); reflexivity. Qed.

Lemma set_idx_col_names_cases (df df' : DataFrame) :
  _set_idx_col_names df = Ok df' ->
  df' = df
  /\ negb (bool_decide (index_name df = Some VOCAB)) && str_in VOCAB (columns df) = false
  \/ index_name df' = Some VOCAB.
Proof.
  unfold _set_idx_col_names.
  destruct (negb (bool_decide (index_name df = Some VOCAB))
            && str_in VOCAB (columns df)) eqn:Hc.
  - intros H. right. unfold set_index in H.
    destruct (find_col (columns df) VOCAB) as [j|]; cbn [rbind] in H; [|discriminate].
    unfold assign_values in H.
    destruct (length _ =? length _); [|discriminate].
    injection H as <-. rewrite put_column_index_name. reflexivity.
  - intros H. injection H as <-. left. split; reflexivity.
Qed.

(** X9: [_set_idx_col_names] settles after one call: applied to its own
    result it returns that result unchanged, and a result that has a
    vocab column is indexed under the name vocab. *)
Theorem set_idx_col_names_idempotent (df df' : DataFrame) :
  _set_idx_col_names df = Ok df' ->
  _set_idx_col_names df' = Ok df'
  /\ (In VOCAB (columns df') -> index_name df' = Some VOCAB).
Proof.
  intros H. destruct (set_idx_col_names_cases _ _ H) as [[-> Hc]|Hn].
  - split.
    + unfold _set_idx_col_names. rewrite Hc. reflexivity.
    + intros Hin. apply str_in_iff in Hin. rewrite Hin, andb_true_r in Hc.
      apply negb_false_iff, bool_decide_eq_true in Hc. exact Hc.
  - split; [|intros _; exact Hn].
    unfold _set_idx_col_names. rewrite Hn.
    rewrite bool_decide_eq_true_2 by reflexivity. reflexivity.
Qed.

Lemma set_idx_col_names_idempotent_witness :
  _set_idx_col_names
    (mkDF None ["count"; "vocab"] [(CInt 0, [CInt 2; CStr "cat"]); (CInt 1, [CInt 1; CStr "a"])])
  = Ok (mkDF (Some "vocab") ["count"; "vocab"]
          [(CStr "cat", [CInt 2; CStr "cat"]); (CStr "a", [CInt 1; CStr "a"])])
  /\ _set_idx_col_names
       (mkDF (Some "vocab") ["count"; "vocab"]
          [(CStr "cat", [CInt 2; CStr "cat"]); (CStr "a", [CInt 1; CStr "a"])])
     = Ok (mkDF (Some "vocab") ["count"; "vocab"]
             [(CStr "cat", [CInt 2; CStr "cat"]); (CStr "a", [CInt 1; CStr "a"])]).
Proof.
  split; [vm_compute; reflexivity|].
  apply (set_idx_col_names_idempotent
           (mkDF None ["count"; "vocab"]
              [(CInt 0, [CInt 2; CStr "cat"]); (CInt 1, [CInt 1; CStr "a"])])).
  vm_compute. reflexivity.
Defined.

(** X10: on a vocabulary as [calc_p_word] builds it, [_set_idx_col_names]
    changes the name of the index from word to vocab and nothing else:
    the rows, the columns and their order stay. *)
Theorem set_idx_col_names_vocabulary (V : list (string * Z * pyfloat)) :
  _set_idx_col_names (vocab_counts_frame V)
  = Ok (with_index_name (Some VOCAB) (vocab_counts_frame V)).
Proof.
  unfold _set_idx_col_names, vocab_counts_frame. cbn [index_name columns].
  change (negb (bool_decide (Some WORD = Some VOCAB)) && str_in VOCAB [CNT; PROP; VOCAB])
    with true. cbn iota.
  unfold set_index. cbn [columns].
  change (find_col [CNT; PROP; VOCAB] VOCAB) with (Some 2). cbn [rbind rows].
  unfold assign_values, df_index. cbn [rows]. rewrite !map_map, !length_map.
  rewrite Nat.eqb_refl. unfold put_column. cbn [columns rows index_name].
  change (find_col (remove_nth 2 [CNT; PROP; VOCAB]) VOCAB) with (@None nat).
  cbn iota. unfold with_index_name. cbn [columns rows]. f_equal. f_equal.
  rewrite combine_map2, map_map. reflexivity.
Qed.

(** ** The files of a term *)










Lemma define_subgroup_files_from (l : list string) (dir s : string)
    (acc : gmap string (string * string * string)) :
  fold_left
    (fun subgroup_files subgroup =>
       <[subgroup := (pjoin dir (subgroup +:+ "_npmi.csv"),
                      pjoin dir (subgroup +:+ "_pmi.csv"),
                      pjoin dir (subgroup +:+ "_vocab_cooc.csv"))]> subgroup_files)
    l acc !! s
  = if str_in s l then Some (subgroup_fids dir s) else acc !! s.
Proof.
  revert acc. induction l as [|x l IH]; intros acc; [reflexivity|].
  cbn [fold_left]. rewrite IH. unfold str_in. cbn [existsb].
  fold (str_in s l). destruct (str_in s l); [rewrite orb_true_r; reflexivity|].
  rewrite orb_false_r. destruct (String.eqb_spec s x) as [->|Hne].
  - rewrite lookup_insert_eq. reflexivity.
  - rewrite lookup_insert_ne by congruence. reflexivity.
Qed.

Lemma define_subgroup_files_in (l : list string) (dir s : string) :
  In s l -> define_subgroup_files l dir !! s = Some (subgroup_fids dir s).
Proof.
  intros Hin. unfold define_subgroup_files. rewrite define_subgroup_files_from.
  apply str_in_iff in Hin. rewrite Hin. reflexivity.
Qed.


(** ** Writing the tables of a term and loading them *)



Lemma write_subgroup_run (subgroup dir : string) (l : list string)
    (dict : gmap string (DataFrame * DataFrame * DataFrame))
    (cooc pmi npmi : DataFrame) (st : NpmiStats) :
  In subgroup l -> dict !! subgroup = Some (cooc, pmi, npmi) ->
  write_subgroup_npmi_data subgroup dict (define_subgroup_files l dir) st
  = (Ok tt,
     n_write_file (pjoin dir (subgroup +:+ "_vocab_cooc.csv")) (to_csv cooc)
       (n_write_file (pjoin dir (subgroup +:+ "_pmi.csv")) (to_csv pmi)
          (n_write_file (pjoin dir (subgroup +:+ "_npmi.csv")) (to_csv npmi) st))).
Proof.
  intros Hin Hd. unfold write_subgroup_npmi_data, bind, lift, dict_get.
  rewrite (define_subgroup_files_in _ _ _ Hin), Hd. reflexivity.
Qed.



(** ** Pair tables: bounds, what is written, what is not recomputed *)

(** X13: a pair list with fewer than two terms is an IndexError, raised
    before anything is read or written. *)
Theorem joint_npmi_needs_two_terms (eng : metrics_engine) (subgroup_pair : list string)
    (st : NpmiStats) :
  length subgroup_pair < 2 ->
  load_or_prepare_joint_npmi eng subgroup_pair st = (Err IndexError, st).
Proof.
  intros Hlen. rewrite <- (length_sorted subgroup_pair) in Hlen.
  unfold load_or_prepare_joint_npmi, bind, lift.
  destruct (sorted subgroup_pair) as [|a [|b l]]; cbn [length] in Hlen;
    [reflexivity | reflexivity | lia].
Qed.

Lemma joint_npmi_needs_two_terms_witness :
  length ["he"] < 2
  /\ load_or_prepare_joint_npmi example_tables ["he"] example_npmi
     = (Err IndexError, example_npmi).
Proof.
  split; [cbn [length]; lia|].
  apply (joint_npmi_needs_two_terms example_tables ["he"] example_npmi).
  cbn [length]. lia.
Defined.

Lemma exists_insert (d : gmap string file) (fid fid' : string) (f : file) :
  exists_ d fid = true -> exists_ (<[fid' := f]> d) fid = true.
Proof.
  unfold exists_. destruct (decide (fid' = fid)) as [->|Hne].
  - rewrite lookup_insert_eq. reflexivity.
  - rewrite lookup_insert_ne by exact Hne. exact (fun H => H).
Qed.

Lemma exists_insert_eq (d : gmap string file) (fid : string) (f : file) :
  exists_ (<[fid := f]> d) fid = true.
Proof. unfold exists_. rewrite lookup_insert_eq. reflexivity. Qed.

Lemma write_subgroup_effect (s : string)
    (dict : gmap string (DataFrame * DataFrame * DataFrame))
    (files : gmap string (string * string * string)) (st st1 : NpmiStats) :
  write_subgroup_npmi_data s dict files st = (Ok tt, st1) ->
  st1 = n_set_disk (n_disk st1) st
  /\ (forall fid, exists_ (n_disk st) fid = true -> exists_ (n_disk st1) fid = true)
  /\ (forall fids fid, files !! s = Some fids -> In fid (fids_list fids) ->
        exists_ (n_disk st1) fid = true).
Proof.
  unfold write_subgroup_npmi_data, bind, lift, modify, dict_get.
  destruct (files !! s) as [[[f1 f2] f3]|]; [|discriminate].
  destruct (dict !! s) as [[[d1 d2] d3]|]; [|discriminate].
  intros H. injection H as <-. destruct st as [[ds dk] a b c e f g h].
  unfold n_disk, n_write_file, write_file, n_set_disk. cbn.
  split; [reflexivity|]. split.
  - intros fid H. repeat apply exists_insert. exact H.
  - intros fids fid Hf Hin. injection Hf as <-. cbn [fids_list In] in Hin.
    destruct Hin as [<-|[<-|[<-|[]]]].
    + do 2 apply exists_insert. apply exists_insert_eq.
    + apply exists_insert. apply exists_insert_eq.
    + apply exists_insert_eq.
Qed.

Lemma n_set_disk_twice (d d' : gmap string file) (st : NpmiStats) :
  n_set_disk d (n_set_disk d' st) = n_set_disk d st.
Proof. reflexivity. Qed.

Lemma for_each_write_effect (l : list string)
    (dict : gmap string (DataFrame * DataFrame * DataFrame))
    (files : gmap string (string * string * string)) (st st1 : NpmiStats) :
  for_each l (fun s => write_subgroup_npmi_data s dict files) st = (Ok tt, st1) ->
  st1 = n_set_disk (n_disk st1) st
  /\ (forall fid, exists_ (n_disk st) fid = true -> exists_ (n_disk st1) fid = true)
  /\ (forall s fids fid, In s l -> files !! s = Some fids -> In fid (fids_list fids) ->
        exists_ (n_disk st1) fid = true).
Proof.
  revert st. induction l as [|x l IH]; intros st H.
  - injection H as <-. split; [destruct st as [[ds dk] a b c e f g h]; reflexivity|].
    split; [exact (fun _ H => H)|]. intros s fids fid [].
  - cbn [for_each] in H. unfold bind at 1 in H.
    destruct (write_subgroup_npmi_data x dict files st) as [[[]|e] st0] eqn:Ew;
      [|discriminate H].
    destruct (write_subgroup_effect _ _ _ _ _ Ew) as (Hs0 & Hk0 & Hw0).
    destruct (IH _ H) as (Hs1 & Hk1 & Hw1).
    split; [rewrite Hs1, Hs0 at 1; apply n_set_disk_twice|].
    split; [intros fid Hf; apply Hk1, Hk0, Hf|].
    intros s fids fid [<-|Hin] Hf Hfid.
    + apply Hk1. apply (Hw0 fids); assumption.
    + apply (Hw1 s fids); assumption.
Qed.

(** X14: when [load_or_prepare_joint_npmi] computes the pair table (the
    pair file is missing, or caching is off) and returns it, the pair
    file holds that table afterwards and the three files of each term of
    the pair exist, whatever the save flag says; no file is removed, and
    nothing but the cache directory has changed. *)
Theorem computed_pair_is_written (eng : metrics_engine) (subgroup_pair : list string)
    (st st' : NpmiStats) (joint : DataFrame) :
  n_use_cache st && exists_ (n_disk st) (joint_npmi_fid st subgroup_pair) = false ->
  load_or_prepare_joint_npmi eng subgroup_pair st = (Ok joint, st') ->
  n_disk st' !! joint_npmi_fid st subgroup_pair = Some (to_csv joint)
  /\ (forall s, In s subgroup_pair ->
        tables_present (n_disk st') (pmi_dataset_cache_dir st) s = true)
  /\ (forall fid, exists_ (n_disk st) fid = true -> exists_ (n_disk st') fid = true)
  /\ st' = n_set_disk (n_disk st') st.
Proof.
  intros Hc Hrun. unfold load_or_prepare_joint_npmi, bind, lift, gets in Hrun.
  destruct (py_index (sorted subgroup_pair) 0) as [s1|]; [|discriminate Hrun].
  destruct (py_index (sorted subgroup_pair) 1) as [s2|]; [|discriminate Hrun].
  unfold joint_npmi_fid in Hc |- *. rewrite Hc in Hrun.
  destruct (prepare_joint_npmi_df eng st (sorted subgroup_pair) _)
    as [[joint0 dict]|]; [|discriminate Hrun].
  destruct (for_each _ _ st) as [[[]|e] st1] eqn:Ef; [|discriminate Hrun].
  unfold modify, ret in Hrun. injection Hrun as <- <-.
  destruct (for_each_write_effect _ _ _ _ _ Ef) as (Hs & Hk & Hw).
  split; [|split; [|split]].
  - unfold n_disk, n_write_file, write_file. cbn [n_world disk].
    apply lookup_insert_eq.
  - intros s Hin. apply (proj2 (in_sorted _ _)) in Hin.
    pose proof (define_subgroup_files_in _ (pmi_dataset_cache_dir st) _ Hin) as Hf.
    assert (Hall : forall fid,
               In fid (fids_list (subgroup_fids (pmi_dataset_cache_dir st) s)) ->
               exists_ (n_disk (n_write_file
                 (pjoin (pmi_dataset_cache_dir st)
                    (String.concat "-" (sorted subgroup_pair) +:+ "_npmi.csv"))
                 (to_csv joint0) st1)) fid = true).
    { intros fid Hfid. unfold n_disk, n_write_file, write_file. cbn [n_world disk].
      apply exists_insert. apply (Hw s _ fid Hin Hf Hfid). }
    unfold tables_present, subgroup_fids in *. cbn [fids_list In] in Hall.
    rewrite !Hall by tauto. reflexivity.
  - intros fid Hfid. unfold n_disk, n_write_file, write_file. cbn [n_world disk].
    apply exists_insert, Hk, Hfid.
  - rewrite Hs at 1. destruct st as [[ds dk] a b c e f g h]. reflexivity.
Qed.

Lemma computed_pair_is_written_witness :
  n_use_cache example_npmi
    && exists_ (n_disk example_npmi) (joint_npmi_fid example_npmi ["she"; "he"]) = false
  /\ exists joint st',
       load_or_prepare_joint_npmi example_tables ["she"; "he"] example_npmi = (Ok joint, st')
       /\ n_disk st' !! joint_npmi_fid example_npmi ["she"; "he"] = Some (to_csv joint)
       /\ tables_present (n_disk st') (pmi_dataset_cache_dir example_npmi) "she" = true.
Proof.
  split; [reflexivity|].
  destruct (load_or_prepare_joint_npmi example_tables ["she"; "he"] example_npmi)
    as [[joint|e] st'] eqn:E; [|vm_compute in E; discriminate E].
  destruct (computed_pair_is_written example_tables ["she"; "he"] example_npmi st' joint
              eq_refl E) as (H1 & H2 & _).
  exists joint, st'. split; [reflexivity|]. split; [exact H1|].
  apply H2. left. reflexivity.
Defined.

Lemma load_none_absent (d : gmap string file) (dir s : string) :
  load_or_fail_cached_npmi_scores d s (subgroup_fids dir s) = Ok None ->
  tables_present d dir s = false.
Proof.
  unfold load_or_fail_cached_npmi_scores, tables_present, subgroup_fids.
  destruct (exists_ d _ && exists_ d _ && exists_ d _); [|reflexivity].
  intros H. exfalso. revert H.
  repeat match goal with
         | |- context [rbind ?x _] => destruct x; cbn [rbind]
         end; discriminate.
Qed.

Lemma load_fold_present (d : gmap string file) (dir : string)
    (files : gmap string (string * string * string)) (l : list string)
    (acc dict : gmap string (DataFrame * DataFrame * DataFrame)) :
  (forall s, In s l -> files !! s = Some (subgroup_fids dir s)) ->
  foldM (fun subgroup_dict subgroup =>
           (fids <- dict_get files subgroup ;;
            cached_results <- load_or_fail_cached_npmi_scores d subgroup fids ;;
            match cached_results with
            | Some t => Ok (<[subgroup := t]> subgroup_dict)
            | None => Ok subgroup_dict
            end)%res) l acc = Ok dict ->
  (forall s, is_Some (acc !! s) -> is_Some (dict !! s))
  /\ (forall s, In s l -> tables_present d dir s = true -> is_Some (dict !! s)).
Proof.
  revert acc. induction l as [|x l IH]; intros acc Hf H.
  - injection H as <-. split; [exact (fun _ H => H)|]. intros s [].
  - cbn [foldM] in H. unfold dict_get at 1 in H.
    rewrite (Hf x (or_introl eq_refl)) in H. cbn [rbind] in H.
    destruct (load_or_fail_cached_npmi_scores d x (subgroup_fids dir x))
      as [[t|]|e] eqn:El; cbn [rbind] in H; [| |discriminate H].
    + destruct (IH _ (fun s Hs => Hf s (or_intror Hs)) H) as [Hacc Hl].
      split.
      * intros s Hs. apply Hacc. destruct (decide (x = s)) as [->|Hne].
        -- rewrite lookup_insert_eq. eexists. reflexivity.
        -- rewrite lookup_insert_ne by exact Hne. exact Hs.
      * intros s [<-|Hin] Hp; [|apply Hl; assumption].
        apply Hacc. rewrite lookup_insert_eq. eexists. reflexivity.
    + destruct (IH _ (fun s Hs => Hf s (or_intror Hs)) H) as [Hacc Hl].
      split; [exact Hacc|].
      intros s [<-|Hin] Hp; [|apply Hl; assumption].
      apply load_none_absent in El. congruence.
Qed.

Lemma calc_fold_same (eng eng' : metrics_engine)
    (obj : option DataFrame * option (list tok_row)) (P : string -> Prop)
    (l : list string) (d : gmap string (DataFrame * DataFrame * DataFrame)) :
  (forall s, In s l -> P s \/ eng (fst obj) (snd obj) s = eng' (fst obj) (snd obj) s) ->
  (forall s, P s -> is_Some (d !! s)) ->
  foldM (fun subgroup_dict subgroup =>
           match subgroup_dict !! subgroup with
           | Some _ => Ok subgroup_dict
           | None =>
               (msg <- py_percent "Calculating npmi statistics for %s" subgroup ;;
                t <- calc_metrics eng obj subgroup ;;
                Ok (<[subgroup := t]> subgroup_dict))%res
           end) l d
  = foldM (fun subgroup_dict subgroup =>
             match subgroup_dict !! subgroup with
             | Some _ => Ok subgroup_dict
             | None =>
                 (msg <- py_percent "Calculating npmi statistics for %s" subgroup ;;
                  t <- calc_metrics eng' obj subgroup ;;
                  Ok (<[subgroup := t]> subgroup_dict))%res
             end) l d.
Proof.
  revert d. induction l as [|x l IH]; intros d Hl Hd; [reflexivity|].
  cbn [foldM]. destruct (d !! x) as [t|] eqn:Ex.
  - cbn [rbind]. apply IH; [intros s Hs; apply Hl; right; exact Hs | exact Hd].
  - assert (Heq : calc_metrics eng obj x = calc_metrics eng' obj x).
    { destruct (Hl x (or_introl eq_refl)) as [Hp|He].
      - apply Hd in Hp. rewrite Ex in Hp. destruct Hp as [? Hp]. discriminate Hp.
      - unfold calc_metrics. rewrite He. reflexivity. }
    rewrite Heq. destruct (py_percent _ x); cbn [rbind]; [|reflexivity].
    destruct (calc_metrics eng' obj x) as [t|e]; cbn [rbind]; [|reflexivity].
    apply IH; [intros s Hs; apply Hl; right; exact Hs|].
    intros s Hs. destruct (decide (x = s)) as [->|Hne].
    + rewrite lookup_insert_eq. eexists. reflexivity.
    + rewrite lookup_insert_ne by exact Hne. apply Hd, Hs.
Qed.

Lemma prepare_same (eng eng' : metrics_engine) (st : NpmiStats) (l : list string) :
  (forall s, In s l ->
     tables_present (n_disk st) (pmi_dataset_cache_dir st) s = true
     \/ eng (vocab_counts_df (dstats (n_world st))) (tokenized_df (dstats (n_world st))) s
        = eng' (vocab_counts_df (dstats (n_world st)))
               (tokenized_df (dstats (n_world st))) s) ->
  prepare_joint_npmi_df eng st l (define_subgroup_files l (pmi_dataset_cache_dir st))
  = prepare_joint_npmi_df eng' st l (define_subgroup_files l (pmi_dataset_cache_dir st)).
Proof.
  intros H. unfold prepare_joint_npmi_df.
  destruct (foldM _ l ∅) as [d0|e] eqn:Ef; [|reflexivity]. cbn [rbind].
  apply (load_fold_present _ (pmi_dataset_cache_dir st)) in Ef as [_ Hp];
    [|intros s Hs; apply define_subgroup_files_in; exact Hs].
  unfold do_npmi.
  rewrite (calc_fold_same eng eng' (set_npmi_obj st)
             (fun s => In s l /\ tables_present (n_disk st) (pmi_dataset_cache_dir st) s = true)).
  - reflexivity.
  - intros s Hs. apply (proj1 (in_sorted _ _)) in Hs. destruct (H s Hs) as [Hp'|He];
      [left; split; assumption | right; exact He].
  - intros s [Hs Hp']. apply Hp; assumption.
Qed.

(** X15: a term whose three files are in the cache directory is not
    computed again, whether caching is on or off: two engines that give
    the same tables for the terms of the pair that are not cached give
    the same outcome of [load_or_prepare_joint_npmi], table or exception,
    and the same files. *)
Theorem cached_terms_not_recomputed (eng eng' : metrics_engine)
    (subgroup_pair : list string) (st : NpmiStats) :
  (forall s, In s subgroup_pair ->
     tables_present (n_disk st) (pmi_dataset_cache_dir st) s = true
     \/ eng (vocab_counts_df (dstats (n_world st))) (tokenized_df (dstats (n_world st))) s
        = eng' (vocab_counts_df (dstats (n_world st)))
               (tokenized_df (dstats (n_world st))) s) ->
  load_or_prepare_joint_npmi eng subgroup_pair st
  = load_or_prepare_joint_npmi eng' subgroup_pair st.
Proof.
  intros H. unfold load_or_prepare_joint_npmi, bind, lift, gets.
  destruct (py_index (sorted subgroup_pair) 0) as [s1|]; [|reflexivity].
  destruct (py_index (sorted subgroup_pair) 1) as [s2|]; [|reflexivity].
  destruct (n_use_cache st && exists_ (n_disk st) _); [reflexivity|].
  rewrite (prepare_same eng eng'); [reflexivity|].
  intros s Hs. apply H. apply (proj1 (in_sorted _ _)). exact Hs.
Qed.

Lemma cached_terms_not_recomputed_witness :
  tables_present he_cached_disk "cache/pmi_files" "he" = true
  /\ example_tables_without_he None None "he" = Err KeyError
  /\ load_or_prepare_joint_npmi example_tables ["he"; "she"]
       (n_set_disk he_cached_disk example_npmi)
     = load_or_prepare_joint_npmi example_tables_without_he ["he"; "she"]
         (n_set_disk he_cached_disk example_npmi).
Proof.
  split; [vm_compute; reflexivity|]. split; [reflexivity|].
  apply (cached_terms_not_recomputed example_tables example_tables_without_he
           ["he"; "she"] (n_set_disk he_cached_disk example_npmi)).
  intros s [<-|[<-|[]]].
  - left. vm_compute. reflexivity.
  - right. reflexivity.
Defined.

(** ** The table of the display *)

Lemma Qleb_total_false (x y : Q) : Qleb x y = false -> Qleb y x = true.
Proof.
  unfold Qleb. intros H. apply Qle_bool_iff.
  destruct (Qlt_le_dec y x) as [Hlt|Hle].
  - apply Qlt_le_weak. exact Hlt.
  - apply Qle_bool_iff in Hle. congruence.
Qed.

Lemma key_leb_total_false (asc : bool) (a b : sort_key) :
  key_leb asc a b = false -> key_leb asc b a = true.
Proof.
  destruct a as [x|x|], b as [y|y|]; cbn [key_leb]; try congruence;
    destruct asc; try apply Qleb_total_false; apply leb_total_false.
Qed.

Lemma sort_values_ordered (df df' : DataFrame) (c : string) (asc : bool) :
  sort_values df c asc = Ok df' ->
  exists s,
    col df' c = Ok s
    /\ ordered (fun a b => key_leb asc (key_of_cell a) (key_of_cell b)) (s_values s)
    /\ Permutation (rows df') (rows df).
Proof.
  unfold sort_values. destruct (find_col (columns df) c) as [j|] eqn:Ej; [|discriminate].
  destruct (_ || _); [|discriminate]. intros H. injection H as <-.
  unfold col. cbn [columns]. rewrite Ej. eexists. split; [reflexivity|].
  unfold s_values. cbn [items rows]. rewrite map_map. cbn [snd]. split.
  - apply (ordered_map (fun r : cell * list cell => cell_at j (snd r))
             (fun r1 r2 => key_leb asc (key_of_cell (cell_at j (snd r1)))
                                      (key_of_cell (cell_at j (snd r2))))).
    + reflexivity.
    + apply sort_by_ordered. intros a b. apply key_leb_total_false.
  - apply sort_by_perm.
Qed.

Lemma make_npmi_fig_last (pr : PairedResults) (sp : list string) (UI : DataFrame) :
  make_npmi_fig pr sp = Ok UI ->
  exists x y U0 U,
    sp = [x; y]
    /\ match npmi_bias pr with
       | Some b => (s <- astype_float b ;; assign empty_frame "npmi-bias" s)%res
       | None => Ok empty_frame
       end = Ok U0
    /\ sort_values U "npmi-bias" true = Ok UI
    /\ forall c, In c (columns U) ->
         In c (columns U0)
         \/ In c [x +:+ "-npmi"; x +:+ "-count"; y +:+ "-npmi"; y +:+ "-count"].
Proof.
  unfold make_npmi_fig. destruct sp as [|x [|y [|z sp]]]; try discriminate.
  intros H.
  destruct (match npmi_bias pr with
            | Some b => (s <- astype_float b ;; assign empty_frame "npmi-bias" s)%res
            | None => Ok empty_frame
            end) as [U0|e] eqn:E0; [|discriminate H].
  cbn [rbind] in H.
  destruct (col (pr_npmi pr) (x +:+ "-npmi")) as [c1|]; [|discriminate H].
  cbn [rbind] in H.
  destruct (astype_float c1) as [s1|]; [|discriminate H]. cbn [rbind] in H.
  destruct (assign U0 (x +:+ "-npmi") s1) as [U1|] eqn:E1; [|discriminate H].
  cbn [rbind] in H.
  destruct (col (pr_count pr) (x +:+ "-count")) as [c2|]; [|discriminate H].
  cbn [rbind] in H.
  destruct (astype_int c2) as [s2|]; [|discriminate H]. cbn [rbind] in H.
  destruct (assign U1 (x +:+ "-count") s2) as [U2|] eqn:E2; [|discriminate H].
  cbn [rbind] in H.
  pose proof (assign_shape _ _ _ _ E1) as [K1 _].
  pose proof (assign_shape _ _ _ _ E2) as [K2 _].
  destruct (negb (String.eqb x y)).
  - destruct (col (pr_npmi pr) (y +:+ "-npmi")) as [c3|]; [|discriminate H].
    cbn [rbind] in H.
    destruct (astype_float c3) as [s3|]; [|discriminate H]. cbn [rbind] in H.
    destruct (assign U2 (y +:+ "-npmi") s3) as [U3|] eqn:E3; [|discriminate H].
    cbn [rbind] in H.
    destruct (col (pr_count pr) (y +:+ "-count")) as [c4|]; [|discriminate H].
    cbn [rbind] in H.
    destruct (astype_int c4) as [s4|]; [|discriminate H]. cbn [rbind] in H.
    destruct (assign U3 (y +:+ "-count") s4) as [U4|] eqn:E4; [|discriminate H].
    cbn [rbind] in H.
    pose proof (assign_shape _ _ _ _ E3) as [K3 _].
    pose proof (assign_shape _ _ _ _ E4) as [K4 _].
    exists x, y, U0, U4. repeat split; [exact H|].
    intros c Hc. rewrite K4 in Hc. apply in_add_col in Hc as [Hc| ->]; [|cbn [In]; tauto].
    rewrite K3 in Hc. apply in_add_col in Hc as [Hc| ->]; [|cbn [In]; tauto].
    rewrite K2 in Hc. apply in_add_col in Hc as [Hc| ->]; [|cbn [In]; tauto].
    rewrite K1 in Hc. apply in_add_col in Hc as [Hc| ->]; [|cbn [In]; tauto].
    left. exact Hc.
  - cbn [rbind] in H. exists x, y, U0, U2. repeat split; [exact H|].
    intros c Hc.
    rewrite K2 in Hc. apply in_add_col in Hc as [Hc| ->]; [|cbn [In]; tauto].
    rewrite K1 in Hc. apply in_add_col in Hc as [Hc| ->]; [|cbn [In]; tauto].
    left. exact Hc.
Qed.

(** X16: the table [make_npmi_fig] returns has its rows in order of
    non-decreasing bias, the rows without a bias last. *)
Theorem make_npmi_fig_sorted (pr : PairedResults) (sp : list string) (UI : DataFrame) :
  make_npmi_fig pr sp = Ok UI ->
  exists s, col UI "npmi-bias" = Ok s /\ ordered cell_leb (s_values s).
Proof.
  intros H. destruct (make_npmi_fig_last _ _ _ H) as (x & y & U0 & U & _ & _ & Hs & _).
  destruct (sort_values_ordered _ _ _ _ Hs) as (s & Hc & Ho & _).
  exists s. split; [exact Hc|exact Ho].
Qed.

Lemma make_npmi_fig_sorted_witness :
  exists UI s,
    (pr <- calc_paired_metrics ["he"; "she"]
             (<["she" := (metric_frame "she" "count" [("ran", CInt 2); ("sat", CInt 5)],
                          metric_frame "she" "pmi" [],
                          metric_frame "she" "npmi"
                            [("ran", CFlt (Fin (1 # 4))); ("sat", CFlt (Fin (3 # 4)))])]>
                (<["he" := he_tables]> ∅)) ;;
     make_npmi_fig pr ["he"; "she"])%res = Ok UI
    /\ col UI "npmi-bias" = Ok s
    /\ map fst (items s) = [CStr "sat"; CStr "ran"]
    /\ ordered cell_leb (s_values s).
Proof.
  destruct (calc_paired_metrics ["he"; "she"] _) as [pr|e] eqn:Ep;
    [|vm_compute in Ep; discriminate Ep].
  cbn [rbind].
  destruct (make_npmi_fig pr ["he"; "she"]) as [UI|e] eqn:Em.
  - destruct (make_npmi_fig_sorted pr ["he"; "she"] UI Em) as (s & Hc & Ho).
    exists UI, s. split; [reflexivity|]. split; [exact Hc|]. split; [|exact Ho].
    vm_compute in Ep. injection Ep as <-. vm_compute in Em. injection Em as <-.
    vm_compute in Hc. injection Hc as <-. reflexivity.
  - exfalso. vm_compute in Ep. injection Ep as <-. vm_compute in Em. discriminate Em.
Defined.

(** X17: without a bias entry among the paired results [make_npmi_fig]
    never returns a table: the column it sorts by is not there. *)
Theorem make_npmi_fig_needs_bias (pr : PairedResults) (sp : list string) :
  npmi_bias pr = None -> raises (make_npmi_fig pr sp).
Proof.
  intros Hb. destruct (make_npmi_fig pr sp) as [UI|e] eqn:H; [|exists e; reflexivity].
  exfalso. destruct (make_npmi_fig_last _ _ _ H) as (x & y & U0 & U & _ & H0 & Hs & Hc).
  rewrite Hb in H0. injection H0 as <-.
  apply sort_values_shape in Hs as (_ & _ & Hin).
  destruct (Hc _ Hin) as [[]|Hin'].
  cbn [In] in Hin'.
  assert (Hne : forall a b, b <> EmptyString ->
              str_last "npmi-bias" "x" <> str_last b "x" -> a +:+ b <> "npmi-bias").
  { intros a b Hb' Hl E. pose proof (eqb_false_by_last "npmi-bias" a b Hb' Hl) as F.
    rewrite E, String.eqb_refl in F. discriminate F. }
  destruct Hin' as [E|[E|[E|[E|[]]]]]; revert E; apply Hne;
    try discriminate; vm_compute; discriminate.
Qed.

Lemma make_npmi_fig_needs_bias_witness :
  npmi_bias (mkPaired None (metric_frame "he" "npmi" []) (metric_frame "he" "count" [])) = None
  /\ raises (make_npmi_fig
               (mkPaired None (metric_frame "he" "npmi" []) (metric_frame "he" "count" []))
               ["he"; "he"]).
Proof.
  split; [reflexivity|].
  apply (make_npmi_fig_needs_bias
           (mkPaired None (metric_frame "he" "npmi" []) (metric_frame "he" "count" []))
           ["he"; "he"]).
  reflexivity.
Defined.

(** ** Tables without gaps *)

Lemma find_col_lt (cs : list string) (c : string) (j : nat) :
  find_col cs c = Some j -> j < length cs.
Proof.
  revert j. induction cs as [|c' cs IH]; intros j; cbn [find_col]; [discriminate|].
  destruct (String.eqb c' c).
  - intros H. injection H as <-. cbn [length]. lia.
  - destruct (find_col cs c) as [k|]; cbn [option_map]; [|discriminate].
    intros H. injection H as <-. specialize (IH k eq_refl). cbn [length]. lia.
Qed.

Lemma length_set_nth (j : nat) (v : cell) (r : list cell) :
  j < length r -> length (set_nth j v r) = length r.
Proof.
  revert r. induction j as [|j IH]; intros [|x r] H; cbn [length] in *; try lia.
  - reflexivity.
  - cbn [set_nth length]. rewrite IH by lia. reflexivity.
Qed.

Lemma length_remove_nth {A} (j : nat) (r : list A) :
  j < length r -> S (length (remove_nth j r)) = length r.
Proof.
  revert r. induction j as [|j IH]; intros [|x r] H; cbn [length] in *; try lia.
  - reflexivity.
  - cbn [remove_nth length]. rewrite IH by lia. reflexivity.
Qed.

Lemma put_column_rect (df : DataFrame) (c : string) (vs : list cell) :
  rectangular df -> rectangular (put_column df c vs).
Proof.
  intros Hr. unfold put_column.
  destruct (find_col (columns df) c) as [j|] eqn:Ej; intros r Hin;
    cbn [rows columns] in *; apply in_map_iff in Hin as [[r0 v] [<- Hin]];
    apply in_combine_l in Hin; cbn [fst snd]; specialize (Hr r0 Hin).
  - apply find_col_lt in Ej. rewrite length_set_nth; [exact Hr|lia].
  - rewrite !length_app, Hr. reflexivity.
Qed.

Lemma assign_rect (df df' : DataFrame) (c : string) (s : Series) :
  rectangular df -> assign df c s = Ok df' -> rectangular df'.
Proof.
  intros Hr. unfold assign.
  assert (Hput : forall vs, Ok (put_column df c vs) = Ok df' -> rectangular df')
    by (intros vs E; injection E as <-; apply put_column_rect, Hr).
  destruct (rows df) as [|r rs] eqn:Erows.
  - destruct (items s) as [|it its].
    + destruct (same_labels _ _); [apply Hput|].
      destruct (has_dup _); [discriminate|apply Hput].
    + intros E. injection E as <-. apply put_column_rect.
      intros r Hin. cbn [rows columns In map] in *.
      destruct Hin as [<-|Hin]; [apply length_map|].
      apply in_map_iff in Hin as [it' [<- _]]. apply length_map.
  - destruct (same_labels _ _); [apply Hput|].
    destruct (has_dup _); [discriminate|apply Hput].
Qed.

Lemma sort_values_rect (df df' : DataFrame) (c : string) (asc : bool) :
  rectangular df -> sort_values df c asc = Ok df' -> rectangular df'.
Proof.
  intros Hr. unfold sort_values.
  destruct (find_col (columns df) c) as [j|]; [|discriminate].
  destruct (_ || _); [|discriminate]. intros H. injection H as <-.
  intros r Hin. cbn [rows columns] in *. apply in_sort_by in Hin. apply Hr, Hin.
Qed.

Lemma dropna_complete (df : DataFrame) : rectangular df -> complete (dropna df).
Proof.
  intros Hr r Hin. unfold dropna in *. cbn [rows columns] in *.
  apply filter_In in Hin as [Hin Hna]. split; [apply Hr, Hin|].
  intros c Hc. rewrite List.forallb_forall in Hna. apply negb_true_iff, Hna, Hc.
Qed.

Lemma make_npmi_fig_rect (pr : PairedResults) (sp : list string) (UI : DataFrame) :
  make_npmi_fig pr sp = Ok UI -> rectangular UI.
Proof.
  unfold make_npmi_fig. destruct sp as [|x [|y [|z sp]]]; try discriminate.
  intros H.
  assert (R0 : rectangular empty_frame) by (intros r []).
  destruct (match npmi_bias pr with
            | Some b => (s <- astype_float b ;; assign empty_frame "npmi-bias" s)%res
            | None => Ok empty_frame
            end) as [U0|e] eqn:E0; [|discriminate H].
  cbn [rbind] in H.
  assert (RU0 : rectangular U0).
  { destruct (npmi_bias pr) as [b|].
    - destruct (astype_float b) as [s|]; [|discriminate E0]. cbn [rbind] in E0.
      apply (assign_rect _ _ _ _ R0 E0).
    - injection E0 as <-. exact R0. }
  destruct (col (pr_npmi pr) (x +:+ "-npmi")) as [c1|]; [|discriminate H].
  cbn [rbind] in H.
  destruct (astype_float c1) as [s1|]; [|discriminate H]. cbn [rbind] in H.
  destruct (assign U0 (x +:+ "-npmi") s1) as [U1|] eqn:E1; [|discriminate H].
  cbn [rbind] in H.
  destruct (col (pr_count pr) (x +:+ "-count")) as [c2|]; [|discriminate H].
  cbn [rbind] in H.
  destruct (astype_int c2) as [s2|]; [|discriminate H]. cbn [rbind] in H.
  destruct (assign U1 (x +:+ "-count") s2) as [U2|] eqn:E2; [|discriminate H].
  cbn [rbind] in H.
  pose proof (assign_rect _ _ _ _ RU0 E1) as RU1.
  pose proof (assign_rect _ _ _ _ RU1 E2) as RU2.
  destruct (negb (String.eqb x y)).
  - destruct (col (pr_npmi pr) (y +:+ "-npmi")) as [c3|]; [|discriminate H].
    cbn [rbind] in H.
    destruct (astype_float c3) as [s3|]; [|discriminate H]. cbn [rbind] in H.
    destruct (assign U2 (y +:+ "-npmi") s3) as [U3|] eqn:E3; [|discriminate H].
    cbn [rbind] in H.
    destruct (col (pr_count pr) (y +:+ "-count")) as [c4|]; [|discriminate H].
    cbn [rbind] in H.
    destruct (astype_int c4) as [s4|]; [|discriminate H]. cbn [rbind] in H.
    destruct (assign U3 (y +:+ "-count") s4) as [U4|] eqn:E4; [|discriminate H].
    cbn [rbind] in H.
    pose proof (assign_rect _ _ _ _ RU2 E3) as RU3.
    pose proof (assign_rect _ _ _ _ RU3 E4) as RU4.
    apply (sort_values_rect _ _ _ _ RU4 H).
  - cbn [rbind] in H. apply (sort_values_rect _ _ _ _ RU2 H).
Qed.

Lemma prepare_joint_npmi_df_complete (eng : metrics_engine) (st : NpmiStats)
    (sp : list string) (files : gmap string (string * string * string))
    (joint : DataFrame) (dict : gmap string (DataFrame * DataFrame * DataFrame)) :
  prepare_joint_npmi_df eng st sp files = Ok (joint, dict) -> complete joint.
Proof.
  unfold prepare_joint_npmi_df. destruct (foldM _ sp ∅) as [d0|]; [|discriminate].
  cbn [rbind]. destruct (do_npmi eng st sp d0) as [[UI d1]|] eqn:E; [|discriminate].
  cbn [rbind fst snd]. intros H. injection H as <- <-.
  apply dropna_complete. unfold do_npmi in E.
  destruct (foldM _ (sorted sp) d0) as [d2|]; [|discriminate E]. cbn [rbind] in E.
  destruct (calc_paired_metrics (sorted sp) d2) as [pr|]; [|discriminate E].
  cbn [rbind] in E.
  destruct (make_npmi_fig pr (sorted sp)) as [UI'|] eqn:Em; [|discriminate E].
  cbn [rbind] in E. injection E as <- <-. apply (make_npmi_fig_rect _ _ _ Em).
Qed.

Lemma in_number_from {A} (i : Z) (l : list A) (r : cell * A) :
  In r (number_from i l) -> In (snd r) l.
Proof.
  revert i. induction l as [|x l IH]; intros i; cbn [number_from In]; [tauto|].
  intros [<-|H]; [left; reflexivity|right; apply (IH _ H)].
Qed.

Lemma length_name_unnamed (i : nat) (hs : list string) :
  length (name_unnamed i hs) = length hs.
Proof.
  revert i. induction hs as [|h hs IH]; intros i; cbn [name_unnamed length];
    [reflexivity|]. rewrite IH. reflexivity.
Qed.

Lemma read_csv_rect (f : file) (df : DataFrame) :
  well_formed_csv f -> read_csv f = Ok df -> rectangular df.
Proof.
  destruct f as [header lines| | | |]; try discriminate.
  cbn [well_formed_csv read_csv]. intros Hw H. injection H as <-.
  intros r Hin. cbn [rows columns] in *. apply in_number_from in Hin.
  rewrite List.Forall_forall in Hw. rewrite length_name_unnamed. apply Hw, Hin.
Qed.

Lemma set_index_rect (df df' : DataFrame) (c : string) :
  rectangular df -> set_index df c = Ok df' -> rectangular df'.
Proof.
  intros Hr. unfold set_index.
  destruct (find_col (columns df) c) as [j|] eqn:Ej; [|discriminate].
  intros H. injection H as <-. apply find_col_lt in Ej.
  intros r Hin. cbn [rows columns] in *.
  apply in_map_iff in Hin as [r0 [<- Hin]]. cbn [snd]. specialize (Hr r0 Hin).
  pose proof (length_remove_nth j (snd r0)) as L1.
  pose proof (length_remove_nth j (columns df) Ej) as L2. lia.
Qed.

Lemma set_idx_cols_rect (df df' : DataFrame) :
  rectangular df -> _set_idx_cols_from_cache df None None = Ok df' -> rectangular df'.
Proof.
  intros Hr. unfold _set_idx_cols_from_cache. cbn [truthy andb].
  assert (Hs : forall c d,
             (d0 <- set_index df c ;; Ok (with_index_name (Some WORD) d0))%res = Ok d ->
             rectangular d).
  { intros c d H. destruct (set_index df c) as [d0|] eqn:E; [|discriminate H].
    cbn [rbind] in H. injection H as <-. apply (set_index_rect _ _ _ Hr) in E.
    exact E. }
  destruct (str_in "Unnamed: 0" (columns df)).
  - destruct (_ <- set_index df "Unnamed: 0" ;; _)%res as [d|] eqn:E; [|discriminate].
    cbn [rbind]. intros H. injection H as <-. apply (Hs _ _ E).
  - destruct (str_in WORD (columns df)).
    + destruct (_ <- set_index df WORD ;; _)%res as [d|] eqn:E; [|discriminate].
      cbn [rbind]. intros H. injection H as <-. apply (Hs _ _ E).
    + destruct (str_in VOCAB (columns df)).
      * destruct (_ <- set_index df VOCAB ;; _)%res as [d|] eqn:E; [|discriminate].
        cbn [rbind]. intros H. injection H as <-. apply (Hs _ _ E).
      * cbn [rbind]. intros H. injection H as <-. exact Hr.
Qed.

Lemma mapM_find_cols_lt (cs cols : list string) (js : list nat) :
  mapM (fun c => match find_col cs c with
                 | Some j => Ok j
                 | None => Err KeyError
                 end) cols = Ok js ->
  length js = length cols /\ forall j, In j js -> j < length cs.
Proof.
  revert js. induction cols as [|c cols IH]; intros js; cbn [mapM].
  - intros H. injection H as <-. split; [reflexivity|intros j []].
  - destruct (find_col cs c) as [j|] eqn:Ej; [|discriminate]. cbn [rbind].
    destruct (mapM _ cols) as [js'|]; [|discriminate]. cbn [rbind].
    intros H. injection H as <-. destruct (IH js' eq_refl) as [Hl Hj].
    split; [cbn [length]; rewrite Hl; reflexivity|].
    intros k [<-|Hk]; [apply (find_col_lt _ _ _ Ej)|apply Hj, Hk].
Qed.

Lemma select_complete (df df' : DataFrame) (cols : list string) :
  complete df -> select df cols = Ok df' -> complete df' /\ columns df' = cols.
Proof.
  intros Hc. unfold select. destruct (mapM _ cols) as [js|] eqn:Ej; [|discriminate].
  cbn [rbind]. intros H. injection H as <-. split; [|reflexivity].
  destruct (mapM_find_cols_lt _ _ _ Ej) as [Hl Hj].
  intros r Hin. cbn [rows columns] in *.
  apply in_map_iff in Hin as [r0 [<- Hin]]. cbn [snd].
  destruct (Hc r0 Hin) as [Hlen Hna]. split; [rewrite length_map; exact Hl|].
  intros c Hcin. apply in_map_iff in Hcin as [j [<- Hjin]].
  apply Hna. unfold cell_at. apply nth_In. rewrite Hlen. apply Hj, Hjin.
Qed.

(** X18: the pair table [load_or_prepare_joint_npmi] returns has no gaps:
    every row has a cell for every column and no cell is a missing value,
    whether the table was computed or loaded from a pair file whose lines
    have as many fields as its header. *)
Theorem joint_npmi_table_complete (eng : metrics_engine) (subgroup_pair : list string)
    (st st' : NpmiStats) (joint : DataFrame) :
  (forall f, n_disk st !! joint_npmi_fid st subgroup_pair = Some f -> well_formed_csv f) ->
  load_or_prepare_joint_npmi eng subgroup_pair st = (Ok joint, st') ->
  complete joint.
Proof.
  intros Hw Hrun. unfold load_or_prepare_joint_npmi, bind, lift, gets in Hrun.
  destruct (py_index (sorted subgroup_pair) 0) as [s1|]; [|discriminate Hrun].
  destruct (py_index (sorted subgroup_pair) 1) as [s2|]; [|discriminate Hrun].
  unfold joint_npmi_fid in Hw.
  destruct (n_use_cache st && exists_ (n_disk st) _).
  - destruct (load_joint_npmi_df _ _) as [df|] eqn:El; [|discriminate Hrun].
    destruct (select df _) as [df'|] eqn:Es; [|discriminate Hrun].
    injection Hrun as <- <-.
    apply (select_complete _ _ _) in Es as [Hc _]; [exact Hc|].
    unfold load_joint_npmi_df, open_ in El.
    destruct (n_disk st !! _) as [f|] eqn:Ef; [|discriminate El]. cbn [rbind] in El.
    destruct (read_csv f) as [d0|] eqn:Er; [|discriminate El]. cbn [rbind] in El.
    destruct (_set_idx_cols_from_cache d0 None None) as [d1|] eqn:E1; [|discriminate El].
    cbn [rbind] in El. injection El as <-.
    apply dropna_complete, (set_idx_cols_rect _ _ (read_csv_rect _ _ (Hw f eq_refl) Er) E1).
  - destruct (prepare_joint_npmi_df eng st (sorted subgroup_pair) _)
      as [[joint0 dict]|] eqn:Ep; [|discriminate Hrun].
    destruct (for_each _ _ st) as [[[]|e] st1]; [|discriminate Hrun].
    unfold modify, ret in Hrun. injection Hrun as <- <-.
    apply (prepare_joint_npmi_df_complete _ _ _ _ _ _ Ep).
Qed.

Lemma joint_npmi_table_complete_witness :
  (forall f, n_disk example_npmi !! joint_npmi_fid example_npmi ["she"; "he"] = Some f ->
             well_formed_csv f)
  /\ exists joint st',
       load_or_prepare_joint_npmi example_tables ["she"; "he"] example_npmi = (Ok joint, st')
       /\ complete joint.
Proof.
  assert (Hw : forall f, n_disk example_npmi !! joint_npmi_fid example_npmi ["she"; "he"]
                         = Some f -> well_formed_csv f).
  { intros f Hf. vm_compute in Hf. discriminate Hf. }
  split; [exact Hw|].
  destruct (load_or_prepare_joint_npmi example_tables ["she"; "he"] example_npmi)
    as [[joint|e] st'] eqn:E; [|vm_compute in E; discriminate E].
  exists joint, st'. split; [reflexivity|].
  apply (joint_npmi_table_complete example_tables ["she"; "he"] example_npmi st' joint Hw E).
Defined.

(** ** Preparing from scratch, and the vocabulary of the object *)

Lemma text_dset_uncached (w : World) :
  use_cache (dstats w) && exists_ (disk w) (text_dset_fid (dstats w)) = false ->
  load_or_prepare_text_dset false w = (Err AttributeError, w).
Proof. unfold load_or_prepare_text_dset. intros ->. reflexivity. Qed.

Lemma do_tokenization_uncached (w : World) :
  text_dset (dstats w) = None ->
  use_cache (dstats w) && exists_ (disk w) (text_dset_fid (dstats w)) = false ->
  do_tokenization w = (Err AttributeError, w).
Proof.
  intros Ht Hc. unfold do_tokenization, bind, gets. rewrite Ht. cbn [when].
  rewrite (text_dset_uncached _ Hc). reflexivity.
Qed.

Lemma tokenized_df_uncached (w : World) :
  text_dset (dstats w) = None ->
  use_cache (dstats w) && exists_ (disk w) (text_dset_fid (dstats w)) = false ->
  use_cache (dstats w) && exists_ (disk w) (tokenized_df_fid (dstats w)) = false ->
  load_or_prepare_tokenized_df false w = (Err AttributeError, w).
Proof.
  intros Ht Hc Hk. unfold load_or_prepare_tokenized_df. rewrite Hk. cbn [negb].
  unfold bind at 1. rewrite (do_tokenization_uncached _ Ht Hc). reflexivity.
Qed.

(** X19: nothing is prepared from scratch.  On an object without text
    and with no text dataset or tokenized table to load from the cache
    directory, extracting the text, tokenizing and building the
    vocabulary (cached vocabulary apart) all stop with an AttributeError
    and leave the object and the directory as they were:
    [prepare_text_dset] calls a method the class does not have. *)
Theorem prepare_from_scratch_fails (sw : list string) (w : World) :
  text_dset (dstats w) = None ->
  use_cache (dstats w) && exists_ (disk w) (text_dset_fid (dstats w)) = false ->
  use_cache (dstats w) && exists_ (disk w) (tokenized_df_fid (dstats w)) = false ->
  use_cache (dstats w) && exists_ (disk w) (vocab_counts_df_fid (dstats w)) = false ->
  load_or_prepare_text_dset false w = (Err AttributeError, w)
  /\ do_tokenization w = (Err AttributeError, w)
  /\ load_or_prepare_tokenized_df false w = (Err AttributeError, w)
  /\ load_or_prepare_vocab sw false w = (Err AttributeError, w).
Proof.
  intros Ht Hc Hk Hv. split; [apply text_dset_uncached, Hc|].
  split; [apply do_tokenization_uncached; assumption|].
  split; [apply tokenized_df_uncached; assumption|].
  unfold load_or_prepare_vocab. rewrite Hv. cbn [negb]. unfold bind at 1.
  rewrite (tokenized_df_uncached _ Ht Hc Hk). reflexivity.
Qed.

Lemma prepare_from_scratch_fails_witness :
  text_dset (dstats example_world) = None
  /\ load_or_prepare_vocab [] false example_world = (Err AttributeError, example_world).
Proof.
  split; [reflexivity|].
  apply (prepare_from_scratch_fails [] example_world); reflexivity.
Defined.

Lemma vocab_consistent_kept (sw : list string) (load_only : bool) (w w' : World) :
  vocab_consistent sw (dstats w) ->
  load_or_prepare_vocab sw load_only w = (Ok tt, w') ->
  vocab_consistent sw (dstats w').
Proof.
  intros Hw. unfold load_or_prepare_vocab.
  destruct (use_cache (dstats w) && exists_ (disk w) (vocab_counts_df_fid (dstats w))).
  - unfold bind, gets, lift, modify, load_vocab.
    destruct (_ <- open_ (disk w) _ ;; _)%res as [df|e]; [|discriminate].
    cbn [set_vocab_counts_df dstats vocab_counts_df].
    destruct (filter_vocab sw df) as [f|e] eqn:Ef; [|discriminate].
    intros H. injection H as <-. intros v Hv.
    cbn [set_vocab_counts_filtered_df set_vocab_counts_df dstats vocab_counts_df
         vocab_counts_filtered_df] in *.
    injection Hv as <-. exists f. split; [reflexivity|exact Ef].
  - destruct load_only; cbn [negb].
    + intros H. injection H as <-. exact Hw.
    + unfold bind, gets, lift, modify, when.
      destruct (load_or_prepare_tokenized_df false w) as [[[]|e] w1]; [|discriminate].
      destruct (tokenized_df (dstats w1)) as [t|]; [|discriminate].
      destruct (count_vocab_frequencies t) as [wc|e]; [|discriminate].
      destruct (calc_p_word wc) as [v|e]; [|discriminate].
      destruct (filter_vocab sw v) as [f|e] eqn:Ef; [|discriminate].
      cbn [set_vocab_counts_filtered_df set_vocab_counts_df dstats save].
      destruct (save (dstats w1)); intros H; injection H as <-; intros v' Hv';
        cbn [write_file set_vocab_counts_filtered_df set_vocab_counts_df dstats
             vocab_counts_df vocab_counts_filtered_df] in *;
        injection Hv' as <-; exists f; (split; [reflexivity|exact Ef]).
Qed.

(** X20: a call of [load_or_prepare_vocab] that returns keeps the two
    vocabulary tables of the object in step: the filtered vocabulary is
    [filter_vocab] of the vocabulary, whether they were loaded, computed
    or left alone. *)
Theorem load_or_prepare_vocab_consistent (sw : list string) (load_only : bool)
    (w w' : World) :
  vocab_consistent sw (dstats w) ->
  load_or_prepare_vocab sw load_only w = (Ok tt, w') ->
  vocab_consistent sw (dstats w').
Proof. apply vocab_consistent_kept. Qed.

Lemma load_or_prepare_vocab_consistent_witness :
  vocab_consistent [] (dstats example_text_world)
  /\ exists w',
       load_or_prepare_vocab [] false example_text_world = (Ok tt, w')
       /\ vocab_consistent [] (dstats w').
Proof.
  assert (H : vocab_consistent [] (dstats example_text_world))
    by (intros v Hv; discriminate Hv).
  split; [exact H|].
  destruct (load_or_prepare_vocab [] false example_text_world) as [[[]|e] w'] eqn:E;
    [|vm_compute in E; discriminate E].
  exists w'. split; [reflexivity|].
  apply (load_or_prepare_vocab_consistent [] false example_text_world w' H E).
Defined.


Lemma count_in_some (V : list (string * Z * pyfloat)) (t : string) (c : Z) :
  count_in V t = Some c -> exists x, In x V /\ fst (fst x) = t /\ snd (fst x) = c.
Proof.
  induction V as [|x V IH]; cbn [count_in]; [discriminate|].
  destruct (String.eqb_spec (fst (fst x)) t) as [E|_].
  - intros H. injection H as <-. exists x. split; [left; reflexivity|]. split; [exact E|reflexivity].
  - intros H. destruct (IH H) as (y & Hy & Hw). exists y. split; [right; exact Hy|exact Hw].
Qed.

Lemma count_in_none (V : list (string * Z * pyfloat)) (t : string) :
  count_in V t = None -> ~ In t (map (fun x => fst (fst x)) V).
Proof.
  induction V as [|x V IH]; cbn [count_in map In]; [tauto|].
  destruct (String.eqb_spec (fst (fst x)) t) as [E|Hne]; [discriminate|].
  intros H [E|Hin]; [contradiction|apply (IH H Hin)].
Qed.

(** X22: over the vocabulary of a corpus, as counting and [calc_p_word]
    build it, the scan of [load_or_prepare_npmi_terms] returns, in the
    order of the term list, exactly the terms that occur in the corpus
    and do so at least the minimum number of times. *)
Theorem scan_available_terms_of_corpus (tokenized_df : list tok_row) (wc v : DataFrame)
    (terms : list string) (minimum : Z) :
  count_vocab_frequencies tokenized_df = Ok wc ->
  calc_p_word wc = Ok v ->
  let docs := map tokenized_field tokenized_df in
  scan_available_terms (Some v) terms minimum
  = Ok (List.filter (fun t => str_in t (concat docs)
                              && (minimum <=? token_total docs t)%Z) terms).
Proof.
  intros Hwc Hv. cbv zeta.
  pose proof (vocabulary_frame _ _ _ Hwc Hv) as H. cbv zeta in H.
  destruct H as (out & -> & _ & _ & Hnd & Hall & Hout).
  rewrite (scan_available_terms_spec _ _ _ Hnd). f_equal. unfold available.
  apply filter_ext. intros t.
  destruct (count_in out t) as [c|] eqn:Ec.
  - destruct (count_in_some _ _ _ Ec) as (x & Hx & <- & <-).
    destruct (Hout x Hx) as (Hc & Hin & _).
    apply str_in_iff in Hin. rewrite Hin, Hc. reflexivity.
  - apply count_in_none in Ec.
    destruct (str_in t (concat (map tokenized_field tokenized_df))) eqn:Es;
      [|reflexivity].
    exfalso. apply Ec, Hall, str_in_iff, Es.
Qed.

Lemma scan_available_terms_of_corpus_witness :
  count_vocab_frequencies (tokenize_batch ["The Cat sat"; "a cat"])
  = Ok (word_count_frame [("a", 1%Z); ("cat", 2%Z); ("sat", 1%Z); ("the", 1%Z)])
  /\ scan_available_terms
       (Some (vocab_counts_frame
                [("cat", 2%Z, Fin (2 # 5)); ("a", 1%Z, Fin (1 # 5));
                 ("sat", 1%Z, Fin (1 # 5)); ("the", 1%Z, Fin (1 # 5))]))
       ["sat"; "dog"; "cat"] 2
     = Ok ["cat"].
Proof.
  split; [vm_compute; reflexivity|].
  apply (scan_available_terms_of_corpus (tokenize_batch ["The Cat sat"; "a cat"])
           (word_count_frame [("a", 1%Z); ("cat", 2%Z); ("sat", 1%Z); ("the", 1%Z)])
           _ ["sat"; "dog"; "cat"] 2).
  - vm_compute. reflexivity.
  - vm_compute. reflexivity.
Defined.

(** ** Text lengths *)

Lemma in_combine_seq {A} (a i : nat) (x : A) (l : list A) :
  In (i, x) (combine (seq a (length l)) l) -> a <= i /\ nth_error l (i - a) = Some x.
Proof.
  revert a. induction l as [|y l IH]; intros a; cbn [length seq combine In]; [tauto|].
  intros [H|H].
  - injection H as <- <-. split; [lia|]. rewrite Nat.sub_diag. reflexivity.
  - destruct (IH _ H) as [Hle Hn]. split; [lia|].
    replace (i - a) with (S (i - S a)) by lia. exact Hn.
Qed.

Lemma set_lengths_tokenize_batch (texts : list string) :
  set_lengths (tokenize_batch texts) = tokenize_batch texts.
Proof.
  unfold set_lengths, tokenize_batch. rewrite map_map. reflexivity.
Qed.

Lemma set_tokenized_df_same (t : list tok_row) (w : World) :
  tokenized_df (dstats w) = Some t -> set_tokenized_df (Some t) w = w.
Proof.
  destruct w as [[a b c d e f g h] dk]. cbn. intros ->. reflexivity.
Qed.

(** X23: [prepare_length_df] lists every row of the tokenized table once,
    under its position, with its text and the number of its tokens, in
    order of non-decreasing length; in the tokenized table only the
    length column is set, so a table that [do_tokenization] made is left
    as it is. *)
Theorem prepare_length_df_sorted (w w' : World) (length_df : list length_row) :
  prepare_length_df w = (Ok length_df, w') ->
  exists t,
    tokenized_df (dstats w) = Some t
    /\ w' = set_tokenized_df (Some (set_lengths t)) w
    /\ (forall texts, t = tokenize_batch texts -> w' = w)
    /\ ordered (fun a b => row_length a <=? row_length b) length_df
    /\ Permutation (map row_label length_df) (seq 0 (length t))
    /\ forall x, In x length_df ->
         exists r, nth_error t (row_label x) = Some r
                   /\ row_length x = length (tokenized_field r)
                   /\ row_text x = our_text_field r.
Proof.
  unfold prepare_length_df, bind, gets, modify, ret.
  destruct (tokenized_df (dstats w)) as [t|] eqn:Et; [|discriminate].
  cbn [set_tokenized_df dstats tokenized_df].
  intros H. injection H as <- <-. exists t.
  split; [reflexivity|]. split; [reflexivity|]. split; [|split; [|split]].
  - intros texts ->. rewrite set_lengths_tokenize_batch.
    apply set_tokenized_df_same, Et.
  - apply sort_by_ordered. intros a b H. apply Nat.leb_gt in H. apply Nat.leb_le. lia.
  - etransitivity; [apply Permutation_map, sort_by_perm|].
    unfold length_columns. rewrite map_map. cbn [row_label fst].
    assert (Hl : length (set_lengths t) = length t) by apply length_map.
    rewrite Hl. clear Et.
    assert (Hc : forall (l : list tok_row) (s : list nat),
               length s = length l -> map (fun ir : nat * tok_row => fst ir) (combine s l) = s).
    { intros l s. revert l. induction s as [|i s IH]; intros [|r l] Hlen;
        cbn [length] in Hlen; try discriminate; [reflexivity|].
      cbn [combine map fst]. rewrite IH by lia. reflexivity. }
    rewrite Hc by (rewrite length_seq; symmetry; exact Hl). reflexivity.
  - intros x Hx. apply in_sort_by in Hx. unfold length_columns in Hx.
    apply in_map_iff in Hx as [[i r'] [<- Hin]].
    apply in_combine_seq in Hin as [_ Hn]. rewrite Nat.sub_0_r in Hn.
    unfold set_lengths in Hn. rewrite nth_error_map in Hn.
    destruct (nth_error t i) as [r|] eqn:Er; [|discriminate Hn].
    cbn [option_map] in Hn. injection Hn as <-.
    exists r. cbn [row_label row_length row_text fst snd length_field our_text_field].
    repeat split. exact Er.
Qed.

Lemma prepare_length_df_sorted_witness :
  exists length_df w',
    prepare_length_df
      (set_tokenized_df (Some (tokenize_batch ["the cat sat"; "a cat"; "no"])) example_world)
    = (Ok length_df, w')
    /\ length_df = [(2, 1, "no"); (1, 2, "a cat"); (0, 3, "the cat sat")]
    /\ ordered (fun a b => row_length a <=? row_length b) length_df.
Proof.
  destruct (prepare_length_df _) as [[length_df|e] w'] eqn:E;
    [|vm_compute in E; discriminate E].
  destruct (prepare_length_df_sorted _ _ _ E) as (t & _ & _ & _ & Ho & _).
  exists length_df, w'. split; [reflexivity|]. split; [|exact Ho].
  vm_compute in E. injection E as <- _. reflexivity.
Defined.

(** ** General statistics *)











(** ** Calling twice with caching off *)












(** ** What the cache branches read *)

(** X26: [load_or_fail_cached_npmi_scores] reports a miss exactly when
    one of the three files of the term is not there; with all three
    present it returns tables or raises, and with one missing it reads
    none of the others. *)
Theorem load_or_fail_miss (d : gmap string file) (dir subgroup : string) :
  load_or_fail_cached_npmi_scores d subgroup (subgroup_fids dir subgroup) = Ok None
  <-> tables_present d dir subgroup = false.
Proof.
  split; [apply load_none_absent|].
  intros H. apply load_uncached_tables. exact H.
Qed.

Lemma load_joint_same_file (d d' : gmap string file) (fid : string) :
  d !! fid = d' !! fid -> load_joint_npmi_df d fid = load_joint_npmi_df d' fid.
Proof. unfold load_joint_npmi_df, open_. intros ->. reflexivity. Qed.

(** X27: with caching on and the pair file present,
    [load_or_prepare_joint_npmi] reads the pair file and nothing else: its
    result is the same whatever the engine, the vocabulary, the tokenized
    table and the other files are, and the object is left as it was. *)
Theorem cached_pair_reads_only_pair_file (eng eng' : metrics_engine)
    (subgroup_pair : list string) (st st' : NpmiStats) (f : file) :
  n_use_cache st = true -> n_use_cache st' = true ->
  pmi_dataset_cache_dir st' = pmi_dataset_cache_dir st ->
  n_disk st !! joint_npmi_fid st subgroup_pair = Some f ->
  n_disk st' !! joint_npmi_fid st subgroup_pair = Some f ->
  fst (load_or_prepare_joint_npmi eng' subgroup_pair st')
  = fst (load_or_prepare_joint_npmi eng subgroup_pair st)
  /\ snd (load_or_prepare_joint_npmi eng subgroup_pair st) = st.
Proof.
  intros Hc Hc' Hdir Hf Hf'.
  destruct (py_index (sorted subgroup_pair) 0) as [s1|] eqn:E1;
    [|unfold load_or_prepare_joint_npmi, bind, lift; rewrite E1; split; reflexivity].
  destruct (py_index (sorted subgroup_pair) 1) as [s2|] eqn:E2;
    [|unfold load_or_prepare_joint_npmi, bind, lift; rewrite E1, E2; split; reflexivity].
  assert (Hfid : joint_npmi_fid st' subgroup_pair = joint_npmi_fid st subgroup_pair)
    by (unfold joint_npmi_fid; rewrite Hdir; reflexivity).
  rewrite (joint_cached_run eng _ st _ _ E1 E2)
    by (rewrite Hc, (exists_of_lookup _ _ _ Hf); reflexivity).
  rewrite (joint_cached_run eng' _ st' _ _ E1 E2)
    by (rewrite Hc', Hfid, (exists_of_lookup _ _ _ Hf'); reflexivity).
  cbn [fst snd]. split; [|reflexivity].
  rewrite Hfid, (load_joint_same_file (n_disk st') (n_disk st)) by congruence.
  reflexivity.
Qed.

Lemma cached_pair_reads_only_pair_file_witness :
  exists st1 f,
    n_use_cache st1 = true
    /\ n_disk st1 !! joint_npmi_fid st1 ["he"; "she"] = Some f
    /\ fst (load_or_prepare_joint_npmi example_tables_without_he ["he"; "she"]
              (n_set_disk (<[joint_npmi_fid st1 ["he"; "she"] := f]> ∅) st1))
       = fst (load_or_prepare_joint_npmi example_tables ["he"; "she"] st1).
Proof.
  destruct (load_or_prepare_joint_npmi example_tables ["she"; "he"] example_npmi)
    as [r1 st1] eqn:E.
  assert (Hc : n_use_cache st1 = true) by (vm_compute in E; injection E as _ <-; reflexivity).
  destruct (n_disk st1 !! joint_npmi_fid st1 ["he"; "she"]) as [f|] eqn:Ef;
    [|exfalso; vm_compute in E; injection E as _ <-; vm_compute in Ef; discriminate Ef].
  exists st1, f. split; [exact Hc|]. split; [exact Ef|].
  apply (cached_pair_reads_only_pair_file example_tables example_tables_without_he
           ["he"; "she"] st1
           (n_set_disk (<[joint_npmi_fid st1 ["he"; "she"] := f]> ∅) st1) f).
  - exact Hc.
  - exact Hc.
  - reflexivity.
  - exact Ef.
  - unfold n_disk, n_set_disk. cbn [n_world disk]. apply lookup_insert_eq.
Defined.

(** ** The record of available terms *)

Lemma set_available_terms_write (ts : list string) (fid : string) (f : file)
    (st : NpmiStats) :
  let st1 := set_available_terms ts (n_write_file fid f st) in
  set_available_terms ts st1 = st1
  /\ n_write_file fid f st1 = st1
  /\ n_disk st1 !! fid = Some f.
Proof.
  destruct st as [[ds dk] a b c e g h i].
  unfold set_available_terms, n_write_file, write_file, n_disk. cbn.
  split; [reflexivity|]. split; [|apply lookup_insert_eq].
  rewrite insert_insert_eq. reflexivity.
Qed.

(** X28: the term record is written and read back.  After its first
    statement, [load_or_prepare_npmi_terms] on an object that may compute
    (not load-only, nothing cached) over a vocabulary table returns the
    terms of the scan, stores them in the object and writes them to the
    terms file; run again in the state it left, it returns the same terms
    and changes nothing, whether it reads the record (caching on, terms
    not empty) or scans again. *)
Theorem npmi_terms_written_and_read (st : NpmiStats) (V : list (string * Z * pyfloat)) :
  n_load_only st = false ->
  n_use_cache st && exists_ (n_disk st) (npmi_terms_fid st) = false ->
  vocab_counts_df (dstats (n_world st)) = Some (vocab_counts_frame V) ->
  List.NoDup (map (fun x => fst (fst x)) V) ->
  let ts := available V (termlist st) (n_min_vocab_count st) in
  exists st1,
    load_or_prepare_npmi_terms_body st = (Ok ts, st1)
    /\ available_terms st1 = ts
    /\ n_disk st1 !! npmi_terms_fid st = Some (FJson [("available terms", ts)])
    /\ load_or_prepare_npmi_terms_body st1 = (Ok ts, st1).
Proof.
  intros Hlo Hc Hv Hnd ts.
  pose proof (scan_available_terms_spec V (termlist st) (n_min_vocab_count st) Hnd) as Hscan.
  fold ts in Hscan.
  set (f := FJson [("available terms", ts)]).
  set (st1 := set_available_terms ts (n_write_file (npmi_terms_fid st) f st)).
  destruct (set_available_terms_write ts (npmi_terms_fid st) f st) as (Hset & Hwr & Hlook).
  fold st1 in Hset, Hwr, Hlook.
  exists st1. split; [|split; [|split]].
  - unfold load_or_prepare_npmi_terms_body. rewrite Hc, Hlo. cbn [negb].
    rewrite Hv, Hscan. reflexivity.
  - destruct st as [[ds dk] a b c e g h i]. reflexivity.
  - exact Hlook.
  - assert (Hfid : npmi_terms_fid st1 = npmi_terms_fid st)
      by (destruct st as [[ds dk] a b c e g h i]; reflexivity).
    assert (Hlo1 : n_load_only st1 = false)
      by (destruct st as [[ds dk] a b c e g h i]; exact Hlo).
    assert (Hv1 : vocab_counts_df (dstats (n_world st1)) = Some (vocab_counts_frame V))
      by (destruct st as [[ds dk] a b c e g h i]; exact Hv).
    assert (Hterms : termlist st1 = termlist st /\ n_min_vocab_count st1 = n_min_vocab_count st)
      by (destruct st as [[ds dk] a b c e g h i]; split; reflexivity).
    destruct Hterms as [Ht Hm].
    assert (Hother : (if negb (n_load_only st1)
                      then match scan_available_terms (vocab_counts_df (dstats (n_world st1)))
                                   (termlist st1) (n_min_vocab_count st1) with
                           | Err e => (Err e, st1)
                           | Ok ts0 =>
                               (Ok ts0, set_available_terms ts0
                                  (n_write_file (npmi_terms_fid st1)
                                     (FJson [("available terms", ts0)]) st1))
                           end
                      else (Err UnboundLocalError, st1)) = (Ok ts, st1)).
    { rewrite Hlo1, Hv1, Ht, Hm, Hscan, Hfid. cbn [negb]. fold f.
      rewrite Hwr, Hset. reflexivity. }
    unfold load_or_prepare_npmi_terms_body. rewrite Hfid.
    destruct (n_use_cache st1).
    + rewrite (exists_of_lookup _ _ _ Hlook). cbn [andb].
      unfold json_available_terms. rewrite (open_of_lookup _ _ _ Hlook).
      cbn [rbind]. unfold f at 1. cbn [assoc].
      change ("available terms" =? "available terms")%string with true. cbn iota.
      destruct ts as [|t ts'] eqn:Ets.
      * rewrite <- Hfid. exact Hother.
      * rewrite Hset. reflexivity.
    + cbn [andb]. rewrite <- Hfid. exact Hother.
Qed.

Lemma npmi_terms_written_and_read_witness :
  exists st ts st1,
    n_load_only st = false
    /\ vocab_counts_df (dstats (n_world st))
       = Some (vocab_counts_frame [("he", 12%Z, Fin (12 # 15)); ("she", 3%Z, Fin (3 # 15))])
    /\ ts = ["he"]
    /\ load_or_prepare_npmi_terms_body st = (Ok ts, st1)
    /\ load_or_prepare_npmi_terms_body st1 = (Ok ts, st1).
Proof.
  set (V := [("he", 12%Z, Fin (12 # 15)); ("she", 3%Z, Fin (3 # 15))]).
  set (st := nPMIStatisticsCacheClass
               (set_vocab_counts_df (Some (vocab_counts_frame V)) example_world)
               false true).
  assert (Hnd : List.NoDup (map (fun x : string * Z * pyfloat => fst (fst x)) V)).
  { repeat constructor; cbn [In]; intuition discriminate. }
  destruct (npmi_terms_written_and_read st V eq_refl eq_refl eq_refl Hnd)
    as (st1 & H1 & _ & _ & H2).
  exists st, (available V (termlist st) (n_min_vocab_count st)), st1.
  split; [reflexivity|]. split; [reflexivity|]. split; [vm_compute; reflexivity|].
  split; [exact H1|exact H2].
Defined.

(** ** The computed table is returned *)

Lemma calc_fold_keys (eng : metrics_engine)
    (obj : option DataFrame * option (list tok_row)) (l : list string)
    (d d' : gmap string (DataFrame * DataFrame * DataFrame)) :
  foldM (fun subgroup_dict subgroup =>
           match subgroup_dict !! subgroup with
           | Some _ => Ok subgroup_dict
           | None =>
               (msg <- py_percent "Calculating npmi statistics for %s" subgroup ;;
                t <- calc_metrics eng obj subgroup ;;
                Ok (<[subgroup := t]> subgroup_dict))%res
           end) l d = Ok d' ->
  (forall s, is_Some (d !! s) -> is_Some (d' !! s))
  /\ (forall s, In s l -> is_Some (d' !! s)).
Proof.
  revert d. induction l as [|x l IH]; intros d H.
  - injection H as <-. split; [exact (fun _ H => H)|intros s []].
  - cbn [foldM] in H. destruct (d !! x) as [t|] eqn:Ex; cbn [rbind] in H.
    + destruct (IH _ H) as [Hk Hl]. split; [exact Hk|].
      intros s [<-|Hs]; [apply Hk; rewrite Ex; eexists; reflexivity|apply Hl, Hs].
    + destruct (py_percent _ x); cbn [rbind] in H; [|discriminate H].
      destruct (calc_metrics eng obj x) as [t|]; cbn [rbind] in H; [|discriminate H].
      destruct (IH _ H) as [Hk Hl].
      assert (Hx : is_Some (d' !! x))
        by (apply Hk; rewrite lookup_insert_eq; eexists; reflexivity).
      split.
      * intros s Hs. apply Hk. destruct (decide (x = s)) as [->|Hne].
        -- rewrite lookup_insert_eq. eexists. reflexivity.
        -- rewrite lookup_insert_ne by exact Hne. exact Hs.
      * intros s [<-|Hs]; [exact Hx|apply Hl, Hs].
Qed.

Lemma prepare_dict_keys (eng : metrics_engine) (st : NpmiStats) (l : list string)
    (files : gmap string (string * string * string))
    (joint : DataFrame) (dict : gmap string (DataFrame * DataFrame * DataFrame)) :
  prepare_joint_npmi_df eng st l files = Ok (joint, dict) ->
  forall s, In s l -> is_Some (dict !! s).
Proof.
  unfold prepare_joint_npmi_df. destruct (foldM _ l ∅) as [d0|]; [|discriminate].
  cbn [rbind]. destruct (do_npmi eng st l d0) as [[UI d1]|] eqn:E; [|discriminate].
  cbn [rbind fst snd]. intros H. injection H as _ <-.
  unfold do_npmi in E.
  destruct (foldM _ (sorted l) d0) as [d2|] eqn:Ef; [|discriminate E]. cbn [rbind] in E.
  destruct (calc_paired_metrics (sorted l) d2) as [pr|]; [|discriminate E].
  cbn [rbind] in E.
  destruct (make_npmi_fig pr (sorted l)) as [UI'|]; [|discriminate E].
  cbn [rbind] in E. injection E as _ <-.
  intros s Hs. apply (calc_fold_keys _ _ _ _ _ Ef). apply in_sorted. exact Hs.
Qed.

Lemma for_each_write_returns (l l' : list string) (dir : string)
    (dict : gmap string (DataFrame * DataFrame * DataFrame)) (st : NpmiStats) :
  (forall s, In s l -> In s l' /\ is_Some (dict !! s)) ->
  exists st',
    for_each l (fun s => write_subgroup_npmi_data s dict (define_subgroup_files l' dir)) st
    = (Ok tt, st').
Proof.
  revert st. induction l as [|x l IH]; intros st H; [eexists; reflexivity|].
  cbn [for_each]. unfold bind at 1.
  destruct (H x (or_introl eq_refl)) as [Hin [[[c p] n] Hd]].
  rewrite (write_subgroup_run _ _ _ _ _ _ _ _ Hin Hd).
  apply IH. intros s Hs. apply H. right. exact Hs.
Qed.

(** X29: caching the results cannot fail.  When the pair table has to be
    computed and [prepare_joint_npmi_df] returns it, every term of the
    pair has its tables and its files, so the writes go through and
    [load_or_prepare_joint_npmi] returns that table. *)
Theorem computed_pair_is_returned (eng : metrics_engine) (subgroup_pair : list string)
    (st : NpmiStats) (joint : DataFrame)
    (dict : gmap string (DataFrame * DataFrame * DataFrame)) :
  n_use_cache st && exists_ (n_disk st) (joint_npmi_fid st subgroup_pair) = false ->
  prepare_joint_npmi_df eng st (sorted subgroup_pair)
    (define_subgroup_files (sorted subgroup_pair) (pmi_dataset_cache_dir st))
  = Ok (joint, dict) ->
  fst (load_or_prepare_joint_npmi eng subgroup_pair st) = Ok joint.
Proof.
  intros Hc Hp.
  destruct (prepare_needs_two _ _ _ _ _ Hp) as (x & y & Hxy).
  pose proof (length_sorted (sorted subgroup_pair)) as L. rewrite Hxy in L.
  unfold load_or_prepare_joint_npmi, bind, lift, gets.
  unfold joint_npmi_fid in Hc.
  destruct (for_each_write_returns (sorted subgroup_pair) (sorted subgroup_pair)
              (pmi_dataset_cache_dir st) dict st) as [st' Hw].
  { intros s Hs. split; [exact Hs|]. apply (prepare_dict_keys _ _ _ _ _ _ Hp s Hs). }
  destruct (sorted subgroup_pair) as [|u [|v [|? ?]]] eqn:Esp; try discriminate L.
  cbn [py_index nth_error]. rewrite Hc, Hp, Hw. reflexivity.
Qed.

Lemma computed_pair_is_returned_witness :
  exists joint dict,
    prepare_joint_npmi_df example_tables example_npmi (sorted ["she"; "he"])
      (define_subgroup_files (sorted ["she"; "he"]) (pmi_dataset_cache_dir example_npmi))
    = Ok (joint, dict)
    /\ fst (load_or_prepare_joint_npmi example_tables ["she"; "he"] example_npmi) = Ok joint.
Proof.
  destruct (prepare_joint_npmi_df example_tables example_npmi (sorted ["she"; "he"]) _)
    as [[joint dict]|e] eqn:E; [|vm_compute in E; discriminate E].
  exists joint, dict. split; [reflexivity|].
  apply (computed_pair_is_returned example_tables ["she"; "he"] example_npmi joint dict);
    [reflexivity|exact E].
Defined.
